(** * GitHub contributors service: a shallow embedding of
      [src/services/githubServices.ts], of the routes that call it and of
      their middleware, and the properties of the rate governor, the cache,
      the pagination, the new-contributor analysis and the responses. *)

From stdpp Require Import gmap strings list pretty sorting.
From Equations Require Import Equations.
From Stdlib Require Import ZArith Lia Ascii.

Open Scope Z_scope.

#[local] Set Warnings "-clear-no-such-hyp".

(** ** Strings as the service builds and reads them

    The characters of a string are its code units, taken below 256. *)

Module JSString.

(** [s.padStart(len, fill)]: the filler is [fill] repeated and cut to the
    missing length; a string already long enough is returned as it is. *)
Fixpoint filler (n : nat) (fill cur : string) : string :=
  match n with
  | O => ""
  | S n' =>
      match cur with
      | String c rest => String c (filler n' fill rest)
      | EmptyString =>
          match fill with
          | String c rest => String c (filler n' fill rest)
          | EmptyString => ""
          end
      end
  end.

Definition padStart (len : nat) (fill s : string) : string :=
  filler (len - String.length s) fill fill +:+ s.

Definition digit (c : ascii) : option Z :=
  Z.of_nat <$> Ascii.is_nat c.

(** Reads exactly [n] decimal digits from the front of [s]. *)
Fixpoint digits (n : nat) (acc : Z) (s : string) : option (Z * string) :=
  match n with
  | O => Some (acc, s)
  | S n' =>
      match s with
      | String c rest =>
          match digit c with
          | Some d => digits n' (10 * acc + d) rest
          | None => None
          end
      | EmptyString => None
      end
  end.

(** Expects the character [c] at the front of [s]. *)
Definition expect (c : ascii) (s : string) : option string :=
  match s with
  | String c' rest => if decide (c = c') then Some rest else None
  | EmptyString => None
  end.

(** The code unit of a character. *)
Definition code (c : ascii) : Z := Z.of_nat (nat_of_ascii c).

(** White space and line terminators, as [parseInt] skips them. *)
Definition isWhiteSpace (c : ascii) : bool :=
  let n := code c in
  (n =? 9) || (n =? 10) || (n =? 11) || (n =? 12) || (n =? 13) || (n =? 32)
  || (n =? 160).

Fixpoint trimStart (s : string) : string :=
  match s with
  | String c rest => if isWhiteSpace c then trimStart rest else s
  | EmptyString => s
  end.

(** The value of [c] as a digit of the radix [radix]. *)
Definition digitIn (radix : Z) (c : ascii) : option Z :=
  let n := code c in
  let value :=
    if (48 <=? n) && (n <=? 57) then Some (n - 48)
    else if (97 <=? n) && (n <=? 122) then Some (n - 87)
    else if (65 <=? n) && (n <=? 90) then Some (n - 55)
    else None in
  match value with
  | Some d => if d <? radix then Some d else None
  | None => None
  end.

(** The number written by the longest run of digits at the front of [s];
    [None] when there is no digit. *)
Fixpoint digitRun (radix acc : Z) (seen : bool) (s : string) : option Z :=
  match s with
  | String c rest =>
      match digitIn radix c with
      | Some d => digitRun radix (radix * acc + d) true rest
      | None => if seen then Some acc else None
      end
  | EmptyString => if seen then Some acc else None
  end.

(** [parseInt(s)] without a radix: leading white space, a sign, ["0x"] or
    ["0X"] for base 16, then the digits up to the first other character;
    [None] is [NaN].  The result is the integer written; beyond 2^53 the
    engine rounds it. *)
Definition parseInt (s : string) : option Z :=
  let s := trimStart s in
  let '(sign, s) :=
    match s with
    | String "-" t => (-1, t)
    | String "+" t => (1, t)
    | _ => (1, s)
    end in
  let '(radix, s) :=
    match s with
    | String "0" (String "x" t) => (16, t)
    | String "0" (String "X" t) => (16, t)
    | _ => (10, s)
    end in
  (λ n, sign * n) <$> digitRun radix 0 false s.

(** A string is truthy in a condition when it is not empty. *)
Definition truthy (s : string) : bool :=
  match s with EmptyString => false | String _ _ => true end.

(** No [":"] occurs in the string. *)
Fixpoint colon_free (s : string) : bool :=
  match s with
  | EmptyString => true
  | String c rest => if decide (c = ":"%char) then false else colon_free rest
  end.

End JSString.

(** ** Dates: the part of the ECMAScript [Date] object the service uses

    A time value is a number of milliseconds since the epoch in UTC; [None]
    is the invalid date ([NaN]).  The host's local time zone is a fixed
    offset [tz] in minutes east of UTC. *)

Module JSDate.

Import JSString.

Abbreviation Date := (option Z).

Definition msPerDay : Z := 86400000.

(** Day number of the civil date [y]-[m]-[d], [m] in 1..12. *)
Definition days_from_civil (y m d : Z) : Z :=
  let y' := if m <=? 2 then y - 1 else y in
  let era := y' / 400 in
  let yoe := y' - era * 400 in
  let mp := if m >? 2 then m - 3 else m + 9 in
  let doy := (153 * mp + 2) / 5 + d - 1 in
  let doe := yoe * 365 + yoe / 4 - yoe / 100 + doy in
  era * 146097 + doe - 719468.

(** Civil date (year, month 1..12, day) of a day number. *)
Definition civil_from_days (z : Z) : Z * Z * Z :=
  let z' := z + 719468 in
  let era := z' / 146097 in
  let doe := z' - era * 146097 in
  let yoe := (doe - doe / 1460 + doe / 36524 - doe / 146096) / 365 in
  let doy := doe - (365 * yoe + yoe / 4 - yoe / 100) in
  let mp := (5 * doy + 2) / 153 in
  let d := doy - (153 * mp + 2) / 5 + 1 in
  let m := if mp <? 10 then mp + 3 else mp - 9 in
  (yoe + era * 400 + (if m <=? 2 then 1 else 0), m, d).

(** [MakeDay(year, month, date)], the month counted from 0 and carried
    into the year, the date counted from 1 and allowed to run over. *)
Definition MakeDay (year month date : Z) : Z :=
  days_from_civil (year + month / 12) (month mod 12 + 1) 1 + date - 1.

Definition MakeTime (h mi s ms : Z) : Z :=
  h * 3600000 + mi * 60000 + s * 1000 + ms.

Section Zone.
Variable tz : Z.

Definition LocalTZA : Z := tz * 60000.

(** [new Date(year, month, date, hours, minutes, seconds)]: the fields
    are read in local time; a year in 0..99 means 1900 + year. *)
Definition ofLocalFields (year month : option Z) (date h mi s : Z) : Date :=
  match year, month with
  | Some y, Some m =>
      let y' := if (0 <=? y) && (y <=? 99) then 1900 + y else y in
      Some (MakeDay y' m date * msPerDay + MakeTime h mi s 0 - LocalTZA)
  | _, _ => None
  end.

(** [d.getFullYear()] and [d.getMonth()] (0..11), both in local time. *)
Definition getFullYear (d : Date) : option Z :=
  t ← d; Some (civil_from_days ((t + LocalTZA) / msPerDay)).1.1.

Definition getMonth (d : Date) : option Z :=
  t ← d; Some ((civil_from_days ((t + LocalTZA) / msPerDay)).1.2 - 1).

(** The year of a date-time string, in four digits. *)
Definition parseYear (s : string) : option (Z * string) := digits 4 0 s.

(** The time of day after the ["T"]: [HH:mm:ss], an optional [.sss], and
    an optional ["Z"]; the boolean tells whether the ["Z"] was there. *)
Definition parseTime (s : string) : option (Z * bool) :=
  '(h, s) ← digits 2 0 s;
  s ← expect ":" s;
  '(mi, s) ← digits 2 0 s;
  s ← expect ":" s;
  '(sec, s) ← digits 2 0 s;
  '(ms, s) ← match s with
             | String "." t => digits 3 0 t
             | _ => Some (0, s)
             end;
  if (h <=? 23) && (mi <=? 59) && (sec <=? 59) then
    match s with
    | "" => Some (MakeTime h mi sec ms, false)
    | "Z" => Some (MakeTime h mi sec ms, true)
    | _ => None
    end
  else None.

(** The strings of the date-time string format in the shapes the service
    builds and the platform sends: [YYYY-MM-DD], which is UTC, and
    [YYYY-MM-DDTHH:mm:ss] with an optional [.sss], which is UTC when a
    ["Z"] follows and local time otherwise.  A day up to 31 is carried
    into the next month.  [None] for every other string. *)
Definition readISO (s : string) : option Z :=
  '(y, s) ← parseYear s;
  s ← expect "-" s;
  '(m, s) ← digits 2 0 s;
  s ← expect "-" s;
  '(d, s) ← digits 2 0 s;
  if (1 <=? m) && (m <=? 12) && (1 <=? d) && (d <=? 31) then
    let day := days_from_civil y m d * msPerDay in
    match s with
    | "" => Some day
    | String "T" t =>
        '(tod, utc) ← parseTime t;
        Some (if utc : bool then day + tod else day + tod - LocalTZA)
    | _ => None
    end
  else None.

(** [new Date(s)].  The strings [readISO] does not read, which are the
    other forms of the format (years with a sign, offsets, hour 24,
    fractions of other lengths, a month or a day out of range) and the
    strings outside it, for which the engine falls back to heuristics of
    its own, are read as [engine] reads them. *)
Variable engine : string → Date.

Definition parse (s : string) : Date :=
  match readISO s with
  | Some t => Some t
  | None => engine s
  end.

End Zone.

(** An engine that reads no string but those of [readISO]. *)
Definition strict : string → Date := λ _, None.

(** Decimal digits of [n], padded with zeros to [len] characters. *)
Definition pad (len : nat) (n : Z) : string :=
  padStart len "0" (pretty n).

(** [d.toISOString()]; [None] is the [RangeError] thrown for the invalid
    date. *)
Definition toISOString (d : Date) : option string :=
  t ← d;
  let day := t / msPerDay in
  let tod := t mod msPerDay in
  let '(y, m, dd) := civil_from_days day in
  let year :=
    if (0 <=? y) && (y <=? 9999) then pad 4 y
    else if y <? 0 then "-" +:+ pad 6 (- y) else "+" +:+ pad 6 y in
  Some (year +:+ "-" +:+ pad 2 m +:+ "-" +:+ pad 2 dd +:+ "T"
        +:+ pad 2 (tod / 3600000) +:+ ":" +:+ pad 2 (tod / 60000 mod 60)
        +:+ ":" +:+ pad 2 (tod / 1000 mod 60) +:+ "." +:+ pad 3 (tod mod 1000)
        +:+ "Z").

(** [a < b] and [a > b] on dates compare the time values; a comparison
    with the invalid date is false. *)
Definition lt (a b : Date) : bool :=
  match a, b with Some x, Some y => x <? y | _, _ => false end.

Definition gt (a b : Date) : bool := lt b a.

End JSDate.

(** ** Data model *)

Module Author.
Record t := { login : string; user_id : Z }.
End Author.

Module GitHubCommit.
Record t := {
  sha : string;
  commit_author_name : string;
  commit_author_email : string;
  commit_author_date : string;
  author : option Author.t (* [null] when no account is associated *)
}.
End GitHubCommit.

Module Repository.
Record t := {
  name : string;
  full_name : string;
  created_at : string;
  default_branch : string
}.
End Repository.

Module ContributorData.
Record t := {
  org : string;
  repository : string;
  year : string;
  month : option string; (* present only when a month was asked for *)
  newContributors : nat
}.
End ContributorData.

(** An error object as the service inspects it: [error.response?.status],
    the two rate-limit headers of [error.response], [error.code] and
    [error.message]. *)
Module JSError.
Record t := {
  status : option Z;
  ratelimit_remaining : option string;
  ratelimit_reset : option string;
  code : option string;
  message : string
}.

(** [new Error(msg)] *)
Definition Error (msg : string) : t :=
  {| status := None; ratelimit_remaining := None; ratelimit_reset := None;
     code := None; message := msg |}.

(** [RangeError] of [toISOString] on the invalid date *)
Definition invalidTime : t := Error "Invalid time value".

(** What the HTTP client raises when no answer arrives within its
    [timeout: 30000]. *)
Definition timeout : t :=
  {| status := None; ratelimit_remaining := None; ratelimit_reset := None;
     code := Some "ECONNABORTED"; message := "timeout of 30000ms exceeded" |}.
End JSError.

(** ** The world the service runs in *)

(** A request as it leaves the HTTP client. *)
Inductive Request :=
| GetRepository (org repo : string)
| GetCommits (org repo : string) (since until : option string) (page per_page : Z).

(** What the platform sends back: data with the [x-ratelimit-remaining]
    header, or a failure. *)
Inductive Reply (A : Type) :=
| Ok (data : A) (remaining : option string)
| Fail (e : JSError.t).
Arguments Ok {A} data remaining.
Arguments Fail {A} e.

(** The platform's answer to one dispatched request, whichever it is. *)
Record Responder := {
  on_repository : string → string → Reply Repository.t;
  on_commits : string → string → option string → option string → Z → Z
               → Reply (list GitHubCommit.t)
}.

Inductive CacheValue :=
| VRepository (r : Repository.t)
| VCommits (cs : list GitHubCommit.t)
| VContributors (d : ContributorData.t).

(** A cache entry with the time [t] (ms) after which it is expired; [t = 0]
    never expires. *)
Record Entry := { v : CacheValue; t : Z }.

Inductive ConsoleLine :=
| WarnRateLimitLow (remaining : string)
| LogRateLimitExceeded (seconds : Z)
| LogRetrying (status : option Z) (code : option string)
| LogSelfImposedLimit (seconds : Z)
| WarnMaxPageLimit (org repo : string).

(** The state of the process and of what surrounds it: the clock
    ([Date.now()]), the cache, the two counters of the rate governor, the
    answers the platform will give to the requests still to be dispatched
    (one per request, in order; when none is left a request times out), the
    requests dispatched so far and the console. *)
Record World := {
  now : Z;
  cache : gmap string Entry;
  requestCount : Z;
  lastResetTime : Z;
  upstream : list Responder;
  calls : list Request;
  console : list ConsoleLine
}.

Definition set_now (x : Z) (w : World) : World :=
  {| now := x; cache := cache w; requestCount := requestCount w;
     lastResetTime := lastResetTime w; upstream := upstream w;
     calls := calls w; console := console w |}.

Definition set_cache (x : gmap string Entry) (w : World) : World :=
  {| now := now w; cache := x; requestCount := requestCount w;
     lastResetTime := lastResetTime w; upstream := upstream w;
     calls := calls w; console := console w |}.

Definition set_requestCount (x : Z) (w : World) : World :=
  {| now := now w; cache := cache w; requestCount := x;
     lastResetTime := lastResetTime w; upstream := upstream w;
     calls := calls w; console := console w |}.

Definition set_lastResetTime (x : Z) (w : World) : World :=
  {| now := now w; cache := cache w; requestCount := requestCount w;
     lastResetTime := x; upstream := upstream w;
     calls := calls w; console := console w |}.

(** One request leaves: it is recorded and the answers left are [rest]. *)
Definition dispatched (req : Request) (rest : list Responder) (w : World) : World :=
  {| now := now w; cache := cache w; requestCount := requestCount w;
     lastResetTime := lastResetTime w; upstream := rest;
     calls := calls w ++ [req]; console := console w |}.

Definition print (l : ConsoleLine) (w : World) : World :=
  {| now := now w; cache := cache w; requestCount := requestCount w;
     lastResetTime := lastResetTime w; upstream := upstream w;
     calls := calls w; console := console w ++ [l] |}.

(** ** Computations: state passing with exceptions *)

Inductive Res (A : Type) :=
| Val (a : A)
| Exc (e : JSError.t).
Arguments Val {A} a.
Arguments Exc {A} e.

Definition M (A : Type) : Type := World → Res A * World.

Definition ret {A} (a : A) : M A := λ w, (Val a, w).

Definition throw {A} (e : JSError.t) : M A := λ w, (Exc e, w).

Definition bind {A B} (m : M A) (k : A → M B) : M B :=
  λ w, match m w with
       | (Val a, w') => k a w'
       | (Exc e, w') => (Exc e, w')
       end.

(** [try { m } catch (error) { h error }] *)
Definition try_catch {A} (m : M A) (h : JSError.t → M A) : M A :=
  λ w, match m w with
       | (Val a, w') => (Val a, w')
       | (Exc e, w') => h e w'
       end.

(** A statement that only changes the state. *)
Definition exec (f : World → World) : M unit := λ w, (Val tt, f w).

(** Reads a part of the state. *)
Definition gets {A} (f : World → A) : M A := λ w, (Val (f w), w).

Global Instance M_ret : MRet M := @ret.
Global Instance M_bind : MBind M := λ A B k m, bind m k.

(** [Math.ceil(ms / 1000)] on integers *)
Definition ceil_seconds (ms : Z) : Z := - ((- ms) / 1000).

(** [await this.sleep(ms)]: the timer fires after [ms] milliseconds; a
    delay below 1 or above 2^31 - 1 is taken as 1 by the timer. *)
Definition sleep (ms : Z) : M unit :=
  exec (λ w, set_now (now w + (if (1 <=? ms) && (ms <=? 2147483647) then ms else 1)) w).

(** ** The cache ([node-cache], configured with [stdTTL] seconds)

    The hit and miss counters of the cache are left out. *)

Section Cache.
Variable stdTTL : Z.

(** [cache.get(key)]: an entry whose time is over is a miss and is deleted. *)
Definition cache_get (key : string) : M (option CacheValue) := λ w,
  match cache w !! key with
  | Some e =>
      if negb (t e =? 0) && (t e <? now w)
      then (Val None, set_cache (delete key (cache w)) w)
      else (Val (Some (v e)), w)
  | None => (Val None, w)
  end.

(** [cache.set(key, value, ttl)]; without [ttl] the configured [stdTTL]
    is used, and a time to live of 0 means no expiry. *)
Definition cache_set (key : string) (value : CacheValue) (ttl : option Z) : M unit :=
  exec (λ w,
    let ttl := default stdTTL ttl in
    let livetime := if ttl =? 0 then 0 else now w + ttl * 1000 in
    set_cache (<[key := {| v := value; t := livetime |}]> (cache w)) w).
End Cache.

(** ** The service *)

(** What the process reads from its environment, [GITHUB_REQUESTS_PER_HOUR]
    (5000 when unset) and [CACHE_TTL] in seconds (86400 when unset), and
    what it has from its host: the local time zone, in minutes east of
    UTC, and the engine's reading of the date strings that
    [JSDate.readISO] does not read. *)
Record Config := {
  RATE_LIMIT_PER_HOUR : Z;
  CACHE_TTL : Z;
  timeZone : Z;
  otherDates : string → JSDate.Date
}.

Definition defaultConfig : Config :=
  {| RATE_LIMIT_PER_HOUR := 5000; CACHE_TTL := 86400; timeZone := 0;
     otherDates := JSDate.strict |}.

(** [process.env.NAME || fallback] *)
Definition envOr (value : option string) (fallback : string) : string :=
  match value with
  | Some x => if JSString.truthy x then x else fallback
  | None => fallback
  end.

(** The configuration of a process started with the environment [env] in
    the time zone [tz] on an engine that reads other dates as [dates]:
    [parseInt(process.env.GITHUB_REQUESTS_PER_HOUR ||
    "5000")] and [parseInt(process.env.CACHE_TTL || "86400")].  [None] when
    one of them is not a number: the service would then run with [NaN],
    which is left out here. *)
Definition fromEnv (env : string → option string) (tz : Z)
    (dates : string → JSDate.Date) : option Config :=
  limit ← JSString.parseInt (envOr (env "GITHUB_REQUESTS_PER_HOUR") "5000");
  ttl ← JSString.parseInt (envOr (env "CACHE_TTL") "86400");
  Some {| RATE_LIMIT_PER_HOUR := limit; CACHE_TTL := ttl; timeZone := tz;
          otherDates := dates |}.

(** Cache keys, as the three template strings build them.  An absent
    [since] or [until] is printed as ["undefined"], an absent or empty
    [month] as ["all"]. *)
Definition printed (s : option string) : string := default "undefined" s.

Definition repoKey (org repo : string) : string :=
  "repo:" +:+ org +:+ ":" +:+ repo.

Definition commitsKey (org repo : string) (since until : option string) (page : Z) : string :=
  "commits:" +:+ org +:+ ":" +:+ repo +:+ ":" +:+ printed since +:+ ":"
  +:+ printed until +:+ ":" +:+ pretty page.

(** [month || "all"] *)
Definition monthOrAll (month : option string) : string :=
  match month with
  | Some m => if JSString.truthy m then m else "all"
  | None => "all"
  end.

Definition contributorsKey (org repo year : string) (month : option string) : string :=
  "contributors:" +:+ org +:+ ":" +:+ repo +:+ ":" +:+ year +:+ ":"
  +:+ monthOrAll month.

(** [if (s) params.s = s]: an empty string is not sent. *)
Definition param (s : option string) : option string :=
  match s with
  | Some x => if JSString.truthy x then Some x else None
  | None => None
  end.

Section Service.
Variable cfg : Config.

Abbreviation cache_set := (cache_set (CACHE_TTL cfg)).

(** *** Rate governor *)

Definition checkRateLimit : M unit := λ w,
  let now_ := now w in
  let timeSinceReset := now_ - lastResetTime w in
  (* Reset counter every hour *)
  let w :=
    if 3600000 <=? timeSinceReset
    then set_lastResetTime now_ (set_requestCount 0 w)
    else w in
  if RATE_LIMIT_PER_HOUR cfg <=? requestCount w then
    let waitTime := 3600000 - timeSinceReset in
    (exec (print (LogSelfImposedLimit (ceil_seconds waitTime)));;
     sleep waitTime;;
     exec (set_requestCount 0);;
     exec (λ w, set_lastResetTime (now w) w)) w
  else (Val tt, w).

(** The request interceptor: every request that leaves passes here. *)
Definition requestInterceptor : M unit :=
  checkRateLimit;;
  exec (λ w, set_requestCount (requestCount w + 1) w).

(** *** Transport: the HTTP client with its two interceptors *)

(** The response interceptor on success: a warning when fewer than 100
    requests remain. *)
Definition responseInterceptor (remaining : option string) : M unit :=
  match remaining with
  | Some r =>
      if JSString.truthy r
         && match JSString.parseInt r with Some n => n <? 100 | None => false end
      then exec (print (WarnRateLimitLow r))
      else ret tt
  | None => ret tt
  end.

(** What the response interceptor does with a failure: wait and send
    again, or throw. *)
Inductive Recovery := WaitAndResend (ms : Z) (l : ConsoleLine) | Rethrow.

Definition onRejected (error : JSError.t) (now_ : Z) : Recovery :=
  let transient :=
    if match JSError.status error with Some s => 500 <=? s | None => false end
       || bool_decide (JSError.code error = Some "ECONNRESET")
    then WaitAndResend 1000 (LogRetrying (JSError.status error) (JSError.code error))
    else Rethrow in
  if bool_decide (JSError.status error = Some 403)
     && bool_decide (JSError.ratelimit_remaining error = Some "0")
  then
    match JSString.parseInt (default "undefined" (JSError.ratelimit_reset error)) with
    | Some reset =>
        let waitTime := reset * 1000 - now_ in
        if 0 <? waitTime
        then WaitAndResend waitTime (LogRateLimitExceeded (ceil_seconds waitTime))
        else transient
    | None => transient
    end
  else transient.

(** [this.client.request(config)]: the request passes the request
    interceptor, leaves, and its answer passes the response interceptor,
    which may send it again.  [script] is the list of answers left; a
    request that is sent again takes the next one, so that a platform that
    fails without end, against which the interceptor would retry without
    end, is not among these worlds. *)
Fixpoint request {A} (ask : Responder → Reply A) (req : Request)
    (script : list Responder) (w : World) : Res A * World :=
  match requestInterceptor w with
  | (Exc e, w) => (Exc e, w)
  | (Val _, w) =>
      match script with
      | [] =>
          (Exc JSError.timeout, set_now (now w + 30000) (dispatched req [] w))
      | r :: rest =>
          let w := dispatched req rest w in
          match ask r with
          | Ok data remaining =>
              (responseInterceptor remaining;; ret data) w
          | Fail error =>
              match onRejected error (now w) with
              | WaitAndResend ms l =>
                  match (exec (print l);; sleep ms) w with
                  | (_, w) => request ask req rest w
                  end
              | Rethrow => (Exc error, w)
              end
          end
      end
  end.

(** [this.client.get(url, { params })] *)
Definition client_get {A} (ask : Responder → Reply A) (req : Request) : M A :=
  λ w, request ask req (upstream w) w.

(** *** Repository lookup

    The keys of the three kinds of entries never coincide, so the value
    found under a key is of the kind the reader expects; a value of
    another kind, which the service never stores there, is read as a
    miss. *)

(** The [try] and [catch] of [getRepository], run on a cache miss. *)
Definition fetchRepository (org repo : string) : M Repository.t :=
  try_catch
    (repository ← client_get (λ r, on_repository r org repo)
                             (GetRepository org repo);
     cache_set (repoKey org repo) (VRepository repository) None;;
     ret repository)
    (λ error,
       if bool_decide (JSError.status error = Some 404)
       then throw (JSError.Error
                     ("Repository " +:+ org +:+ "/" +:+ repo +:+ " not found"))
       else throw (JSError.Error
                     ("Failed to fetch repository: " +:+ JSError.message error))).

Definition getRepository (org repo : string) : M Repository.t :=
  cached ← cache_get (repoKey org repo);
  match cached with
  | Some (VRepository r) => ret r
  | _ => fetchRepository org repo
  end.

(** *** One page of commits *)

(** [since && new Date(since) > new Date(Date.now() - 86400000) ? 300 : 3600] *)
Definition cacheTime (since : option string) (now_ : Z) : Z :=
  match param since with
  | Some s =>
      if JSDate.gt (JSDate.parse (timeZone cfg) (otherDates cfg) s) (Some (now_ - 86400000))
      then 300 else 3600
  | None => 3600
  end.

(** The [try] and [catch] of [getCommits], run on a cache miss. *)
Definition fetchCommits (org repo : string) (since until : option string)
    (page : Z) : M (list GitHubCommit.t) :=
  try_catch
    (commits ← client_get
                 (λ r, on_commits r org repo (param since) (param until) page 100)
                 (GetCommits org repo (param since) (param until) page 100);
     now_ ← gets now;
     cache_set (commitsKey org repo since until page) (VCommits commits)
       (Some (cacheTime since now_));;
     ret commits)
    (λ error,
       if bool_decide (JSError.status error = Some 404)
       then throw (JSError.Error
                     ("Repository " +:+ org +:+ "/" +:+ repo +:+ " not found"))
       else if bool_decide (JSError.status error = Some 409)
       then ret [] (* Empty repository *)
       else throw (JSError.Error
                     ("Failed to fetch commits: " +:+ JSError.message error))).

Definition getCommits (org repo : string) (since until : option string)
    (page : Z) : M (list GitHubCommit.t) :=
  cached ← cache_get (commitsKey org repo since until page);
  match cached with
  | Some (VCommits cs) => ret cs
  | _ => fetchCommits org repo since until page
  end.

(** *** All pages of a window *)

(** The [while (hasMore)] loop, entered with [hasMore = true].  An empty
    page clears [hasMore] and leaves [page] as it is; any other page is
    appended, [page] is incremented, and [hasMore] is cleared when the
    page is short of 100.  The test [page > 1000] closes every round.  The
    loop ends because [page] grows at every round that goes on and a
    round that leaves it above 1000 breaks out. *)
Equations? pages (org repo since until : string) (page : Z)
    (allCommits : list GitHubCommit.t) (w : World)
    : Res (list GitHubCommit.t) * World
    by wf (Z.to_nat (1001 - page)) lt :=
  pages org repo since until page allCommits w
    with getCommits org repo (Some since) (Some until) page w := {
    | (Exc e, w1) => (Exc e, w1)
    | (Val commits, w1) with decide (length commits = 0%nat) := {
        | left _ =>
            if decide (page > 1000)
            then (Val allCommits, print (WarnMaxPageLimit org repo) w1)
            else (Val allCommits, w1)
        | right _ with decide (page + 1 > 1000) := {
            | left _ =>
                (Val (allCommits ++ commits),
                 print (WarnMaxPageLimit org repo) w1)
            | right _ =>
                if decide (length commits < 100)%nat
                then (Val (allCommits ++ commits), w1)
                else pages org repo since until (page + 1)
                       (allCommits ++ commits) w1 } } }.
Proof. lia. Qed.

Definition getAllCommitsPaginated (org repo since until : string)
    : M (list GitHubCommit.t) :=
  pages org repo since until 1 [].

(** *** New contributors of a period *)

(** The period asked for: a month when [month] is given (and not empty),
    the year otherwise. *)
Definition period (year : string) (month : option string) : JSDate.Date * JSDate.Date :=
  match param month with
  | Some month =>
      let startDate :=
        JSDate.parse (timeZone cfg) (otherDates cfg)
          (year +:+ "-" +:+ JSString.padStart 2 "0" month +:+ "-01") in
      let endDate :=
        JSDate.ofLocalFields (timeZone cfg)
          (JSDate.getFullYear (timeZone cfg) startDate)
          ((λ m, m + 1) <$> JSDate.getMonth (timeZone cfg) startDate)
          0 23 59 59 in
      (startDate, endDate)
  | None =>
      (* Entire year *)
      (JSDate.parse (timeZone cfg) (otherDates cfg) (year +:+ "-01-01"),
       JSDate.parse (timeZone cfg) (otherDates cfg) (year +:+ "-12-31T23:59:59"))
  end.

(** Don't fetch data before repository was created *)
Definition clampStart (startDate repoCreatedAt : JSDate.Date) : JSDate.Date :=
  if JSDate.lt startDate repoCreatedAt then repoCreatedAt else startDate.

(** [commit.author?.login] *)
Definition authorLogin (commit : GitHubCommit.t) : option string :=
  Author.login <$> GitHubCommit.author commit.

(** The body of the first [forEach]: a commit with a login adds it to the
    contributors seen before the period. *)
Definition addExisting (existingContributors : gset string)
    (commit : GitHubCommit.t) : gset string :=
  match authorLogin commit with
  | Some login =>
      if JSString.truthy login then existingContributors ∪ {[ login ]}
      else existingContributors
  | None => existingContributors
  end.

(** The body of the second [forEach], on the pair of
    [existingContributors] and [newContributorsInPeriod]. *)
Definition addNew (sets : gset string * gset string)
    (commit : GitHubCommit.t) : gset string * gset string :=
  let '(existingContributors, newContributorsInPeriod) := sets in
  match authorLogin commit with
  | Some login =>
      if JSString.truthy login && negb (bool_decide (login ∈ existingContributors))
      then (existingContributors ∪ {[ login ]}, newContributorsInPeriod ∪ {[ login ]})
      else sets
  | None => sets
  end.

(** [d.toISOString()], which throws on the invalid date. *)
Definition toISOString (d : JSDate.Date) : M string :=
  match JSDate.toISOString d with
  | Some s => ret s
  | None => throw JSError.invalidTime
  end.

(** First, get all contributors before the target period: the block
    guarded by [if (startDate > repoCreatedAt)]. *)
Definition contributorsBefore (org repo : string)
    (repoCreatedAt startDate : JSDate.Date) : M (gset string) :=
  if JSDate.gt startDate repoCreatedAt then
    since ← toISOString repoCreatedAt;
    until ← toISOString startDate;
    beforePeriodCommits ← getAllCommitsPaginated org repo since until;
    ret (foldl addExisting ∅ beforePeriodCommits)
  else ret ∅.

(** Then get commits in the target period, find the new contributors in
    it, and cache the result. *)
Definition countNew (org repo year : string) (month : option string)
    (startDate endDate : JSDate.Date) (existingContributors : gset string)
    : M ContributorData.t :=
  since ← toISOString startDate;
  until ← toISOString endDate;
  periodCommits ← getAllCommitsPaginated org repo since until;
  let '(_, newContributorsInPeriod) :=
    foldl addNew (existingContributors, ∅) periodCommits in
  let result :=
    {| ContributorData.org := org;
       ContributorData.repository := repo;
       ContributorData.year := year;
       ContributorData.month := param month;
       ContributorData.newContributors := size newContributorsInPeriod |} in
  cache_set (contributorsKey org repo year month) (VContributors result) None;;
  ret result.

(** The [try] block of [getNewContributorsByMonth]. *)
Definition analyze (org repo year : string) (month : option string)
    : M ContributorData.t :=
  repository ← getRepository org repo;
  let repoCreatedAt := JSDate.parse (timeZone cfg) (otherDates cfg) (Repository.created_at repository) in
  let '(startDate, endDate) := period year month in
  let startDate := clampStart startDate repoCreatedAt in
  existingContributors ← contributorsBefore org repo repoCreatedAt startDate;
  countNew org repo year month startDate endDate existingContributors.

Definition getNewContributorsByMonth (org repo year : string)
    (month : option string) : M ContributorData.t :=
  let cacheKey := contributorsKey org repo year month in
  cached ← cache_get cacheKey;
  match cached with
  | Some (VContributors d) => ret d
  | _ =>
      try_catch (analyze org repo year month)
        (λ error,
           throw (JSError.Error
                    ("Failed to analyze contributors: " +:+ JSError.message error)))
  end.

End Service.

(** ** The routes and their middleware

    [src/middleware/validation.ts], [src/middleware/errorHandler.ts],
    [src/routes/contributors.ts] and the health check of [src/index.ts]. *)

Module JSText.

(** [s.includes(sub)] *)
Fixpoint includes (sub s : string) : bool :=
  String.prefix sub s
  || match s with
     | String _ rest => includes sub rest
     | EmptyString => false
     end.

(** The class [[a-zA-Z0-9._-]]. *)
Definition isNameChar (c : ascii) : bool :=
  let n := JSString.code c in
  ((97 <=? n) && (n <=? 122)) || ((65 <=? n) && (n <=? 90))
  || ((48 <=? n) && (n <=? 57)) || (n =? 46) || (n =? 95) || (n =? 45).

Fixpoint allNameChars (s : string) : bool :=
  match s with
  | String c rest => isNameChar c && allNameChars rest
  | EmptyString => true
  end.

(** [/^[a-zA-Z0-9._-]+$/.test(s)] *)
Definition githubNamePattern (s : string) : bool :=
  JSString.truthy s && allNameChars s.

End JSText.

(** [req.params]: [month] is absent on the route of a year. *)
Module Params.
Record t := {
  org : string;
  repo : string;
  year : string;
  month : option string
}.
End Params.

(** The JSON bodies the routes send. *)
Inductive Json :=
| Refusal (error message : string)
| Contributors (d : ContributorData.t)
| Failure (error message timestamp path : string) (stack : option string).

(** [res.status(status).json(body)] *)
Record Response := { status : Z; body : Json }.

(** What the routes and the error handler write on the console. *)
Inductive ServerLine :=
| LogFetchingYearly (org repo year : string)
| LogFetchingMonthly (org repo year month : string)
| ErrorOccurred (message stack url method timestamp : string).

(** An error as the error handler reads it. *)
Module AppError.
Record t := {
  message : string;
  stack : string;
  statusCode : option Z
}.
End AppError.

Section Validation.
Variable tz : Z.

(** [new Date().getFullYear()] at the time [now_] *)
Definition currentYear (now_ : Z) : Z :=
  (JSDate.civil_from_days ((now_ + JSDate.LocalTZA tz) / JSDate.msPerDay)).1.1.

Definition refuse (error message : string) : option Response :=
  Some {| status := 400; body := Refusal error message |}.

(** The last two tests of [validateParams], against GitHub naming
    conventions. *)
Definition validateNames (org repo : string) : option Response :=
  if negb (JSText.githubNamePattern org)
  then refuse "Invalid organization name format"
         "Organization name can only contain letters, numbers, hyphens, underscores, and dots"
  else if negb (JSText.githubNamePattern repo)
  then refuse "Invalid repository name format"
         "Repository name can only contain letters, numbers, hyphens, underscores, and dots"
  else None.

(** [validateParams]: [Some] is the response sent, [None] is [next()]. *)
Definition validateParams (now_ : Z) (params : Params.t) : option Response :=
  let org := Params.org params in
  let repo := Params.repo params in
  (* Validate organization name *)
  if negb (JSString.truthy org) || (String.length org <? 1)%nat
     || (39 <? String.length org)%nat
  then refuse "Invalid organization name"
         "Organization name must be between 1 and 39 characters"
  (* Validate repository name *)
  else if negb (JSString.truthy repo) || (String.length repo <? 1)%nat
          || (100 <? String.length repo)%nat
  then refuse "Invalid repository name"
         "Repository name must be between 1 and 100 characters"
  else
    (* Validate year *)
    let yearNum := JSString.parseInt (Params.year params) in
    let invalidYear :=
      refuse "Invalid year"
        ("Year must be a valid number between 2008 and " +:+ pretty (currentYear now_)) in
    match yearNum with
    | None => invalidYear
    | Some yearNum =>
        if (yearNum <? 2008) || (currentYear now_ <? yearNum) then invalidYear
        else
          (* Validate month if provided *)
          match param (Params.month params) with
          | Some month =>
              match JSString.parseInt month with
              | None =>
                  refuse "Invalid month" "Month must be a valid number between 1 and 12"
              | Some monthNum =>
                  if (monthNum <? 1) || (12 <? monthNum)
                  then refuse "Invalid month"
                         "Month must be a valid number between 1 and 12"
                  else
                    (* Check if the date is not in the future *)
                    let targetDate :=
                      JSDate.ofLocalFields tz (Some yearNum) (Some (monthNum - 1))
                        1 0 0 0 in
                    if JSDate.gt targetDate (Some now_)
                    then refuse "Invalid date" "Cannot fetch data for future dates"
                    else validateNames org repo
              end
          | None => validateNames org repo
          end
    end.

End Validation.

(** [new Date().toISOString()] at the time [now_]; the clock never shows
    the invalid date. *)
Definition timestamp (now_ : Z) : string :=
  default "" (JSDate.toISOString (Some now_)).

(** [errorHandler]: the line written on the console and the response.  Both
    timestamps are taken at [now_]. *)
Definition errorHandler (env : string → option string) (now_ : Z)
    (error : AppError.t) (url method : string) : ServerLine * Response :=
  let line :=
    ErrorOccurred (AppError.message error) (AppError.stack error) url method
      (timestamp now_) in
  let '(statusCode, message) :=
    if JSText.includes "not found" (AppError.message error)
    then (404, AppError.message error)
    else if JSText.includes "Rate limit" (AppError.message error)
    then (429, "GitHub API rate limit exceeded. Please try again later.")
    else if JSText.includes "timeout" (AppError.message error)
    then (504, "GitHub API request timeout. Please try again later.")
    else if JSText.includes "Failed to fetch" (AppError.message error)
    then (502, "Unable to fetch data from GitHub API. Please try again later.")
    else match AppError.statusCode error with
         | Some code => if code =? 0 then (500, "Internal server error")
                        else (code, AppError.message error)
         | None => (500, "Internal server error")
         end in
  (line,
   {| status := statusCode;
      body :=
        Failure (if 500 <=? statusCode then "Internal Server Error" else "Bad Request")
          message (timestamp now_) url
          (if bool_decide (env "NODE_ENV" = Some "development")
           then Some (AppError.stack error) else None) |}).

(** A segment of the path as the router reads it for a parameter: decoded
    by [decodeURIComponent], or not a valid encoding. *)
Inductive Segment :=
| Decoded (value : string)
| Undecodable (raw : string).

Definition value (segment : Segment) : string :=
  match segment with
  | Decoded value => value
  | Undecodable raw => raw
  end.


Section Routes.
Variable cfg : Config.
Variable env : string → option string.
(** [error.stack], the trace the engine attaches to an error. *)
Variable stackOf : JSError.t → string.

(** The error a route hands to [next]: an [Error] thrown by the service,
    which carries no [statusCode]. *)
Definition thrown (e : JSError.t) : AppError.t :=
  {| AppError.message := JSError.message e;
     AppError.stack := stackOf e;
     AppError.statusCode := None |}.

(** One request to a route: [validateParams], then the handler; an error
    the handler passes to [next] reaches [errorHandler].  The result is the
    response with the lines written by the route and the error handler. *)
Definition route (line : ServerLine) (params : Params.t) (month : option string)
    (url method : string) : World → (Response * list ServerLine) * World :=
  λ w,
    match validateParams (timeZone cfg) (now w) params with
    | Some response => ((response, []), w)
    | None =>
        match getNewContributorsByMonth cfg (Params.org params) (Params.repo params)
                (Params.year params) month w with
        | (Val result, w') =>
            (({| status := 200; body := Contributors result |}, [line]), w')
        | (Exc error, w') =>
            let '(errorLine, response) :=
              errorHandler env (now w') (thrown error) url method in
            ((response, [line; errorLine]), w')
        end
    end.

(** [GET /:org/:repo/:year], its parameters decoded *)
Definition getYear (org repo year : string) : string → string → World
    → (Response * list ServerLine) * World :=
  route (LogFetchingYearly org repo year)
    {| Params.org := org; Params.repo := repo; Params.year := year;
       Params.month := None |}
    None.

(** [GET /:org/:repo/:year/:month], its parameters decoded *)
Definition getMonth (org repo year month : string) : string → string → World
    → (Response * list ServerLine) * World :=
  route (LogFetchingMonthly org repo year month)
    {| Params.org := org; Params.repo := repo; Params.year := year;
       Params.month := Some month |}
    (Some month).








End Routes.

(** [GET /health] *)
Module Health.
Record t := {
  status : string;
  timestamp : string;
  version : string;
  authentication : string;
  rateLimit : string;
  ttl : string;
  ttlHours : option Z (* [None] is [NaN] *)
}.
End Health.

(** [Math.round(n / 3600)] on an integer [n]: halves go up. *)
Definition roundHours (n : Z) : Z := (2 * n + 3600) / 7200.

Definition health (env : string → option string) (now_ : Z) : Health.t :=
  let token :=
    match env "GITHUB_TOKEN" with
    | Some x => JSString.truthy x
    | None => false
    end in
  {| Health.status := "healthy";
     Health.timestamp := timestamp now_;
     Health.version := "1.0.0";
     Health.authentication := if token then "configured" else "missing";
     Health.rateLimit := if token then "5000/hour" else "60/hour";
     Health.ttl := envOr (env "CACHE_TTL") "3600 (default)";
     Health.ttlHours := roundHours <$> JSString.parseInt (envOr (env "CACHE_TTL") "3600") |}.

(** ** Vocabulary of the properties *)

(** *** States of the rate governor *)

(** The state left by a reserve step that neither waits nor resets. *)
Definition counted (w : World) : World :=
  set_requestCount (requestCount w + 1) w.

(** The state left by a reserve step taken when the hour is over. *)
Definition restarted (w : World) : World :=
  set_requestCount 1 (set_lastResetTime (now w) w).

(** The state left by a reserve step that had to wait: the clock stands
    at the end of the window, where the new window starts. *)
Definition resumed (w : World) : World :=
  let boundary := lastResetTime w + 3600000 in
  set_requestCount 1
    (set_lastResetTime boundary
       (set_now boundary
          (print (LogSelfImposedLimit
                    (ceil_seconds (3600000 - (now w - lastResetTime w)))) w))).

(** [n] reserve steps in a row, with no time passing in between. *)
Fixpoint reserveTimes (cfg : Config) (n : nat) (w : World) : World :=
  match n with
  | O => w
  | S n => (requestInterceptor cfg (reserveTimes cfg n w)).2
  end.

(** *** Cache entries and requests *)

(** From [w] to [w'] the entry under [k] was left as it was or deleted. *)
Definition kept (k : string) (w w' : World) : Prop :=
  cache w' !! k = cache w !! k ∨ cache w' !! k = None.

(** The request [getCommits] sends for a page. *)
Definition pageRequest (org repo : string) (since until : option string)
    (page : Z) : Request :=
  GetCommits org repo (param since) (param until) page 100.

(** The error thrown by the [catch] of [getNewContributorsByMonth]. *)
Definition wrapped (cause : JSError.t) : JSError.t :=
  JSError.Error ("Failed to analyze contributors: " +:+ JSError.message cause).

(** *** Contributors and fetched windows *)

(** The identity a commit contributes: the login of its author, when the
    commit has an author and the login is not empty. *)
Definition contributor (commit : GitHubCommit.t) : option string :=
  match GitHubCommit.author commit with
  | Some a => if JSString.truthy (Author.login a) then Some (Author.login a) else None
  | None => None
  end.

(** The distinct identities contributed by a list of commits. *)
Definition contributors (commits : list GitHubCommit.t) : gset string :=
  list_to_set (omap contributor commits).

(** The commits of the window from [a] to [b] were fetched, taking the
    world from [w] to [w']. *)
Definition fetchedWindow (cfg : Config) (org repo : string) (a b : JSDate.Date)
    (w : World) (commits : list GitHubCommit.t) (w' : World) : Prop :=
  ∃ since until,
    JSDate.toISOString a = Some since ∧ JSDate.toISOString b = Some until
    ∧ getAllCommitsPaginated cfg org repo since until w = (Val commits, w').

(** The commits before the period: those of the window from the creation
    of the repository to the start, fetched when the start is later than
    the creation, and none otherwise. *)
Definition fetchedBefore (cfg : Config) (org repo : string) (repoCreatedAt startDate : JSDate.Date)
    (w : World) (commits : list GitHubCommit.t) (w' : World) : Prop :=
  if JSDate.gt startDate repoCreatedAt
  then fetchedWindow cfg org repo repoCreatedAt startDate w commits w'
  else commits = [] ∧ w' = w.

(** The next [n] answers of the platform are full pages of 100 commits for
    the pages [first], [first + 1], ... of the window. *)
Definition servesFull (org repo since until : string) (first : Z)
    (script : list Responder) (n : nat) : Prop :=
  (n ≤ length script)%nat
  ∧ ∀ (i : nat) r, (i < n)%nat → script !! i = Some r →
      ∃ commits remaining,
        on_commits r org repo (param (Some since)) (param (Some until))
          (first + Z.of_nat i) 100 = Ok commits remaining
        ∧ length commits = 100%nat.

(** *** Keys and periods *)

(** [f] holds of the [n] integers from [z] on. *)
Fixpoint holdsFrom (n : nat) (z : Z) (f : Z → bool) : bool :=
  match n with
  | O => true
  | S n => f z && holdsFrom n (z + 1) f
  end.

(** The civil date of the day [z] is the date whose day number is [z],
    its month is within 1..12 and its day within 1..31. *)
Definition civilRoundTrip (z : Z) : bool :=
  let '(y, m, d) := JSDate.civil_from_days z in
  (JSDate.days_from_civil y m d =? z)
  && (1 <=? m) && (m <=? 12) && (1 <=? d) && (d <=? 31).

(** A valid date whose year, in UTC, is written with four digits. *)
Definition fourDigitYear (d : JSDate.Date) : Prop :=
  ∃ t, d = Some t
       ∧ 0 ≤ (JSDate.civil_from_days (t / JSDate.msPerDay)).1.1 ≤ 9999.

(** Numbers below 100, 1000 and 10000 are padded to 2, 3 and 4 characters. *)
Definition padded (len : nat) (bound : Z) : bool :=
  forallb (λ n, bool_decide (String.length (JSDate.pad len n) = len))
    (seqZ 0 bound).

(** A month as the analysis takes it without confusing it with the whole
    year: absent, or present and neither empty nor ["all"]. *)
Definition plainMonth (month : option string) : Prop :=
  match month with
  | Some m => m ≠ "" ∧ m ≠ "all"
  | None => True
  end.

(** One of [a] and [b] is the other followed by [":"] and more: the
    separator after the shorter one can be taken for a character of the
    longer. *)
Definition confusable (a b : string) : Prop :=
  ∃ rest, b = a +:+ ":" +:+ rest ∨ a = b +:+ ":" +:+ rest.

(** An absent [since] or [until] and the string ["undefined"], which are
    printed alike. *)
Definition printedAlike (s s' : option string) : Prop :=
  (s = None ∧ s' = Some "undefined") ∨ (s = Some "undefined" ∧ s' = None).




(** The first instant of the month [m] of the year [y] and the last second
    of that month, in UTC. *)
Definition monthBounds (y m : Z) : JSDate.Date * JSDate.Date :=
  let next_y := if m =? 12 then y + 1 else y in
  let next_m := if m =? 12 then 1 else m + 1 in
  (Some (JSDate.days_from_civil y m 1 * JSDate.msPerDay),
   Some (JSDate.days_from_civil next_y next_m 1 * JSDate.msPerDay - 1000)).

(** The first instant of the year [y] and its last second, in UTC. *)
Definition yearBounds (y : Z) : JSDate.Date * JSDate.Date :=
  (Some (JSDate.days_from_civil y 1 1 * JSDate.msPerDay),
   Some (JSDate.days_from_civil (y + 1) 1 1 * JSDate.msPerDay - 1000)).

(** A process whose local time is five hours behind UTC, and one whose local
    time is five and a half hours ahead. *)
Definition bogota : Config :=
  {| RATE_LIMIT_PER_HOUR := 5000; CACHE_TTL := 86400; timeZone := -300;
     otherDates := JSDate.strict |}.

Definition kolkata : Config :=
  {| RATE_LIMIT_PER_HOUR := 5000; CACHE_TTL := 86400; timeZone := 330;
     otherDates := JSDate.strict |}.

(** For the year [y], the periods of the year and of its twelve months,
    the month written with or without a leading zero, are the bounds above
    when the local time is UTC. *)
Definition exactInUTC (y : Z) : bool :=
  bool_decide (period defaultConfig (pretty y) None = yearBounds y)
  && forallb
       (λ m, bool_decide (period defaultConfig (pretty y) (Some (pretty m))
                          = monthBounds y m)
             && bool_decide (period defaultConfig (pretty y) (Some (JSDate.pad 2 m))
                             = monthBounds y m))
       (seqZ 1 12).

(** *** Worked scenarios *)

Module Scenario.

Definition commitBy (login : option string) : GitHubCommit.t :=
  {| GitHubCommit.sha := "0000000";
     GitHubCommit.commit_author_name := "author";
     GitHubCommit.commit_author_email := "author@example.org";
     GitHubCommit.commit_author_date := "2021-06-15T12:00:00Z";
     GitHubCommit.author :=
       (λ l, {| Author.login := l; Author.user_id := 1 |}) <$> login |}.

Definition widgets : Repository.t :=
  {| Repository.name := "widgets";
     Repository.full_name := "acme/widgets";
     Repository.created_at := "2020-01-01T00:00:00Z";
     Repository.default_branch := "main" |}.

(** A platform answer: the repository [widgets], or the page [commits]. *)
Definition answer (commits : list GitHubCommit.t) : Responder :=
  {| on_repository := λ _ _, Ok widgets None;
     on_commits := λ _ _ _ _ _ _, Ok commits None |}.

(** A fresh process at some time in 2023, with the answers [script]. *)
Definition fresh (script : list Responder) : World :=
  {| now := 1700000000000; cache := ∅; requestCount := 0;
     lastResetTime := 1700000000000; upstream := script;
     calls := []; console := [] |}.

(** Before June 2021 the commits are by A and B; in June 2021 by B, C, C
    and D. *)
Definition juneWorld : World :=
  fresh [answer [];
         answer (commitBy <$> [Some "A"; Some "B"]);
         answer (commitBy <$> [Some "B"; Some "C"; Some "C"; Some "D"])].

(** The only commit of June 2021 has no account. *)
Definition anonymousWorld : World :=
  fresh [answer [];
         answer (commitBy <$> [Some "A"; Some "B"]);
         answer [commitBy None]].

Definition result (org repo year : string) (month : option string)
    (n : nat) : ContributorData.t :=
  {| ContributorData.org := org; ContributorData.repository := repo;
     ContributorData.year := year; ContributorData.month := month;
     ContributorData.newContributors := n |}.

End Scenario.

(** The platform does not know the repository. *)
Definition notFound : Responder :=
  let error :=
    {| JSError.status := Some 404; JSError.ratelimit_remaining := None;
       JSError.ratelimit_reset := None; JSError.code := Some "ERR_BAD_REQUEST";
       JSError.message := "Request failed with status code 404" |} in
  {| on_repository := λ _ _, Fail error;
     on_commits := λ _ _ _ _ _ _, Fail error |}.

(** The platform reports an empty repository. *)
Definition emptyRepository : Responder :=
  let error :=
    {| JSError.status := Some 409; JSError.ratelimit_remaining := None;
       JSError.ratelimit_reset := None; JSError.code := Some "ERR_BAD_REQUEST";
       JSError.message := "Request failed with status code 409" |} in
  {| on_repository := λ _ _, Fail error;
     on_commits := λ _ _ _ _ _ _, Fail error |}.

(** *** Invariants of the service *)

(** The counters of the rate governor are in order: the window did not
    start in the future and the count is within the limit. *)
Definition governed (cfg : Config) (w : World) : Prop :=
  lastResetTime w ≤ now w ∧ 0 ≤ requestCount w ≤ RATE_LIMIT_PER_HOUR cfg.

(** From [w] to [w'] the clock did not go back, and counters that were in
    order still are. *)
Definition paced (cfg : Config) (w w' : World) : Prop :=
  now w ≤ now w' ∧ (governed cfg w → governed cfg w').

(** Every run of [m] takes the world to one related to it by [R]. *)
Definition respects {A} (R : World → World → Prop) (m : M A) : Prop :=
  ∀ w res w', m w = (res, w') → R w w'.

(** A value is filed under a key of its own kind; a result under the key
    of the query it answers. *)
Definition filed (key : string) (value : CacheValue) : Prop :=
  match value with
  | VRepository _ => ∃ org repo, key = repoKey org repo
  | VCommits _ =>
      ∃ org repo since until page, key = commitsKey org repo since until page
  | VContributors d =>
      ∃ month,
        key = contributorsKey (ContributorData.org d) (ContributorData.repository d)
                (ContributorData.year d) month
        ∧ ContributorData.month d = param month
  end.

Definition wellFiled (w : World) : Prop :=
  ∀ key e, cache w !! key = Some e → filed key (v e).

(** A cache that was well filed still is. *)
Definition filedAfter (w w' : World) : Prop := wellFiled w → wellFiled w'.

(** *** Failures of the platform *)

(** A failure that passes: a server error, or a connection reset before
    any response. *)
Definition transient (e : JSError.t) : bool :=
  match JSError.status e with
  | Some s => 500 <=? s
  | None => bool_decide (JSError.code e = Some "ECONNRESET")
  end.

(** A failure that stays: a response below 500 that is not a rate limit
    with nothing remaining, on a connection that was not reset. *)
Definition permanent (e : JSError.t) : bool :=
  match JSError.status e with
  | Some s =>
      (s <? 500)
      && negb (bool_decide (JSError.code e = Some "ECONNRESET"))
      && negb ((s =? 403) && bool_decide (JSError.ratelimit_remaining e = Some "0"))
  | None => negb (bool_decide (JSError.code e = Some "ECONNRESET"))
  end.

(** The governor lets the next request pass at once: the hour is not over
    and the count is below the limit. *)
Definition hasRoom (cfg : Config) (w : World) : Prop :=
  now w - lastResetTime w < 3600000 ∧ requestCount w < RATE_LIMIT_PER_HOUR cfg.


(** The message of the error [getRepository] throws for the failure [e]. *)
Definition repositoryFailure (org repo : string) (e : JSError.t) : JSError.t :=
  JSError.Error
    (if bool_decide (JSError.status e = Some 404)
     then "Repository " +:+ org +:+ "/" +:+ repo +:+ " not found"
     else "Failed to fetch repository: " +:+ JSError.message e).

(** The error [getCommits] throws for a failure [e] other than 409. *)
Definition commitsFailure (org repo : string) (e : JSError.t) : JSError.t :=
  JSError.Error
    (if bool_decide (JSError.status e = Some 404)
     then "Repository " +:+ org +:+ "/" +:+ repo +:+ " not found"
     else "Failed to fetch commits: " +:+ JSError.message e).

(** The world after [value] was stored under [key] until [expiry]. *)
Definition stored (key : string) (value : CacheValue) (expiry : Z) (w : World) : World :=
  set_cache (<[key := {| v := value; t := expiry |}]> (cache w)) w.


(** *** Timestamps and periods in a time zone *)

(** The numbers below [bound], padded to [len] characters, are read back
    by [digits]. *)
Definition readBack (len : nat) (bound : Z) : bool :=
  forallb (λ n, bool_decide (JSString.digits len 0 (JSDate.pad len n) = Some (n, "")))
    (seqZ 0 bound).

(** The instants from 1970 to the end of 2199. *)
Definition supported (t : Z) : Prop := 0 ≤ t < 84006 * JSDate.msPerDay.

(** What the period of a month comes to in a zone [tz] minutes east of
    UTC: it starts with the month in UTC; east of UTC it ends [tz] minutes
    before the month does, west of UTC it ends one second short of [-tz]
    minutes after its start. *)
Definition monthPeriodIn (tz y m : Z) : JSDate.Date * JSDate.Date :=
  let '(first, last) := monthBounds y m in
  (first,
   if 0 <=? tz then (λ t, t - tz * 60000) <$> last
   else (λ t, t - tz * 60000 - 1000) <$> first).

(** What the period of a year comes to: it starts with the year in UTC and
    ends with the year in the zone. *)
Definition yearPeriodIn (tz y : Z) : JSDate.Date * JSDate.Date :=
  let '(first, last) := yearBounds y in
  (first, (λ t, t - tz * 60000) <$> last).

(** The facts of the calendar of the year [y] the period relies on. *)
Definition calendarChecked (y : Z) : bool :=
  bool_decide (JSString.digits 4 0 (pretty y) = Some (y, ""))
  && (JSDate.days_from_civil y 12 31 + 1 =? JSDate.days_from_civil (y + 1) 1 1)
  && forallb
       (λ m,
          let first := JSDate.days_from_civil y m 1 in
          let next :=
            JSDate.days_from_civil (if m =? 12 then y + 1 else y)
              (if m =? 12 then 1 else m + 1) 1 in
          bool_decide (JSDate.civil_from_days first = (y, m, 1))
          && (first <? next)
          && (let '(py, pm, _) := JSDate.civil_from_days (first - 1) in
              negb ((0 <=? py) && (py <=? 99))
              && (JSDate.MakeDay py (pm - 1 + 1) 0 =? first - 1))
          && (JSDate.MakeDay y (m - 1 + 1) 0 =? next - 1)
          && bool_decide (JSString.padStart 2 "0" (JSDate.pad 2 m) = JSDate.pad 2 m)
          && JSString.truthy (pretty m) && JSString.truthy (JSDate.pad 2 m))
       (seqZ 1 12).

(** *** Acceptable parameters *)

(** The first instant, in the zone [tz], of the month [m] of the year [y]. *)
Definition monthStartIn (tz y m : Z) : Z :=
  JSDate.MakeDay y (m - 1) 1 * JSDate.msPerDay - tz * 60000.

(** What [validateParams] lets through at the time [now_]. *)
Definition acceptable (tz now_ : Z) (params : Params.t) : Prop :=
  (1 ≤ String.length (Params.org params) ≤ 39)%nat
  ∧ (1 ≤ String.length (Params.repo params) ≤ 100)%nat
  ∧ JSText.allNameChars (Params.org params) = true
  ∧ JSText.allNameChars (Params.repo params) = true
  ∧ ∃ y, JSString.parseInt (Params.year params) = Some y
         ∧ 2008 ≤ y ≤ currentYear tz now_
         ∧ match param (Params.month params) with
           | Some month =>
               ∃ m, JSString.parseInt month = Some m ∧ 1 ≤ m ≤ 12
                    ∧ monthStartIn tz y m ≤ now_
           | None => True
           end.

(** * Properties *)

(** ** Tactics for running computations *)

Ltac unfold_monad :=
  unfold mbind, mret, M_bind, M_ret, bind, ret, throw, try_catch, exec, gets in *.

Ltac zbool :=
  repeat match goal with
    | H : (_ <=? _) = true |- _ => apply Z.leb_le in H
    | H : (_ <=? _) = false |- _ => apply Z.leb_gt in H
    | H : (_ <? _) = true |- _ => apply Z.ltb_lt in H
    | H : (_ <? _) = false |- _ => apply Z.ltb_ge in H
    end.

(** ** Dates and configuration *)

Example parse_date_only : JSDate.readISO (-300) "2021-06-01" = Some 1622505600000.
Proof. reflexivity. Qed.

Example parse_created_at :
  JSDate.toISOString (JSDate.readISO 0 "2013-05-24T16:15:54Z")
  = Some "2013-05-24T16:15:54.000Z".
Proof. vm_compute. reflexivity. Qed.

Example parse_local : JSDate.toISOString (JSDate.readISO (-300) "2021-12-31T23:59:59")
  = Some "2022-01-01T04:59:59.000Z".
Proof. vm_compute. reflexivity. Qed.

Example unset_environment : fromEnv (λ _, None) 0 JSDate.strict = Some defaultConfig.
Proof. reflexivity. Qed.

Example epoch : JSDate.civil_from_days 0 = (1970, 1, 1).
Proof. reflexivity. Qed.

Example leap_day :
  JSDate.civil_from_days (JSDate.days_from_civil 2024 2 29) = (2024, 2, 29)
  ∧ JSDate.days_from_civil 2024 3 1 = JSDate.days_from_civil 2024 2 29 + 1
  ∧ JSDate.days_from_civil 2023 3 1 = JSDate.days_from_civil 2023 2 28 + 1.
Proof. split_and!; reflexivity. Qed.

Lemma holdsFrom_spec n z f :
  holdsFrom n z f = true → ∀ i, z ≤ i < z + Z.of_nat n → f i = true.
Proof.
  revert z. induction n as [|n IH]; intros z H i Hi; [lia|].
  cbn [holdsFrom] in H. apply andb_true_iff in H as [Hz Hrest].
  destruct (decide (i = z)) as [->|Hne]; [done|].
  apply (IH (z + 1)); [done | lia].
Qed.

Lemma civil_dates_checked :
  holdsFrom (Z.to_nat 84006) 0 civilRoundTrip = true.
Proof. vm_compute. reflexivity. Qed.

(** Day numbers and civil dates agree on every day from 1970 to 2199. *)
Lemma civil_dates_agree z :
  0 ≤ z < 84006 →
  let '(y, m, d) := JSDate.civil_from_days z in
  JSDate.days_from_civil y m d = z ∧ 1 ≤ m ≤ 12 ∧ 1 ≤ d ≤ 31.
Proof.
  intros Hz.
  pose proof (holdsFrom_spec (Z.to_nat 84006) 0 civilRoundTrip
                civil_dates_checked z ltac:(lia)) as H.
  unfold civilRoundTrip in H.
  destruct (JSDate.civil_from_days z) as [[y m] d].
  repeat (apply andb_true_iff in H as [H ?]). zbool.
  apply Z.eqb_eq in H. lia.
Qed.

(** ** The rate governor *)

Section RateGovernor.
Variable cfg : Config.

(** The three cases of a reserve step. *)
Lemma reserve_cases (w : World) :
  0 < RATE_LIMIT_PER_HOUR cfg →
  lastResetTime w ≤ now w →
  (3600000 ≤ now w - lastResetTime w →
     requestInterceptor cfg w = (Val tt, restarted w))
  ∧ (now w - lastResetTime w < 3600000 →
     RATE_LIMIT_PER_HOUR cfg ≤ requestCount w →
     requestInterceptor cfg w = (Val tt, resumed w)
     ∧ now (resumed w) = lastResetTime w + 3600000
     ∧ lastResetTime (resumed w) = now (resumed w)
     ∧ requestCount (resumed w) = 1)
  ∧ (now w - lastResetTime w < 3600000 →
     requestCount w < RATE_LIMIT_PER_HOUR cfg →
     requestInterceptor cfg w = (Val tt, counted w)
     ∧ now (counted w) = now w).
Proof.
  intros Hlimit Hclock. unfold requestInterceptor, checkRateLimit.
  split; [|split].
  - intros Hhour. unfold_monad.
    destruct (3600000 <=? now w - lastResetTime w) eqn:E; zbool; [|lia].
    cbn. destruct (RATE_LIMIT_PER_HOUR cfg <=? 0) eqn:E'; zbool; [lia|].
    reflexivity.
  - intros Hlt Hfull. split; [|by cbn].
    unfold_monad.
    destruct (3600000 <=? now w - lastResetTime w) eqn:E; zbool; [lia|].
    destruct (RATE_LIMIT_PER_HOUR cfg <=? requestCount w) eqn:E'; zbool; [|lia].
    unfold sleep, exec, resumed. cbn.
    destruct (1 <=? 3600000 - (now w - lastResetTime w)) eqn:E1; zbool; [|lia].
    destruct (3600000 - (now w - lastResetTime w) <=? 2147483647) eqn:E2;
      zbool; [|lia].
    cbn. unfold set_requestCount, set_lastResetTime, set_now. cbn.
    replace (now w + (3600000 - (now w - lastResetTime w)))
      with (lastResetTime w + 3600000) by lia.
    reflexivity.
  - intros Hlt Hroom. split; [|by cbn].
    unfold_monad.
    destruct (3600000 <=? now w - lastResetTime w) eqn:E; zbool; [lia|].
    destruct (RATE_LIMIT_PER_HOUR cfg <=? requestCount w) eqn:E'; zbool; [lia|].
    reflexivity.
Qed.

Lemma reserveTimes_counts (n : nat) (w : World) :
  0 < RATE_LIMIT_PER_HOUR cfg →
  lastResetTime w ≤ now w →
  now w - lastResetTime w < 3600000 →
  requestCount w = 0 →
  Z.of_nat n ≤ RATE_LIMIT_PER_HOUR cfg →
  reserveTimes cfg n w = set_requestCount (Z.of_nat n) w.
Proof.
  intros Hlimit Hclock Hhour Hzero. induction n as [|n IH]; intros Hn.
  - cbn. destruct w. cbn in *. by subst.
  - cbn [reserveTimes]. rewrite IH by lia.
    destruct (reserve_cases (set_requestCount (Z.of_nat n) w) Hlimit Hclock)
      as (_ & _ & Hroom).
    destruct (Hroom Hhour) as [-> _]; [cbn; lia|].
    unfold counted, set_requestCount. cbn. do 2 f_equal. lia.
Qed.

(** C4.  A reserve step (the request interceptor: [checkRateLimit], then
    the increment), taken at a time not before the window's start and with
    a positive limit: when an hour or more has passed the window restarts
    at [now] and the count is 1 without any wait; when the count has
    reached the limit within the hour the caller sleeps exactly to the end
    of the window, the counters are reset there and the count is 1;
    otherwise the count grows by one and nothing else changes.  So after as
    many steps as the limit allows within an hour, the count is the limit,
    and the next step sleeps to the end of the hour and leaves the count
    at 1.  The limit is 5000 when the environment does not set it. *)
Theorem reserve_step (w : World) :
  (∀ env tz dates c,
     env "GITHUB_REQUESTS_PER_HOUR" = None → fromEnv env tz dates = Some c →
     RATE_LIMIT_PER_HOUR c = 5000)
  ∧ (0 < RATE_LIMIT_PER_HOUR cfg →
     lastResetTime w ≤ now w →
     ((3600000 ≤ now w - lastResetTime w →
         requestInterceptor cfg w = (Val tt, restarted w))
      ∧ (now w - lastResetTime w < 3600000 →
         RATE_LIMIT_PER_HOUR cfg ≤ requestCount w →
         requestInterceptor cfg w = (Val tt, resumed w)
         ∧ now (resumed w) = lastResetTime w + 3600000
         ∧ lastResetTime (resumed w) = now (resumed w)
         ∧ requestCount (resumed w) = 1)
      ∧ (now w - lastResetTime w < 3600000 →
         requestCount w < RATE_LIMIT_PER_HOUR cfg →
         requestInterceptor cfg w = (Val tt, counted w)
         ∧ now (counted w) = now w))
     ∧ (now w - lastResetTime w < 3600000 →
        requestCount w = 0 →
        let full := reserveTimes cfg (Z.to_nat (RATE_LIMIT_PER_HOUR cfg)) w in
        full = set_requestCount (RATE_LIMIT_PER_HOUR cfg) w
        ∧ requestInterceptor cfg full = (Val tt, resumed full)
        ∧ now (resumed full) = lastResetTime w + 3600000
        ∧ requestCount (resumed full) = 1)).
Proof.
  split.
  { intros env tz dates c Henv. unfold fromEnv. rewrite Henv.
    change (JSString.parseInt (envOr None "5000")) with (Some 5000).
    cbn [mbind option_bind].
    destruct (JSString.parseInt _); [|done]. cbn. by intros [= <-]. }
  intros Hlimit Hclock. split; [by apply reserve_cases|].
  intros Hhour Hzero. cbn zeta.
  rewrite reserveTimes_counts by (try done; lia).
  rewrite Z2Nat.id by lia. split; [done|].
  destruct (reserve_cases (set_requestCount (RATE_LIMIT_PER_HOUR cfg) w)
              Hlimit Hclock) as (_ & Hfull & _).
  destruct (Hfull Hhour) as (Hrun & Hnow & _ & Hcount); [cbn; lia|].
  done.
Qed.

End RateGovernor.

Lemma reserve_step_witness :
  let w := set_requestCount 5000 (set_now 1700000600000 (Scenario.fresh [])) in
  0 < RATE_LIMIT_PER_HOUR defaultConfig
  ∧ lastResetTime w ≤ now w
  ∧ now w - lastResetTime w < 3600000
  ∧ RATE_LIMIT_PER_HOUR defaultConfig ≤ requestCount w
  ∧ requestInterceptor defaultConfig w = (Val tt, resumed w)
  ∧ now (resumed w) = 1700003600000
  ∧ requestCount (resumed w) = 1.
Proof.
  intros w.
  assert (H1 : 0 < RATE_LIMIT_PER_HOUR defaultConfig) by (vm_compute; reflexivity).
  assert (H2 : lastResetTime w ≤ now w) by (vm_compute; discriminate).
  assert (H3 : now w - lastResetTime w < 3600000) by (vm_compute; reflexivity).
  assert (H4 : RATE_LIMIT_PER_HOUR defaultConfig ≤ requestCount w)
    by (vm_compute; discriminate).
  split; [exact H1|]. split; [exact H2|]. split; [exact H3|]. split; [exact H4|].
  destruct (proj1 (proj2 (proj1 (proj2 (reserve_step defaultConfig w) H1 H2)))
              H3 H4) as (Hrun & Hnow & _ & Hcount).
  split; [exact Hrun|]. split; [exact Hnow|]. exact Hcount.
Defined.

(** ** What each operation leaves untouched *)

Lemma bind_val {A B} (m : M A) (k : A → M B) w b w' :
  (m ≫= k) w = (Val b, w') →
  ∃ a w1, m w = (Val a, w1) ∧ k a w1 = (Val b, w').
Proof.
  unfold_monad. destruct (m w) as [[a|e] w1]; [eauto | discriminate].
Qed.

Lemma bind_exc {A B} (m : M A) (k : A → M B) w e w' :
  (m ≫= k) w = (Exc e, w') →
  m w = (Exc e, w') ∨ ∃ a w1, m w = (Val a, w1) ∧ k a w1 = (Exc e, w').
Proof.
  unfold_monad. destruct (m w) as [[a|e0] w1]; intros H;
    [right; eauto | left; by injection H as -> ->].
Qed.

Lemma bind_run_val {A B} (m : M A) (k : A → M B) w a w1 :
  m w = (Val a, w1) → (m ≫= k) w = k a w1.
Proof. unfold_monad. by intros ->. Qed.

Lemma bind_run_exc {A B} (m : M A) (k : A → M B) w e w1 :
  m w = (Exc e, w1) → (m ≫= k) w = (Exc e, w1).
Proof. unfold_monad. by intros ->. Qed.

Section Frames.
Variable cfg : Config.

Lemma cache_get_result key w :
  ∃ o w', cache_get key w = (Val o, w')
    ∧ now w' = now w ∧ upstream w' = upstream w ∧ calls w' = calls w
    ∧ console w' = console w
    ∧ requestCount w' = requestCount w ∧ lastResetTime w' = lastResetTime w
    ∧ (∀ k, cache w' !! k = cache w !! k ∨ cache w' !! k = None)
    ∧ (o = None → cache w' !! key = None)
    ∧ (∀ x, o = Some x → w' = w ∧ ∃ e, cache w !! key = Some e ∧ v e = x
                                   ∧ (t e = 0 ∨ now w ≤ t e)).
Proof.
  unfold cache_get. destruct (cache w !! key) as [e|] eqn:E.
  - destruct (negb (t e =? 0) && (t e <? now w)) eqn:X.
    + eexists _, _. split; [reflexivity|]. cbn. split_and!; try done.
      * intros k. destruct (decide (key = k)) as [->|].
        -- right. apply lookup_delete_eq.
        -- left. by rewrite lookup_delete_ne.
      * intros _. apply lookup_delete_eq.
    + eexists _, _. split; [reflexivity|]. split_and!; try done; [by left|].
      intros x [= <-]. split; [done|]. exists e. split_and!; try done.
      apply andb_false_iff in X as [X|X].
      * left. apply negb_false_iff, Z.eqb_eq in X. done.
      * right. by apply Z.ltb_ge in X.
  - eexists _, _. split; [reflexivity|]. split_and!; try done. by left.
Qed.

Lemma cache_get_hit key w e :
  cache w !! key = Some e → t e = 0 ∨ now w ≤ t e →
  cache_get key w = (Val (Some (v e)), w).
Proof.
  intros E H. unfold cache_get. rewrite E.
  destruct (negb (t e =? 0) && (t e <? now w)) eqn:X; [|done].
  apply andb_true_iff in X as [X1 X2].
  apply negb_true_iff, Z.eqb_neq in X1. apply Z.ltb_lt in X2. lia.
Qed.

Lemma cache_get_absent key w :
  cache w !! key = None → cache_get key w = (Val None, w).
Proof. intros E. unfold cache_get. by rewrite E. Qed.

Lemma requestInterceptor_frame w :
  ∃ w', requestInterceptor cfg w = (Val tt, w')
    ∧ cache w' = cache w ∧ upstream w' = upstream w ∧ calls w' = calls w.
Proof.
  unfold requestInterceptor, checkRateLimit. unfold_monad.
  destruct (3600000 <=? now w - lastResetTime w);
    match goal with |- context [if ?c then _ else _] => destruct c end;
    cbn; eexists; (split; [reflexivity|]); done.
Qed.

Lemma responseInterceptor_frame remaining w :
  ∃ w', responseInterceptor remaining w = (Val tt, w')
    ∧ cache w' = cache w ∧ upstream w' = upstream w ∧ calls w' = calls w.
Proof.
  unfold responseInterceptor. unfold_monad.
  destruct remaining as [r|]; [|by eexists].
  match goal with |- context [if ?c then _ else _] => destruct c end;
    by eexists.
Qed.

(** A request leaves the cache alone, takes its answers from the front of
    the script, and records itself once for every time it is sent. *)
Lemma request_frame {A} (ask : Responder → Reply A) req script w :
  ∃ res w' n, request cfg ask req script w = (res, w')
    ∧ cache w' = cache w
    ∧ upstream w' = drop (S n) script
    ∧ calls w' = calls w ++ replicate (S n) req.
Proof.
  revert w. induction script as [|r rest IH]; intros w; cbn [request].
  - destruct (requestInterceptor_frame w) as (w1 & -> & Hc & Hu & Hl).
    eexists _, _, 0%nat. split; [reflexivity|]. cbn. by rewrite Hc, Hl.
  - destruct (requestInterceptor_frame w) as (w1 & -> & Hc & Hu & Hl).
    destruct (ask r) as [data remaining|error].
    + unfold_monad.
      destruct (responseInterceptor_frame remaining (dispatched req rest w1))
        as (w2 & E & Hc2 & Hu2 & Hl2).
      unfold_monad. rewrite E. eexists _, _, 0%nat. split; [reflexivity|].
      rewrite Hc2, Hu2, Hl2. cbn. by rewrite Hc, Hl.
    + destruct (onRejected error (now (dispatched req rest w1))) as [ms l|].
      * unfold_monad. unfold sleep, exec. cbn.
        match goal with |- context [request cfg ask req rest ?w0] =>
          destruct (IH w0) as (res & w' & n & E & Hc' & Hu' & Hl') end.
        rewrite E. eexists _, _, (S n). split; [reflexivity|].
        rewrite Hc', Hu', Hl'. cbn. rewrite Hc, Hl. split; [done|].
        split; [done|]. by rewrite <- app_assoc.
      * eexists _, _, 0%nat. split; [reflexivity|]. cbn. by rewrite Hc, Hl.
Qed.

End Frames.

(** ** Cache keys of different kinds *)

Lemma repoKey_not_contributorsKey org repo org' repo' year month :
  repoKey org repo ≠ contributorsKey org' repo' year month.
Proof. unfold repoKey, contributorsKey. cbn. discriminate. Qed.

Lemma commitsKey_not_contributorsKey org repo since until page org' repo' year month :
  commitsKey org repo since until page ≠ contributorsKey org' repo' year month.
Proof. unfold commitsKey, contributorsKey. cbn. discriminate. Qed.

Lemma repoKey_not_commitsKey org repo org' repo' since until page :
  repoKey org repo ≠ commitsKey org' repo' since until page.
Proof. unfold repoKey, commitsKey. cbn. discriminate. Qed.

(** ** Keys that are not written *)

Lemma kept_refl k w : kept k w w.
Proof. by left. Qed.

Lemma kept_trans k w1 w2 w3 : kept k w1 w2 → kept k w2 w3 → kept k w1 w3.
Proof. unfold kept. intros [H1|H1] [H2|H2]; rewrite ?H2, ?H1; auto. Qed.

Lemma kept_absent k w w' : kept k w w' → cache w !! k = None → cache w' !! k = None.
Proof. intros [H|H] E; [by rewrite H | done]. Qed.

Section Kept.
Variable cfg : Config.

Lemma cache_get_kept key w o w' k :
  cache_get key w = (Val o, w') → kept k w w'.
Proof.
  destruct (cache_get_result key w)
    as (o' & w1 & -> & _ & _ & _ & _ & _ & _ & Hkeep & _).
  intros [= _ <-]. apply Hkeep.
Qed.

Lemma fetchRepository_kept org repo w res w' k :
  fetchRepository cfg org repo w = (res, w') →
  k ≠ repoKey org repo → kept k w w'.
Proof.
  intros Hrun Hne. unfold fetchRepository, client_get in Hrun.
  unfold_monad.
  destruct (request_frame cfg (λ r, on_repository r org repo)
              (GetRepository org repo) (upstream w) w)
    as (r & w2 & n & E & Hc & _ & _).
  rewrite E in Hrun. left. destruct r as [repository|error].
  - injection Hrun as <- <-. cbn. rewrite lookup_insert_ne by done.
    by rewrite Hc.
  - destruct (bool_decide _); injection Hrun as <- <-; by rewrite Hc.
Qed.

Lemma getRepository_kept org repo w res w' k :
  getRepository cfg org repo w = (res, w') →
  k ≠ repoKey org repo → kept k w w'.
Proof.
  intros Hrun Hne. unfold getRepository in Hrun.
  destruct (cache_get_result (repoKey org repo) w)
    as (o & w1 & E & _).
  pose proof (cache_get_kept _ _ _ _ k E) as Hk.
  rewrite (bind_run_val _ _ _ _ _ E) in Hrun.
  destruct o as [[r|cs|d]|];
    try solve [eapply kept_trans; [exact Hk|]; eauto using fetchRepository_kept].
  unfold_monad. by injection Hrun as <- <-.
Qed.

Lemma fetchCommits_kept org repo since until page w res w' k :
  fetchCommits cfg org repo since until page w = (res, w') →
  k ≠ commitsKey org repo since until page → kept k w w'.
Proof.
  intros Hrun Hne. unfold fetchCommits, client_get in Hrun.
  unfold_monad.
  destruct (request_frame cfg
              (λ r, on_commits r org repo (param since) (param until) page 100)
              (GetCommits org repo (param since) (param until) page 100)
              (upstream w) w)
    as (r & w2 & n & E & Hc & _ & _).
  rewrite E in Hrun. left. destruct r as [commits|error].
  - injection Hrun as <- <-. cbn. rewrite lookup_insert_ne by done.
    by rewrite Hc.
  - repeat destruct (bool_decide _); injection Hrun as <- <-; by rewrite Hc.
Qed.

Lemma getCommits_kept org repo since until page w res w' k :
  getCommits cfg org repo since until page w = (res, w') →
  k ≠ commitsKey org repo since until page → kept k w w'.
Proof.
  intros Hrun Hne. unfold getCommits in Hrun.
  destruct (cache_get_result (commitsKey org repo since until page) w)
    as (o & w1 & E & _).
  pose proof (cache_get_kept _ _ _ _ k E) as Hk.
  rewrite (bind_run_val _ _ _ _ _ E) in Hrun.
  destruct o as [[r|cs|d]|];
    try solve [eapply kept_trans; [exact Hk|]; eauto using fetchCommits_kept].
  unfold_monad. by injection Hrun as <- <-.
Qed.

End Kept.

(** ** The pagination loop *)

Section Pagination.
Variable cfg : Config.

(** One round of the loop, as the source reads: the page is fetched, the
    accumulator, [page] and [hasMore] are updated, and the page limit is
    tested before [hasMore] is. *)
Lemma pages_round org repo since until page allCommits w :
  pages cfg org repo since until page allCommits w =
  match getCommits cfg org repo (Some since) (Some until) page w with
  | (Exc e, w1) => (Exc e, w1)
  | (Val commits, w1) =>
      let '(acc, page', hasMore) :=
        if decide (length commits = 0%nat) then (allCommits, page, false)
        else (allCommits ++ commits, page + 1,
              negb (bool_decide (length commits < 100)%nat)) in
      if decide (page' > 1000)
      then (Val acc, print (WarnMaxPageLimit org repo) w1)
      else if hasMore then pages cfg org repo since until page' acc w1
           else (Val acc, w1)
  end.
Proof.
  simp pages.
  destruct (getCommits cfg org repo (Some since) (Some until) page w)
    as [[commits|e] w1]; cbn; [|done].
  destruct (decide (length commits = 0%nat)); cbn.
  - by destruct (decide (page > 1000)).
  - destruct (decide (page + 1 > 1000)); cbn; [done|].
    by rewrite bool_decide_decide; destruct (decide (length commits < 100)%nat).
Qed.

(** Induction along the loop: a round at [page] only goes on with a
    larger page index, at most 1000. *)
Lemma pages_induction (P : Z → Prop) :
  (∀ page, (∀ page', page < page' ≤ 1000 → P page') → P page) →
  ∀ page, P page.
Proof.
  intros step page.
  remember (Z.to_nat (1001 - page)) as n eqn:Hn.
  revert page Hn. induction n as [n IH] using lt_wf_ind. intros page ->.
  apply step. intros page' Hlt. apply (IH (Z.to_nat (1001 - page'))); lia.
Qed.

Lemma pages_kept org repo since until k :
  (∀ p, k ≠ commitsKey org repo (Some since) (Some until) p) →
  ∀ page allCommits w res w',
    pages cfg org repo since until page allCommits w = (res, w') →
    kept k w w'.
Proof.
  intros Hne page. induction page as [page IH] using pages_induction.
  intros allCommits w res w'. rewrite pages_round.
  destruct (getCommits cfg org repo (Some since) (Some until) page w)
    as [[commits|e] w1] eqn:E; intros Hrun;
    eapply getCommits_kept in E; eauto.
  - destruct (decide (length commits = 0%nat)); cbn in Hrun.
    + destruct (decide (page > 1000)); by injection Hrun as <- <-.
    + destruct (decide (page + 1 > 1000)); [by injection Hrun as <- <-|].
      destruct (negb _); [|by injection Hrun as <- <-].
      eapply kept_trans; [exact E|].
      eapply (IH (page + 1)); [lia | exact Hrun].
  - by injection Hrun as <- <-.
Qed.

End Pagination.

(** ** Contributor sets *)

Lemma truthy_nonempty s : JSString.truthy s = true ↔ s ≠ "".
Proof. by destruct s. Qed.

Lemma contributor_Some commit login :
  contributor commit = Some login ↔
  ∃ a, GitHubCommit.author commit = Some a ∧ Author.login a = login ∧ login ≠ "".
Proof.
  unfold contributor. split.
  - destruct (GitHubCommit.author commit) as [a|]; [|done].
    destruct (JSString.truthy (Author.login a)) eqn:E; [|done].
    intros [= <-]. exists a. by rewrite <- truthy_nonempty.
  - intros (a & -> & <- & Hne). apply truthy_nonempty in Hne. by rewrite Hne.
Qed.

Lemma elem_of_contributors login commits :
  login ∈ contributors commits ↔
  ∃ commit a, commit ∈ commits ∧ GitHubCommit.author commit = Some a
              ∧ Author.login a = login ∧ login ≠ "".
Proof.
  unfold contributors. rewrite elem_of_list_to_set, list_elem_of_omap.
  split.
  - intros (commit & Hin & Hc). apply contributor_Some in Hc as (a & ? & ? & ?).
    eauto 10.
  - intros (commit & a & Hin & ? & ? & ?). exists commit. split; [done|].
    apply contributor_Some. eauto.
Qed.

Lemma contributors_cons commit commits :
  contributors (commit :: commits) =
  match contributor commit with
  | Some login => {[ login ]} ∪ contributors commits
  | None => contributors commits
  end.
Proof. unfold contributors. cbn. by destruct (contributor commit). Qed.

Lemma addExisting_contributor existing commit :
  addExisting existing commit =
  match contributor commit with
  | Some login => existing ∪ {[ login ]}
  | None => existing
  end.
Proof.
  unfold addExisting, contributor, authorLogin.
  destruct (GitHubCommit.author commit) as [a|]; cbn; [|done].
  by destruct (JSString.truthy (Author.login a)).
Qed.

Lemma addNew_contributor existing new commit :
  addNew (existing, new) commit =
  match contributor commit with
  | Some login =>
      if decide (login ∈ existing) then (existing, new)
      else (existing ∪ {[ login ]}, new ∪ {[ login ]})
  | None => (existing, new)
  end.
Proof.
  unfold addNew, contributor, authorLogin.
  destruct (GitHubCommit.author commit) as [a|]; cbn; [|done].
  destruct (JSString.truthy (Author.login a)); cbn; [|done].
  rewrite bool_decide_decide. by destruct (decide _).
Qed.

(** The first [forEach] collects the contributors of the commits. *)
Lemma foldl_addExisting commits existing :
  foldl addExisting existing commits = existing ∪ contributors commits.
Proof.
  revert existing. induction commits as [|commit commits IH]; intros existing.
  - cbn. unfold contributors. cbn. set_solver.
  - cbn [foldl]. rewrite IH, addExisting_contributor, contributors_cons.
    destruct (contributor commit); set_solver.
Qed.

(** The second [forEach] adds to the new contributors those of the commits
    that were not seen before. *)
Lemma foldl_addNew commits existing new :
  foldl addNew (existing, new) commits =
  (existing ∪ contributors commits, new ∪ (contributors commits ∖ existing)).
Proof.
  revert existing new.
  induction commits as [|commit commits IH]; intros existing new.
  - cbn. unfold contributors. cbn. f_equal; set_solver.
  - cbn [foldl]. rewrite addNew_contributor, contributors_cons.
    destruct (contributor commit) as [login|]; [|apply IH].
    destruct (decide (login ∈ existing)); rewrite IH; f_equal.
    + set_solver.
    + set_solver.
    + set_solver.
    + apply set_eq. intros x. destruct (decide (x = login)); set_solver.
Qed.

(** ** The analysis, step by step *)

Section Analysis.
Variable cfg : Config.

Lemma toISOString_val d w s w' :
  toISOString d w = (Val s, w') → JSDate.toISOString d = Some s ∧ w' = w.
Proof.
  unfold toISOString. destruct (JSDate.toISOString d); unfold_monad;
    [by intros [= -> ->] | discriminate].
Qed.

Lemma toISOString_run d s w :
  JSDate.toISOString d = Some s → toISOString d w = (Val s, w).
Proof. unfold toISOString. by intros ->. Qed.

Lemma contributorsBefore_val org repo repoCreatedAt startDate w existing w' :
  contributorsBefore cfg org repo repoCreatedAt startDate w = (Val existing, w') →
  ∃ commits, fetchedBefore cfg org repo repoCreatedAt startDate w commits w'
             ∧ existing = contributors commits.
Proof.
  unfold contributorsBefore, fetchedBefore.
  destruct (JSDate.gt startDate repoCreatedAt).
  - intros H.
    apply bind_val in H as (since & w1 & H1 & H).
    apply toISOString_val in H1 as [H1 ->].
    apply bind_val in H as (until & w2 & H2 & H).
    apply toISOString_val in H2 as [H2 ->].
    apply bind_val in H as (commits & w3 & H3 & H).
    unfold_monad. injection H as <- <-.
    exists commits. split; [by exists since, until|].
    rewrite foldl_addExisting. set_solver.
  - unfold_monad. intros [= <- <-]. exists []. done.
Qed.

Lemma countNew_val org repo year month startDate endDate existing w d w' :
  countNew cfg org repo year month startDate endDate existing w = (Val d, w') →
  ∃ commits w1,
    fetchedWindow cfg org repo startDate endDate w commits w1
    ∧ d = {| ContributorData.org := org;
             ContributorData.repository := repo;
             ContributorData.year := year;
             ContributorData.month := param month;
             ContributorData.newContributors :=
               size (contributors commits ∖ existing) |}
    ∧ w' = (cache_set (CACHE_TTL cfg) (contributorsKey org repo year month)
              (VContributors d) None w1).2.
Proof.
  unfold countNew. intros H.
  apply bind_val in H as (since & w1 & H1 & H).
  apply toISOString_val in H1 as [H1 ->].
  apply bind_val in H as (until & w2 & H2 & H).
  apply toISOString_val in H2 as [H2 ->].
  apply bind_val in H as (commits & w3 & H3 & H).
  rewrite foldl_addNew in H. unfold_monad. cbn in H.
  replace (∅ ∪ contributors commits ∖ existing)
    with (contributors commits ∖ existing) in H by set_solver.
  injection H as <- <-.
  exists commits, w3. split; [by exists since, until|]. done.
Qed.

Lemma countNew_run org repo year month startDate endDate existing w commits w1 :
  fetchedWindow cfg org repo startDate endDate w commits w1 →
  countNew cfg org repo year month startDate endDate existing w =
  let d := {| ContributorData.org := org;
              ContributorData.repository := repo;
              ContributorData.year := year;
              ContributorData.month := param month;
              ContributorData.newContributors :=
                size (contributors commits ∖ existing) |} in
  (Val d, (cache_set (CACHE_TTL cfg) (contributorsKey org repo year month)
             (VContributors d) None w1).2).
Proof.
  intros (since & until & H1 & H2 & H3). unfold countNew.
  rewrite (bind_run_val _ _ _ _ _ (toISOString_run _ _ _ H1)).
  rewrite (bind_run_val _ _ _ _ _ (toISOString_run _ _ _ H2)).
  rewrite (bind_run_val _ _ _ _ _ H3).
  rewrite foldl_addNew. unfold_monad. cbn.
  replace (∅ ∪ contributors commits ∖ existing)
    with (contributors commits ∖ existing) by set_solver.
  done.
Qed.

Lemma analyze_val org repo year month w d w' :
  analyze cfg org repo year month w = (Val d, w') →
  ∃ repository w1 baseline w2 target w3,
    getRepository cfg org repo w = (Val repository, w1)
    ∧ let repoCreatedAt :=
        JSDate.parse (timeZone cfg) (otherDates cfg) (Repository.created_at repository) in
      let startDate := clampStart (period cfg year month).1 repoCreatedAt in
      let endDate := (period cfg year month).2 in
      fetchedBefore cfg org repo repoCreatedAt startDate w1 baseline w2
      ∧ fetchedWindow cfg org repo startDate endDate w2 target w3
      ∧ ContributorData.newContributors d
        = size (contributors target ∖ contributors baseline)
      ∧ w' = (cache_set (CACHE_TTL cfg) (contributorsKey org repo year month)
                (VContributors d) None w3).2.
Proof.
  unfold analyze. intros H.
  apply bind_val in H as (repository & w1 & H1 & H).
  destruct (period cfg year month) as [startDate endDate] eqn:P.
  apply bind_val in H as (existing & w2 & H2 & H).
  apply contributorsBefore_val in H2 as (baseline & H2 & ->).
  apply countNew_val in H as (target & w3 & H3 & Hd & ->).
  exists repository, w1, baseline, w2, target, w3. cbn.
  split_and!; try done. by rewrite Hd.
Qed.

(** On a miss the service runs the analysis and hands on its result. *)
Lemma getNewContributorsByMonth_miss org repo year month w w0 :
  cache_get (contributorsKey org repo year month) w = (Val None, w0) →
  getNewContributorsByMonth cfg org repo year month w =
  match analyze cfg org repo year month w0 with
  | (Val d, w') => (Val d, w')
  | (Exc error, w') =>
      (Exc (JSError.Error
              ("Failed to analyze contributors: " +:+ JSError.message error)), w')
  end.
Proof.
  intros E. unfold getNewContributorsByMonth.
  rewrite (bind_run_val _ _ _ _ _ E). unfold_monad.
  by destruct (analyze cfg org repo year month w0) as [[d|e] w'].
Qed.

End Analysis.

(** ** New contributors *)

(** C1.  When the result is not in the cache and the analysis returns, the
    count it returns is the number of distinct contributors of the commits
    fetched for the period that are not contributors of the commits fetched
    for the time before it (a set difference, so a login with several
    commits in the period counts once).  For a repository created
    2020-01-01T00:00:00Z, commits by A and B before June 2021 and by B, C, C
    and D in June 2021, the count is 2, after one lookup and one page of each
    window. *)
Theorem new_contributors_count :
  (∀ cfg org repo year month w w0 d w',
     cache_get (contributorsKey org repo year month) w = (Val None, w0) →
     getNewContributorsByMonth cfg org repo year month w = (Val d, w') →
     ∃ repository w1 baseline w2 target w3,
       getRepository cfg org repo w0 = (Val repository, w1)
       ∧ let repoCreatedAt :=
           JSDate.parse (timeZone cfg) (otherDates cfg) (Repository.created_at repository) in
         let startDate := clampStart (period cfg year month).1 repoCreatedAt in
         let endDate := (period cfg year month).2 in
         fetchedBefore cfg org repo repoCreatedAt startDate w1 baseline w2
         ∧ fetchedWindow cfg org repo startDate endDate w2 target w3
         ∧ ContributorData.newContributors d
           = size (contributors target ∖ contributors baseline))
  ∧ (∃ w',
       getNewContributorsByMonth defaultConfig "acme" "widgets" "2021" (Some "6")
         Scenario.juneWorld
       = (Val (Scenario.result "acme" "widgets" "2021" (Some "6") 2), w')
       ∧ calls w' =
         [GetRepository "acme" "widgets";
          GetCommits "acme" "widgets" (Some "2020-01-01T00:00:00.000Z")
            (Some "2021-06-01T00:00:00.000Z") 1 100;
          GetCommits "acme" "widgets" (Some "2021-06-01T00:00:00.000Z")
            (Some "2021-06-30T23:59:59.000Z") 1 100]).
Proof.
  split.
  - intros cfg org repo year month w w0 d w' Hmiss Hrun.
    rewrite (getNewContributorsByMonth_miss _ _ _ _ _ _ _ Hmiss) in Hrun.
    destruct (analyze cfg org repo year month w0) as [[d0|e] w0'] eqn:E;
      [|discriminate].
    injection Hrun as -> ->.
    apply analyze_val in E
      as (repository & w1 & baseline & w2 & target & w3 & H1 & H2 & H3 & H4 & _).
    exists repository, w1, baseline, w2, target, w3. done.
  - eexists. split; vm_compute; reflexivity.
Qed.

Lemma new_contributors_count_witness :
  let run :=
    getNewContributorsByMonth defaultConfig "acme" "widgets" "2021" (Some "6")
      Scenario.juneWorld in
  let d := Scenario.result "acme" "widgets" "2021" (Some "6") 2 in
  cache_get (contributorsKey "acme" "widgets" "2021" (Some "6")) Scenario.juneWorld
  = (Val None, Scenario.juneWorld)
  ∧ run = (Val d, run.2)
  ∧ ∃ repository w1 baseline w2 target w3,
      getRepository defaultConfig "acme" "widgets" Scenario.juneWorld
      = (Val repository, w1)
      ∧ (let repoCreatedAt :=
           JSDate.parse (timeZone defaultConfig) (otherDates defaultConfig)
             (Repository.created_at repository) in
         let startDate :=
           clampStart (period defaultConfig "2021" (Some "6")).1 repoCreatedAt in
         let endDate := (period defaultConfig "2021" (Some "6")).2 in
         fetchedBefore defaultConfig "acme" "widgets" repoCreatedAt startDate
           w1 baseline w2
         ∧ fetchedWindow defaultConfig "acme" "widgets" startDate endDate
             w2 target w3
         ∧ ContributorData.newContributors d
           = size (contributors target ∖ contributors baseline)).
Proof.
  intros run d.
  assert (H1 : cache_get (contributorsKey "acme" "widgets" "2021" (Some "6"))
                 Scenario.juneWorld = (Val None, Scenario.juneWorld))
    by (vm_compute; reflexivity).
  assert (H2 : run = (Val d, run.2)) by (vm_compute; reflexivity).
  split; [exact H1|]. split; [exact H2|].
  exact (proj1 new_contributors_count _ _ _ _ _ _ _ _ _ H1 H2).
Defined.

(** ** Commits without a login *)

Lemma empty_not_contributor commits : "" ∉ contributors commits.
Proof. rewrite elem_of_contributors. by intros (? & ? & ? & ? & ? & ?). Qed.

(** C2.  A commit whose author is [null] changes neither the set of
    earlier contributors nor the set of new ones; the sets the analysis
    builds from the commits before and in the period never hold the empty
    login, and each of their members is the login of the author of one of
    those commits; and when the only commit fetched for the period has no
    author the count is 0, as it is for the whole service in the scenario
    where June 2021 has one such commit. *)
Theorem absent_login_excluded :
  (∀ commit, GitHubCommit.author commit = None →
     (∀ existing, addExisting existing commit = existing)
     ∧ (∀ sets, addNew sets commit = sets))
  ∧ (∀ baseline target,
       let existing := foldl addExisting ∅ baseline in
       let sets := foldl addNew (existing, ∅) target in
       ("" ∉ existing) ∧ ("" ∉ fst sets) ∧ ("" ∉ snd sets)
       ∧ ∀ login, login ∈ existing ∪ fst sets ∪ snd sets →
           ∃ commit a, commit ∈ baseline ++ target
                       ∧ GitHubCommit.author commit = Some a
                       ∧ Author.login a = login)
  ∧ (∀ cfg org repo year month startDate endDate existing w commit w1,
       GitHubCommit.author commit = None →
       fetchedWindow cfg org repo startDate endDate w [commit] w1 →
       ∃ d w',
         countNew cfg org repo year month startDate endDate existing w = (Val d, w')
         ∧ ContributorData.newContributors d = 0%nat)
  ∧ (∃ w',
       getNewContributorsByMonth defaultConfig "acme" "widgets" "2021" (Some "6")
         Scenario.anonymousWorld
       = (Val (Scenario.result "acme" "widgets" "2021" (Some "6") 0), w')).
Proof.
  split_and!.
  - intros commit Hnone. split.
    + intros existing. unfold addExisting, authorLogin. by rewrite Hnone.
    + intros [existing new]. unfold addNew, authorLogin. by rewrite Hnone.
  - intros baseline target. cbn zeta.
    rewrite foldl_addExisting, foldl_addNew. cbn [fst snd].
    pose proof (empty_not_contributor baseline).
    pose proof (empty_not_contributor target).
    split_and!; [set_solver..|].
    intros login Hin.
    assert (login ∈ contributors baseline ∨ login ∈ contributors target)
      as [Hl|Hl] by set_solver;
      apply elem_of_contributors in Hl as (commit & a & Hc & Ha & Hlog & _);
      exists commit, a; rewrite elem_of_app; auto.
  - intros cfg org repo year month startDate endDate existing w commit w1 Hnone Hf.
    rewrite (countNew_run _ _ _ _ _ _ _ _ _ _ _ Hf). cbn zeta.
    eexists _, _. split; [reflexivity|]. cbn [ContributorData.newContributors].
    rewrite contributors_cons. unfold contributor. rewrite Hnone.
    replace (contributors [] ∖ existing) with (∅ : gset string)
      by (unfold contributors; cbn; set_solver).
    apply size_empty.
  - eexists. vm_compute. reflexivity.
Qed.

Lemma absent_login_excluded_witness :
  let commit := Scenario.commitBy None in
  let w := Scenario.fresh [Scenario.answer [commit]] in
  let startDate := Some 1622505600000 in
  let endDate := Some 1625097599000 in
  let w1 :=
    (getAllCommitsPaginated defaultConfig "acme" "widgets"
       "2021-06-01T00:00:00.000Z" "2021-06-30T23:59:59.000Z" w).2 in
  GitHubCommit.author commit = None
  ∧ fetchedWindow defaultConfig "acme" "widgets" startDate endDate w [commit] w1
  ∧ ((∀ existing, addExisting existing commit = existing)
     ∧ (∀ sets, addNew sets commit = sets))
  ∧ ∃ d w',
      countNew defaultConfig "acme" "widgets" "2021" (Some "6") startDate endDate
        ∅ w = (Val d, w')
      ∧ ContributorData.newContributors d = 0%nat.
Proof.
  intros commit w startDate endDate w1.
  assert (H1 : GitHubCommit.author commit = None) by reflexivity.
  assert (H2 : fetchedWindow defaultConfig "acme" "widgets" startDate endDate
                 w [commit] w1).
  { exists "2021-06-01T00:00:00.000Z", "2021-06-30T23:59:59.000Z".
    split_and!; vm_compute; reflexivity. }
  split; [exact H1|]. split; [exact H2|]. split.
  - exact (proj1 absent_login_excluded commit H1).
  - exact (proj1 (proj2 (proj2 absent_login_excluded)) defaultConfig "acme"
             "widgets" "2021" (Some "6") startDate endDate ∅ w commit w1 H1 H2).
Defined.

(** ** The baseline fetch *)

Lemma gt_irrefl d : JSDate.gt d d = false.
Proof. destruct d as [x|]; [apply Z.ltb_irrefl | done]. Qed.

(** C7.  When the clamped start is the creation date of the repository,
    the block that collects the earlier contributors returns the empty set
    and leaves the world as it was: no request leaves and the cache is not
    read.  The analysis then goes from the repository lookup straight to the
    window of the period, with no earlier contributors. *)
Theorem baseline_skipped :
  (∀ cfg org repo startDate repoCreatedAt w,
     clampStart startDate repoCreatedAt = repoCreatedAt →
     contributorsBefore cfg org repo repoCreatedAt
       (clampStart startDate repoCreatedAt) w = (Val ∅, w))
  ∧ (∀ cfg org repo year month w repository w1,
       getRepository cfg org repo w = (Val repository, w1) →
       let repoCreatedAt :=
         JSDate.parse (timeZone cfg) (otherDates cfg) (Repository.created_at repository) in
       clampStart (period cfg year month).1 repoCreatedAt = repoCreatedAt →
       analyze cfg org repo year month w
       = countNew cfg org repo year month repoCreatedAt (period cfg year month).2
           ∅ w1).
Proof.
  assert (Hskip : ∀ cfg org repo startDate repoCreatedAt w,
     clampStart startDate repoCreatedAt = repoCreatedAt →
     contributorsBefore cfg org repo repoCreatedAt
       (clampStart startDate repoCreatedAt) w = (Val ∅, w)).
  { intros cfg org repo startDate repoCreatedAt w ->.
    unfold contributorsBefore. by rewrite gt_irrefl. }
  split; [exact Hskip|].
  intros cfg org repo year month w repository w1 Hrepo repoCreatedAt Hclamp.
  unfold analyze. rewrite (bind_run_val _ _ _ _ _ Hrepo).
  fold repoCreatedAt.
  destruct (period cfg year month) as [startDate endDate]. cbn [fst snd] in *.
  rewrite (bind_run_val _ _ _ _ _ (Hskip cfg org repo _ _ w1 Hclamp)).
  by rewrite Hclamp.
Qed.

Lemma baseline_skipped_witness :
  let cfg := defaultConfig in
  let created := JSDate.readISO 0 "2021-06-10T08:30:00Z" in
  let startDate := (period cfg "2021" (Some "6")).1 in
  clampStart startDate created = created
  ∧ contributorsBefore cfg "acme" "widgets" created (clampStart startDate created)
      Scenario.juneWorld = (Val ∅, Scenario.juneWorld).
Proof.
  intros cfg created startDate.
  assert (H : clampStart startDate created = created) by (vm_compute; reflexivity).
  split; [exact H|].
  exact (proj1 baseline_skipped cfg "acme" "widgets" startDate created
           Scenario.juneWorld H).
Defined.

(** ** The result entry *)

Section ResultEntry.
Variable cfg : Config.

Lemma toISOString_same d w res w' : toISOString d w = (res, w') → w' = w.
Proof.
  unfold toISOString. destruct (JSDate.toISOString d); unfold_monad; congruence.
Qed.

Lemma getAllCommitsPaginated_kept org repo since until w res w' org' repo' year month :
  getAllCommitsPaginated cfg org repo since until w = (res, w') →
  kept (contributorsKey org' repo' year month) w w'.
Proof.
  unfold getAllCommitsPaginated. apply pages_kept. intros p E.
  by eapply commitsKey_not_contributorsKey.
Qed.

Lemma contributorsBefore_kept org repo repoCreatedAt startDate w res w' org' repo' year month :
  contributorsBefore cfg org repo repoCreatedAt startDate w = (res, w') →
  kept (contributorsKey org' repo' year month) w w'.
Proof.
  unfold contributorsBefore.
  destruct (JSDate.gt startDate repoCreatedAt);
    [|unfold_monad; intros [= _ <-]; apply kept_refl].
  unfold mbind, M_bind, bind.
  destruct (toISOString repoCreatedAt w) as [[since|e] w1] eqn:E1;
    apply toISOString_same in E1 as ->; [|intros [= _ <-]; apply kept_refl].
  destruct (toISOString startDate w) as [[until|e] w1] eqn:E2;
    apply toISOString_same in E2 as ->; [|intros [= _ <-]; apply kept_refl].
  destruct (getAllCommitsPaginated cfg org repo since until w)
    as [[commits|e] w1] eqn:E3;
    apply (getAllCommitsPaginated_kept _ _ _ _ _ _ _ org' repo' year month) in E3;
    unfold_monad; intros [= _ <-]; exact E3.
Qed.

Lemma countNew_exc_kept org repo year month startDate endDate existing w e w'
    org' repo' year' month' :
  countNew cfg org repo year month startDate endDate existing w = (Exc e, w') →
  kept (contributorsKey org' repo' year' month') w w'.
Proof.
  unfold countNew. unfold mbind, M_bind, bind.
  destruct (toISOString startDate w) as [[since|e1] w1] eqn:E1;
    apply toISOString_same in E1 as ->; [|intros [= _ <-]; apply kept_refl].
  destruct (toISOString endDate w) as [[until|e2] w1] eqn:E2;
    apply toISOString_same in E2 as ->; [|intros [= _ <-]; apply kept_refl].
  destruct (getAllCommitsPaginated cfg org repo since until w)
    as [[commits|e3] w1] eqn:E3;
    apply (getAllCommitsPaginated_kept _ _ _ _ _ _ _ org' repo' year' month') in E3;
    [|intros [= _ <-]; exact E3].
  destruct (foldl addNew (existing, ∅) commits). unfold_monad. discriminate.
Qed.

Lemma analyze_exc_kept org repo year month w e w' :
  analyze cfg org repo year month w = (Exc e, w') →
  kept (contributorsKey org repo year month) w w'.
Proof.
  unfold analyze. intros H.
  apply bind_exc in H as [H|(repository & w1 & H1 & H)].
  { eapply getRepository_kept; [exact H|]. intros E.
    symmetry in E. by eapply repoKey_not_contributorsKey. }
  assert (kept (contributorsKey org repo year month) w w1) as K1.
  { eapply getRepository_kept; [exact H1|]. intros E.
    symmetry in E. by eapply repoKey_not_contributorsKey. }
  destruct (period cfg year month) as [startDate endDate].
  apply bind_exc in H as [H|(existing & w2 & H2 & H)].
  { eapply kept_trans; [exact K1|]. by eapply contributorsBefore_kept. }
  eapply kept_trans; [exact K1|].
  eapply kept_trans; [by eapply contributorsBefore_kept|].
  by eapply countNew_exc_kept.
Qed.

(** What a run of the service that returns a value went through: a hit on
    a live entry, or an analysis that stored its result. *)
Lemma getNewContributorsByMonth_val org repo year month w d w' :
  getNewContributorsByMonth cfg org repo year month w = (Val d, w') →
  ∃ e, cache w' !! contributorsKey org repo year month = Some e
       ∧ v e = VContributors d.
Proof.
  unfold getNewContributorsByMonth.
  destruct (cache_get_result (contributorsKey org repo year month) w)
    as (o & w0 & E & _ & _ & _ & _ & _ & _ & _ & _ & Hhit).
  rewrite (bind_run_val _ _ _ _ _ E).
  assert (Hmiss :
    try_catch (analyze cfg org repo year month)
      (λ error,
         throw (JSError.Error
                  ("Failed to analyze contributors: " +:+ JSError.message error)))
      w0 = (Val d, w') →
    ∃ e, cache w' !! contributorsKey org repo year month = Some e
         ∧ v e = VContributors d).
  { unfold try_catch, throw.
    destruct (analyze cfg org repo year month w0) as [[d0|err] w1] eqn:A;
      [|discriminate].
    intros [= -> ->].
    apply analyze_val in A as (? & ? & ? & ? & ? & w3 & _ & _ & _ & _ & ->).
    eexists. cbn. rewrite lookup_insert_eq. split; reflexivity. }
  destruct o as [[r|cs|d0]|]; try exact Hmiss.
  unfold_monad. intros [= -> ->].
  destruct (Hhit _ eq_refl) as (-> & e & He & Hv & _). eauto.
Qed.

End ResultEntry.

(** C5.  A query whose result is in the cache and has not expired returns
    the cached result and leaves the world as it was: no request leaves.
    Hence, once a query has returned a result, the same query asked again
    while that entry is unexpired returns the same result without any
    request; so it is for [contributors:airbnb:javascript:2023:all] holding a
    count of 15. *)
Theorem repeated_query_cached :
  (∀ cfg org repo year month w e d,
     cache w !! contributorsKey org repo year month = Some e →
     v e = VContributors d →
     t e = 0 ∨ now w ≤ t e →
     getNewContributorsByMonth cfg org repo year month w = (Val d, w))
  ∧ (∀ cfg org repo year month w d w1,
       getNewContributorsByMonth cfg org repo year month w = (Val d, w1) →
       ∃ e, cache w1 !! contributorsKey org repo year month = Some e
            ∧ ∀ w2, cache w2 !! contributorsKey org repo year month = Some e →
                    t e = 0 ∨ now w2 ≤ t e →
                    getNewContributorsByMonth cfg org repo year month w2 = (Val d, w2))
  ∧ (∀ cfg w e,
       cache w !! "contributors:airbnb:javascript:2023:all" = Some e →
       v e = VContributors (Scenario.result "airbnb" "javascript" "2023" None 15) →
       t e = 0 ∨ now w ≤ t e →
       getNewContributorsByMonth cfg "airbnb" "javascript" "2023" None w
       = (Val (Scenario.result "airbnb" "javascript" "2023" None 15), w)).
Proof.
  assert (Hhit : ∀ cfg org repo year month w e d,
     cache w !! contributorsKey org repo year month = Some e →
     v e = VContributors d →
     t e = 0 ∨ now w ≤ t e →
     getNewContributorsByMonth cfg org repo year month w = (Val d, w)).
  { intros cfg org repo year month w e d He Hv Hlive.
    unfold getNewContributorsByMonth.
    rewrite (bind_run_val _ _ _ _ _ (cache_get_hit _ _ _ He Hlive)).
    by rewrite Hv. }
  split_and!.
  - exact Hhit.
  - intros cfg org repo year month w d w1 Hrun.
    apply getNewContributorsByMonth_val in Hrun as (e & He & Hv).
    exists e. split; [done|]. intros w2 Hc Hlive.
    by apply (Hhit _ _ _ _ _ _ e).
  - intros cfg w e He Hv Hlive.
    by apply (Hhit cfg "airbnb" "javascript" "2023" None w e).
Qed.

Lemma repeated_query_cached_witness :
  let d := Scenario.result "airbnb" "javascript" "2023" None 15 in
  let e := {| v := VContributors d; t := 1700086400000 |} in
  let w := set_cache {[ "contributors:airbnb:javascript:2023:all" := e ]}
             (Scenario.fresh []) in
  cache w !! contributorsKey "airbnb" "javascript" "2023" None = Some e
  ∧ v e = VContributors d
  ∧ (t e = 0 ∨ now w ≤ t e)
  ∧ getNewContributorsByMonth defaultConfig "airbnb" "javascript" "2023" None w
    = (Val d, w).
Proof.
  intros d e w.
  assert (H1 : cache w !! contributorsKey "airbnb" "javascript" "2023" None = Some e)
    by (vm_compute; reflexivity).
  assert (H2 : v e = VContributors d) by reflexivity.
  assert (H3 : t e = 0 ∨ now w ≤ t e) by (right; vm_compute; discriminate).
  split; [exact H1|]. split; [exact H2|]. split; [exact H3|].
  exact (proj1 repeated_query_cached defaultConfig "airbnb" "javascript" "2023"
           None w e d H1 H2 H3).
Defined.

(** ** Failures *)

(** C8.  Whenever the service throws, the error is the one the [try] block
    ended with, wrapped as ["Failed to analyze contributors: ..."], and the
    cache holds no analysis result under the key of the query.  On a miss, a
    failure of the repository lookup, of the collection of the earlier
    contributors or of the count of the period ends the service with that
    error wrapped; a failure of the fetch of a window is a failure of the
    step that asked for it.  For a repository the platform does not know the
    message is ["Failed to analyze contributors: Repository acme/widgets not
    found"] and the key is absent. *)
Theorem analysis_failure_wrapped :
  (∀ cfg org repo year month w error w',
     getNewContributorsByMonth cfg org repo year month w = (Exc error, w') →
     (∃ w0 cause,
        analyze cfg org repo year month w0 = (Exc cause, w')
        ∧ error = wrapped cause)
     ∧ (∀ e d, cache w' !! contributorsKey org repo year month = Some e →
               v e ≠ VContributors d))
  ∧ (∀ cfg org repo year month w w0,
       cache_get (contributorsKey org repo year month) w = (Val None, w0) →
       (∀ cause w1,
          getRepository cfg org repo w0 = (Exc cause, w1) →
          getNewContributorsByMonth cfg org repo year month w
          = (Exc (wrapped cause), w1))
       ∧ (∀ repository w1 existing w2 cause w3,
            getRepository cfg org repo w0 = (Val repository, w1) →
            let repoCreatedAt :=
              JSDate.parse (timeZone cfg) (otherDates cfg) (Repository.created_at repository) in
            let startDate := clampStart (period cfg year month).1 repoCreatedAt in
            let endDate := (period cfg year month).2 in
            (contributorsBefore cfg org repo repoCreatedAt startDate w1
             = (Exc cause, w3) →
             getNewContributorsByMonth cfg org repo year month w
             = (Exc (wrapped cause), w3))
            ∧ (contributorsBefore cfg org repo repoCreatedAt startDate w1
               = (Val existing, w2) →
               countNew cfg org repo year month startDate endDate existing w2
               = (Exc cause, w3) →
               getNewContributorsByMonth cfg org repo year month w
               = (Exc (wrapped cause), w3))))
  ∧ (∀ cfg org repo since until w cause w',
       getAllCommitsPaginated cfg org repo since until w = (Exc cause, w') →
       (∀ repoCreatedAt startDate,
          JSDate.gt startDate repoCreatedAt = true →
          JSDate.toISOString repoCreatedAt = Some since →
          JSDate.toISOString startDate = Some until →
          contributorsBefore cfg org repo repoCreatedAt startDate w
          = (Exc cause, w'))
       ∧ (∀ year month startDate endDate existing,
            JSDate.toISOString startDate = Some since →
            JSDate.toISOString endDate = Some until →
            countNew cfg org repo year month startDate endDate existing w
            = (Exc cause, w')))
  ∧ (∃ w',
       getNewContributorsByMonth defaultConfig "acme" "widgets" "2021" (Some "6")
         (Scenario.fresh [notFound])
       = (Exc (JSError.Error
                 "Failed to analyze contributors: Repository acme/widgets not found"),
          w')
       ∧ cache w' !! contributorsKey "acme" "widgets" "2021" (Some "6") = None).
Proof.
  split_and!.
  - intros cfg org repo year month w error w' Hrun.
    unfold getNewContributorsByMonth in Hrun.
    destruct (cache_get_result (contributorsKey org repo year month) w)
      as (o & w0 & E & _ & _ & _ & _ & _ & _ & _ & Hnone & Hhit).
    rewrite (bind_run_val _ _ _ _ _ E) in Hrun.
    assert (Hmiss :
      try_catch (analyze cfg org repo year month)
        (λ error,
           throw (JSError.Error
                    ("Failed to analyze contributors: " +:+ JSError.message error)))
        w0 = (Exc error, w') →
      ∃ cause, analyze cfg org repo year month w0 = (Exc cause, w')
               ∧ error = wrapped cause).
    { unfold try_catch, throw.
      destruct (analyze cfg org repo year month w0) as [[d0|err] w1];
        [discriminate|].
      intros [= <- <-]. by exists err. }
    destruct o as [[r|cs|d0]|].
    + destruct (Hmiss Hrun) as (cause & A & ->). split; [eauto|].
      destruct (Hhit _ eq_refl) as (-> & e0 & He0 & Hv0 & _).
      intros e d He. apply analyze_exc_kept in A as [A|A]; [|congruence].
      rewrite A, He0 in He. injection He as <-. by rewrite Hv0.
    + destruct (Hmiss Hrun) as (cause & A & ->). split; [eauto|].
      destruct (Hhit _ eq_refl) as (-> & e0 & He0 & Hv0 & _).
      intros e d He. apply analyze_exc_kept in A as [A|A]; [|congruence].
      rewrite A, He0 in He. injection He as <-. by rewrite Hv0.
    + unfold_monad. discriminate.
    + destruct (Hmiss Hrun) as (cause & A & ->). split; [eauto|].
      intros e d He. apply analyze_exc_kept in A.
      apply kept_absent in A; [congruence | by apply Hnone].
  - intros cfg org repo year month w w0 Hget.
    rewrite (getNewContributorsByMonth_miss _ _ _ _ _ _ _ Hget). split.
    + intros cause w1 Hrepo. unfold analyze.
      by rewrite (bind_run_exc _ _ _ _ _ Hrepo).
    + intros repository w1 existing w2 cause w3 Hrepo. cbn zeta.
      unfold analyze. rewrite (bind_run_val _ _ _ _ _ Hrepo).
      destruct (period cfg year month) as [startDate endDate]. cbn [fst snd].
      split.
      * intros Hbefore. by rewrite (bind_run_exc _ _ _ _ _ Hbefore).
      * intros Hbefore Hcount. rewrite (bind_run_val _ _ _ _ _ Hbefore).
        by rewrite Hcount.
  - intros cfg org repo since until w cause w' Hfetch. split.
    + intros repoCreatedAt startDate Hgt H1 H2. unfold contributorsBefore.
      rewrite Hgt.
      rewrite (bind_run_val _ _ _ _ _ (toISOString_run _ _ _ H1)).
      rewrite (bind_run_val _ _ _ _ _ (toISOString_run _ _ _ H2)).
      by rewrite (bind_run_exc _ _ _ _ _ Hfetch).
    + intros year month startDate endDate existing H1 H2. unfold countNew.
      rewrite (bind_run_val _ _ _ _ _ (toISOString_run _ _ _ H1)).
      rewrite (bind_run_val _ _ _ _ _ (toISOString_run _ _ _ H2)).
      by rewrite (bind_run_exc _ _ _ _ _ Hfetch).
  - eexists. split; vm_compute; reflexivity.
Qed.

Lemma analysis_failure_wrapped_witness :
  let run :=
    getNewContributorsByMonth defaultConfig "acme" "widgets" "2021" (Some "6")
      (Scenario.fresh []) in
  let error :=
    JSError.Error
      "Failed to analyze contributors: Failed to fetch repository: timeout of 30000ms exceeded" in
  run = (Exc error, run.2)
  ∧ (∃ w0 cause,
       analyze defaultConfig "acme" "widgets" "2021" (Some "6") w0
       = (Exc cause, run.2)
       ∧ error = wrapped cause)
  ∧ (∀ e d, cache run.2 !! contributorsKey "acme" "widgets" "2021" (Some "6") = Some e →
            v e ≠ VContributors d).
Proof.
  intros run error.
  assert (H : run = (Exc error, run.2)) by (vm_compute; reflexivity).
  split; [exact H|].
  exact (proj1 analysis_failure_wrapped defaultConfig "acme" "widgets" "2021"
           (Some "6") (Scenario.fresh []) error run.2 H).
Defined.

(** ** Empty repositories *)

Lemma fetchCommits_calls cfg org repo since until page w :
  ∃ n, calls (fetchCommits cfg org repo since until page w).2
       = calls w ++ replicate (S n) (pageRequest org repo since until page).
Proof.
  unfold fetchCommits, client_get, pageRequest. unfold_monad.
  destruct (request_frame cfg
              (λ r, on_commits r org repo (param since) (param until) page 100)
              (GetCommits org repo (param since) (param until) page 100)
              (upstream w) w)
    as (r & w2 & n & -> & _ & _ & Hl).
  exists n. destruct r as [commits|error]; [done|].
  by repeat destruct (bool_decide _).
Qed.

(** C10.  On a miss, when the request for a page ends with status 409,
    [getCommits] returns the empty list without throwing and the key of the
    page is absent from the cache afterwards; and whenever the key of a page
    is absent, [getCommits] sends its request to the platform.  A request
    that succeeds, in contrast, leaves the page in the cache under its key,
    and a page that is in the cache and has not expired is returned without
    any request.  For a platform that answers 409 twice, two calls for the
    same page send two requests and the cache stays empty. *)
Theorem empty_repository_not_cached :
  (∀ cfg org repo since until page w w0 error w1,
     cache_get (commitsKey org repo since until page) w = (Val None, w0) →
     client_get cfg (λ r, on_commits r org repo (param since) (param until) page 100)
       (pageRequest org repo since until page) w0 = (Exc error, w1) →
     JSError.status error = Some 409 →
     getCommits cfg org repo since until page w = (Val [], w1)
     ∧ cache w1 !! commitsKey org repo since until page = None)
  ∧ (∀ cfg org repo since until page w,
       cache w !! commitsKey org repo since until page = None →
       ∃ n, calls (getCommits cfg org repo since until page w).2
            = calls w ++ replicate (S n) (pageRequest org repo since until page))
  ∧ (∀ cfg org repo since until page w w0 commits w1,
       cache_get (commitsKey org repo since until page) w = (Val None, w0) →
       client_get cfg (λ r, on_commits r org repo (param since) (param until) page 100)
         (pageRequest org repo since until page) w0 = (Val commits, w1) →
       ∃ w2 e,
         getCommits cfg org repo since until page w = (Val commits, w2)
         ∧ cache w2 !! commitsKey org repo since until page = Some e
         ∧ v e = VCommits commits)
  ∧ (∀ cfg org repo since until page w e commits,
       cache w !! commitsKey org repo since until page = Some e →
       v e = VCommits commits →
       t e = 0 ∨ now w ≤ t e →
       getCommits cfg org repo since until page w = (Val commits, w))
  ∧ (let since := Some "2021-06-01T00:00:00.000Z" in
     let until := Some "2021-06-30T23:59:59.000Z" in
     let first :=
       getCommits defaultConfig "acme" "widgets" since until 1
         (Scenario.fresh [emptyRepository; emptyRepository]) in
     let second := getCommits defaultConfig "acme" "widgets" since until 1 first.2 in
     first.1 = Val [] ∧ second.1 = Val []
     ∧ calls second.2 = [pageRequest "acme" "widgets" since until 1;
                         pageRequest "acme" "widgets" since until 1]
     ∧ cache second.2 = ∅).
Proof.
  split_and!.
  - intros cfg org repo since until page w w0 error w1 Hget Hreq H409.
    destruct (cache_get_result (commitsKey org repo since until page) w)
      as (o & w0' & E & _ & _ & _ & _ & _ & _ & _ & Hnone & _).
    rewrite Hget in E. injection E as <- <-.
    unfold getCommits. rewrite (bind_run_val _ _ _ _ _ Hget).
    unfold fetchCommits, pageRequest in *. unfold_monad. rewrite Hreq.
    rewrite H409. cbn. split; [done|].
    unfold client_get in Hreq.
    destruct (request_frame cfg
                (λ r, on_commits r org repo (param since) (param until) page 100)
                (GetCommits org repo (param since) (param until) page 100)
                (upstream w0) w0)
      as (r & w2 & n & E & Hc & _ & _).
    rewrite Hreq in E. injection E as <- <-. rewrite Hc. by apply Hnone.
  - intros cfg org repo since until page w Hnone.
    unfold getCommits.
    rewrite (bind_run_val _ _ _ _ _ (cache_get_absent _ _ Hnone)).
    apply fetchCommits_calls.
  - intros cfg org repo since until page w w0 commits w1 Hget Hreq.
    unfold getCommits. rewrite (bind_run_val _ _ _ _ _ Hget).
    unfold fetchCommits, pageRequest in *. unfold_monad. rewrite Hreq.
    eexists _, _. split; [reflexivity|]. cbn. rewrite lookup_insert_eq.
    split; reflexivity.
  - intros cfg org repo since until page w e commits He Hv Hlive.
    unfold getCommits.
    rewrite (bind_run_val _ _ _ _ _ (cache_get_hit _ _ _ He Hlive)).
    by rewrite Hv.
  - cbn zeta. split_and!; vm_compute; reflexivity.
Qed.

Lemma empty_repository_not_cached_witness :
  let since := Some "2021-06-01T00:00:00.000Z" in
  let until := Some "2021-06-30T23:59:59.000Z" in
  let w := Scenario.fresh [emptyRepository] in
  let run :=
    client_get defaultConfig
      (λ r, on_commits r "acme" "widgets" (param since) (param until) 1 100)
      (pageRequest "acme" "widgets" since until 1) w in
  let error :=
    {| JSError.status := Some 409; JSError.ratelimit_remaining := None;
       JSError.ratelimit_reset := None; JSError.code := Some "ERR_BAD_REQUEST";
       JSError.message := "Request failed with status code 409" |} in
  cache_get (commitsKey "acme" "widgets" since until 1) w = (Val None, w)
  ∧ run = (Exc error, run.2)
  ∧ JSError.status error = Some 409
  ∧ getCommits defaultConfig "acme" "widgets" since until 1 w = (Val [], run.2)
  ∧ cache run.2 !! commitsKey "acme" "widgets" since until 1 = None.
Proof.
  intros since until w run error.
  assert (H1 : cache_get (commitsKey "acme" "widgets" since until 1) w = (Val None, w))
    by (vm_compute; reflexivity).
  assert (H2 : run = (Exc error, run.2)) by (vm_compute; reflexivity).
  assert (H3 : JSError.status error = Some 409) by reflexivity.
  split; [exact H1|]. split; [exact H2|]. split; [exact H3|].
  exact (proj1 empty_repository_not_cached defaultConfig "acme" "widgets" since
           until 1 w w error run.2 H1 H2 H3).
Defined.

(** ** Pages served by the platform *)

Section Served.
Variable cfg : Config.

Lemma commitsKey_page_inj org repo since until p p' :
  commitsKey org repo since until p = commitsKey org repo since until p' → p = p'.
Proof.
  unfold commitsKey. intros H.
  repeat (apply String.app_inj in H). by apply pretty_Z_inj in H.
Qed.

(** A page that is not in the cache and that the platform serves at once:
    one request leaves, the page is stored under its key and returned. *)
Lemma getCommits_served org repo since until page w r rest commits remaining :
  cache w !! commitsKey org repo since until page = None →
  upstream w = r :: rest →
  on_commits r org repo (param since) (param until) page 100 = Ok commits remaining →
  ∃ w', getCommits cfg org repo since until page w = (Val commits, w')
        ∧ upstream w' = rest
        ∧ calls w' = calls w ++ [pageRequest org repo since until page]
        ∧ ∀ k, k ≠ commitsKey org repo since until page →
               cache w' !! k = cache w !! k.
Proof.
  intros Hcold Hup Hans. unfold getCommits.
  rewrite (bind_run_val _ _ _ _ _ (cache_get_absent _ _ Hcold)).
  unfold fetchCommits, client_get. unfold_monad. rewrite Hup. cbn [request].
  destruct (requestInterceptor_frame cfg w) as (w1 & -> & Hc & Hu & Hl).
  rewrite Hans.
  destruct (responseInterceptor_frame remaining
              (dispatched (GetCommits org repo (param since) (param until) page 100)
                 rest w1))
    as (w2 & E & Hc2 & Hu2 & Hl2).
  unfold_monad. rewrite E. cbn.
  eexists. split; [reflexivity|]. cbn. rewrite Hc2, Hu2, Hl2. cbn.
  rewrite Hc, Hl. split_and!; try done.
  intros k Hk. by rewrite lookup_insert_ne.
Qed.

End Served.

Lemma servesFull_tail org repo since until first r rest n :
  servesFull org repo since until first (r :: rest) (S n) →
  servesFull org repo since until (first + 1) rest n.
Proof.
  intros [Hlen Hserves]. split; [cbn in Hlen; lia|].
  intros i r' Hi Hr'.
  destruct (Hserves (S i) r') as (commits & remaining & Hans & Hfull);
    [lia | done |].
  exists commits, remaining.
  by replace (first + 1 + Z.of_nat i) with (first + Z.of_nat (S i)) by lia.
Qed.

Section Cap.
Variable cfg : Config.

(** From page [1001 - n] on, [n] full pages take the loop to the limit. *)
Lemma pages_to_limit org repo since until (n : nat) :
  ∀ page allCommits w,
    page = 1001 - Z.of_nat n → (1 ≤ n)%nat → 1 ≤ page →
    servesFull org repo since until page (upstream w) n →
    (∀ p, page ≤ p → cache w !! commitsKey org repo (Some since) (Some until) p = None) →
    ∃ commits w',
      pages cfg org repo since until page allCommits w
      = (Val (allCommits ++ commits), print (WarnMaxPageLimit org repo) w')
      ∧ length commits = (100 * n)%nat
      ∧ upstream w' = drop n (upstream w)
      ∧ calls w' = calls w
                   ++ (pageRequest org repo (Some since) (Some until)
                       <$> seqZ page (Z.of_nat n)).
Proof.
  induction n as [|m IH]; intros page allCommits w Hpage Hn Hfirst Hserves Hcold;
    [lia|].
  destruct (upstream w) as [|r rest] eqn:Hup;
    [destruct Hserves as [Hlen _]; cbn in Hlen; lia|].
  destruct (proj2 Hserves 0%nat r) as (commits & remaining & Hans & Hfull);
    [lia | done |].
  rewrite Z.add_0_r in Hans.
  destruct (getCommits_served cfg org repo (Some since) (Some until) page w r rest
              commits remaining) as (w1 & Hrun & Hup1 & Hcalls1 & Hcache1);
    [by apply Hcold; lia | done | done |].
  rewrite pages_round, Hrun.
  destruct (decide (length commits = 0%nat)) as [Hz|_]; [lia|].
  rewrite bool_decide_eq_false_2 by lia. cbn [negb].
  destruct m as [|m].
  - destruct (decide (page + 1 > 1000)) as [_|Hle]; [|lia].
    exists commits, w1. split_and!; try done; lia.
  - destruct (decide (page + 1 > 1000)) as [Hgt|_]; [lia|].
    destruct (IH (page + 1) (allCommits ++ commits) w1)
      as (more & w' & Hrest & Hlen & Hup' & Hcalls'); [lia | lia | lia | | |].
    { rewrite Hup1. by eapply servesFull_tail. }
    { intros p Hp. rewrite Hcache1; [apply Hcold; lia|].
      intros E. apply commitsKey_page_inj in E. lia. }
    exists (commits ++ more), w'. rewrite Hrest, app_assoc.
    split_and!; try done.
    + rewrite length_app. lia.
    + by rewrite Hup', Hup1.
    + rewrite Hcalls', Hcalls1, <- app_assoc. f_equal.
      rewrite (seqZ_cons page) by lia. cbn. do 3 f_equal; lia.
Qed.

Lemma getCommits_calls org repo since until page w :
  ∃ k, calls (getCommits cfg org repo since until page w).2
       = calls w ++ replicate k (pageRequest org repo since until page).
Proof.
  unfold getCommits.
  destruct (cache_get_result (commitsKey org repo since until page) w)
    as (o & w0 & E & _ & _ & Hcalls & _).
  rewrite (bind_run_val _ _ _ _ _ E), <- Hcalls.
  destruct o as [[r|cs|d]|];
    try (destruct (fetchCommits_calls cfg org repo since until page w0) as [n Hn];
         by exists (S n)).
  exists 0%nat. unfold_monad. cbn. by rewrite app_nil_r.
Qed.

Lemma replicate_sorted k (p : Z) : StronglySorted Z.le (replicate k p).
Proof.
  induction k as [|k IH]; cbn; constructor; [done|].
  apply Forall_replicate. lia.
Qed.

(** The requests of the loop: pages from [page] to 1000 at most, asked in
    rising order (a page is asked again only when its request is resent). *)
Lemma pages_requests org repo since until page :
  page ≤ 1000 →
  ∀ allCommits w,
    ∃ asked,
      calls (pages cfg org repo since until page allCommits w).2
      = calls w ++ (pageRequest org repo (Some since) (Some until) <$> asked)
      ∧ Forall (λ p, page ≤ p ≤ 1000) asked
      ∧ StronglySorted Z.le asked.
Proof.
  induction page as [page IH] using pages_induction.
  intros Hpage allCommits w. rewrite pages_round.
  destruct (getCommits_calls org repo (Some since) (Some until) page w)
    as [k Hk].
  assert (Hround :
    calls w ++ replicate k (pageRequest org repo (Some since) (Some until) page)
    = calls w ++ (pageRequest org repo (Some since) (Some until)
                  <$> replicate k page)) by (by rewrite fmap_replicate).
  assert (Hstop : ∀ w1,
    calls w1 = calls w ++ replicate k (pageRequest org repo (Some since)
                                         (Some until) page) →
    ∃ asked,
      calls w1 = calls w ++ (pageRequest org repo (Some since) (Some until)
                             <$> asked)
      ∧ Forall (λ p, page ≤ p ≤ 1000) asked ∧ StronglySorted Z.le asked).
  { intros w1 H. exists (replicate k page). split_and!.
    - by rewrite H.
    - apply Forall_replicate. lia.
    - apply replicate_sorted. }
  destruct (getCommits cfg org repo (Some since) (Some until) page w)
    as [[commits|e] w1]; cbn [snd] in Hk; [|by apply Hstop].
  destruct (decide (length commits = 0%nat)).
  { destruct (decide (page > 1000)); by apply Hstop. }
  destruct (decide (page + 1 > 1000)); [by apply Hstop|].
  destruct (negb _); [|by apply Hstop].
  destruct (IH (page + 1) ltac:(lia) ltac:(lia) (allCommits ++ commits) w1)
    as (asked & Hcalls & Hrange & Hsorted).
  exists (replicate k page ++ asked). split_and!.
  - rewrite Hcalls, Hk, Hround, fmap_app. by rewrite app_assoc.
  - apply Forall_app_2; [apply Forall_replicate; lia|].
    eapply Forall_impl; [exact Hrange|]. cbn. lia.
  - apply StronglySorted_app. split_and!; [|apply replicate_sorted|done].
    intros x1 x2 H1 H2. apply elem_of_replicate_inv in H1 as ->.
    rewrite Forall_forall in Hrange. specialize (Hrange x2 H2). cbn in Hrange.
    lia.
Qed.

End Cap.

(** C3.  The loop starts at page 1 and asks for one page after the other,
    100 commits a page.  A round that gets an empty page returns what was
    gathered; a round below page 1000 that gets a page short of 100 returns
    with that page appended, and one that gets 100 or more goes on with the
    next page; the round of page 1000 appends its page, warns when the page
    is not empty, and returns without asking again; a failure of a page is
    the failure of the loop.  Being defined by recursion on the pages left
    below the limit, the loop returns whenever its page requests do (as
    they all do here, where the answers of the platform are a finite list),
    and the requests it sends are for pages between 1 and 1000, in rising
    order.  When the platform
    serves pages of 100, 100 and 37 commits, three requests leave, for the
    pages 1, 2 and 3, and 237 commits come back; when it serves 1000 pages of
    100, exactly 1000 requests leave, for the pages 1 to 1000, and the
    100000 commits come back with the warning, which is then the last line
    of the console, as every line printed is when it is printed. *)
Theorem pagination_stops :
  (∀ cfg org repo since until w,
     getAllCommitsPaginated cfg org repo since until w
     = pages cfg org repo since until 1 [] w)
  ∧ (∀ cfg org repo since until page allCommits w,
       page ≤ 1000 →
       (∀ e w1,
          getCommits cfg org repo (Some since) (Some until) page w = (Exc e, w1) →
          pages cfg org repo since until page allCommits w = (Exc e, w1))
       ∧ (∀ w1,
            getCommits cfg org repo (Some since) (Some until) page w = (Val [], w1) →
            pages cfg org repo since until page allCommits w = (Val allCommits, w1))
       ∧ (∀ commits w1,
            getCommits cfg org repo (Some since) (Some until) page w
            = (Val commits, w1) →
            (0 < length commits < 100)%nat →
            pages cfg org repo since until page allCommits w
            = (Val (allCommits ++ commits),
               if decide (page = 1000)
               then print (WarnMaxPageLimit org repo) w1 else w1))
       ∧ (∀ commits w1,
            getCommits cfg org repo (Some since) (Some until) page w
            = (Val commits, w1) →
            (100 ≤ length commits)%nat →
            pages cfg org repo since until page allCommits w
            = if decide (page = 1000)
              then (Val (allCommits ++ commits),
                    print (WarnMaxPageLimit org repo) w1)
              else pages cfg org repo since until (page + 1)
                     (allCommits ++ commits) w1))
  ∧ (∀ cfg org repo since until w r1 r2 r3 rest c1 c2 c3 m1 m2 m3,
       upstream w = r1 :: r2 :: r3 :: rest →
       (∀ p, cache w !! commitsKey org repo (Some since) (Some until) p = None) →
       on_commits r1 org repo (param (Some since)) (param (Some until)) 1 100
       = Ok c1 m1 →
       on_commits r2 org repo (param (Some since)) (param (Some until)) 2 100
       = Ok c2 m2 →
       on_commits r3 org repo (param (Some since)) (param (Some until)) 3 100
       = Ok c3 m3 →
       length c1 = 100%nat → length c2 = 100%nat → length c3 = 37%nat →
       ∃ w',
         getAllCommitsPaginated cfg org repo since until w
         = (Val (c1 ++ c2 ++ c3), w')
         ∧ length (c1 ++ c2 ++ c3) = 237%nat
         ∧ upstream w' = rest
         ∧ calls w' = calls w
                      ++ [pageRequest org repo (Some since) (Some until) 1;
                          pageRequest org repo (Some since) (Some until) 2;
                          pageRequest org repo (Some since) (Some until) 3])
  ∧ (∀ cfg org repo since until w,
       servesFull org repo since until 1 (upstream w) 1000 →
       (∀ p, cache w !! commitsKey org repo (Some since) (Some until) p = None) →
       ∃ commits w',
         getAllCommitsPaginated cfg org repo since until w
         = (Val commits, print (WarnMaxPageLimit org repo) w')
         ∧ length commits = (100 * 1000)%nat
         ∧ upstream w' = drop 1000 (upstream w)
         ∧ calls w' = calls w
                      ++ (pageRequest org repo (Some since) (Some until)
                          <$> seqZ 1 1000)
         ∧ console (getAllCommitsPaginated cfg org repo since until w).2
           = console w' ++ [WarnMaxPageLimit org repo]
         ∧ last (console (getAllCommitsPaginated cfg org repo since until w).2)
           = Some (WarnMaxPageLimit org repo))
  ∧ (∀ cfg org repo since until w,
       ∃ asked,
         calls (getAllCommitsPaginated cfg org repo since until w).2
         = calls w ++ (pageRequest org repo (Some since) (Some until) <$> asked)
         ∧ Forall (λ p, 1 ≤ p ≤ 1000) asked
         ∧ StronglySorted Z.le asked)
  ∧ (∀ l w, console (print l w) = console w ++ [l]
            ∧ last (console (print l w)) = Some l).
Proof.
  split_and!; [| | | |by intros; apply pages_requests|].
  5:{ intros l w. split; [reflexivity | apply last_snoc]. }
  - reflexivity.
  - intros cfg org repo since until page allCommits w Hpage. split_and!.
    + intros e w1 Hrun. by rewrite pages_round, Hrun.
    + intros w1 Hrun. rewrite pages_round, Hrun.
      destruct (decide (length (@nil GitHubCommit.t) = 0%nat)); [|done].
      destruct (decide (page > 1000)); [lia|done].
    + intros commits w1 Hrun Hshort. rewrite pages_round, Hrun.
      destruct (decide (length commits = 0%nat)); [lia|].
      rewrite bool_decide_eq_true_2 by lia. cbn [negb].
      destruct (decide (page + 1 > 1000)), (decide (page = 1000)); try lia; done.
    + intros commits w1 Hrun Hfull. rewrite pages_round, Hrun.
      destruct (decide (length commits = 0%nat)); [lia|].
      rewrite bool_decide_eq_false_2 by lia. cbn [negb].
      destruct (decide (page + 1 > 1000)), (decide (page = 1000)); try lia; done.
  - intros cfg org repo since until w r1 r2 r3 rest c1 c2 c3 m1 m2 m3
      Hup Hcold H1 H2 H3 L1 L2 L3.
    destruct (getCommits_served cfg org repo (Some since) (Some until) 1 w r1
                (r2 :: r3 :: rest) c1 m1)
      as (w1 & Hrun1 & Hup1 & Hcalls1 & Hcache1); [done..|].
    destruct (getCommits_served cfg org repo (Some since) (Some until) 2 w1 r2
                (r3 :: rest) c2 m2)
      as (w2 & Hrun2 & Hup2 & Hcalls2 & Hcache2); [|done..|].
    { rewrite Hcache1; [done|]. intros E. by apply commitsKey_page_inj in E. }
    destruct (getCommits_served cfg org repo (Some since) (Some until) 3 w2 r3
                rest c3 m3)
      as (w3 & Hrun3 & Hup3 & Hcalls3 & Hcache3); [|done..|].
    { rewrite Hcache2, Hcache1; [done| |];
        intros E; by apply commitsKey_page_inj in E. }
    exists w3. unfold getAllCommitsPaginated.
    rewrite pages_round, Hrun1.
    destruct (decide (length c1 = 0%nat)); [lia|].
    rewrite bool_decide_eq_false_2 by lia. cbn [negb].
    destruct (decide (1 + 1 > 1000)); [lia|].
    rewrite pages_round. change (1 + 1) with 2. rewrite Hrun2.
    destruct (decide (length c2 = 0%nat)); [lia|].
    rewrite bool_decide_eq_false_2 by lia. cbn [negb].
    destruct (decide (2 + 1 > 1000)); [lia|].
    rewrite pages_round. change (2 + 1) with 3. rewrite Hrun3.
    destruct (decide (length c3 = 0%nat)); [lia|].
    rewrite bool_decide_eq_true_2 by lia. cbn [negb].
    destruct (decide (3 + 1 > 1000)); [lia|].
    split_and!.
    + by rewrite <- app_assoc.
    + rewrite !length_app. lia.
    + done.
    + rewrite Hcalls3, Hcalls2, Hcalls1, <- !app_assoc. done.
  - intros cfg org repo since until w Hserves Hcold.
    destruct (pages_to_limit cfg org repo since until 1000 1 [] w)
      as (commits & w' & Hrun & Hlen & Hup & Hcalls);
      [done | lia | lia | done | by intros p _ |].
    exists commits, w'. unfold getAllCommitsPaginated. rewrite Hrun.
    split_and!; try done. apply last_snoc.
Qed.

Lemma pagination_stops_witness :
  let c := Scenario.commitBy (Some "A") in
  let r1 := Scenario.answer (replicate 100 c) in
  let r3 := Scenario.answer (replicate 37 c) in
  let w := Scenario.fresh [r1; r1; r3] in
  let full := Scenario.fresh (replicate 1000 r1) in
  let since := "2021-06-01T00:00:00.000Z" in
  let until := "2021-06-30T23:59:59.000Z" in
  upstream w = [r1; r1; r3]
  ∧ (∀ p, cache w !! commitsKey "acme" "widgets" (Some since) (Some until) p = None)
  ∧ length (replicate 100 c) = 100%nat
  ∧ length (replicate 37 c) = 37%nat
  ∧ (∃ w',
       getAllCommitsPaginated defaultConfig "acme" "widgets" since until w
       = (Val (replicate 100 c ++ replicate 100 c ++ replicate 37 c), w')
       ∧ length (replicate 100 c ++ replicate 100 c ++ replicate 37 c) = 237%nat
       ∧ upstream w' = []
       ∧ calls w' = calls w
                    ++ [pageRequest "acme" "widgets" (Some since) (Some until) 1;
                        pageRequest "acme" "widgets" (Some since) (Some until) 2;
                        pageRequest "acme" "widgets" (Some since) (Some until) 3])
  ∧ servesFull "acme" "widgets" since until 1 (upstream full) 1000
  ∧ (∀ p, cache full !! commitsKey "acme" "widgets" (Some since) (Some until) p = None)
  ∧ console full = []
  ∧ last (console (getAllCommitsPaginated defaultConfig "acme" "widgets" since until
                     full).2)
    = Some (WarnMaxPageLimit "acme" "widgets")
  ∧ length (calls (getAllCommitsPaginated defaultConfig "acme" "widgets" since until
                     full).2) = 1000%nat.
Proof.
  intros c r1 r3 w full since until.
  assert (H0 : upstream w = [r1; r1; r3]) by reflexivity.
  assert (H1 : ∀ p, cache w !! commitsKey "acme" "widgets" (Some since)
                      (Some until) p = None) by (intros p; reflexivity).
  assert (L1 : length (replicate 100 c) = 100%nat) by reflexivity.
  assert (L3 : length (replicate 37 c) = 37%nat) by reflexivity.
  assert (F0 : servesFull "acme" "widgets" since until 1 (upstream full) 1000).
  { change (upstream full) with (replicate 1000 r1).
    split; [by rewrite length_replicate|].
    intros i r Hi Hr. apply lookup_replicate in Hr as [-> _].
    exists (replicate 100 c), None. split; reflexivity. }
  assert (F1 : ∀ p, cache full !! commitsKey "acme" "widgets" (Some since)
                      (Some until) p = None) by (intros p; apply lookup_empty).
  split; [exact H0|]. split; [exact H1|]. split; [exact L1|]. split; [exact L3|].
  split.
  { exact (proj1 (proj2 (proj2 pagination_stops)) defaultConfig "acme" "widgets"
             since until w r1 r1 r3 [] (replicate 100 c) (replicate 100 c)
             (replicate 37 c) None None None H0 H1 eq_refl eq_refl eq_refl L1 L1 L3). }
  split; [exact F0|]. split; [exact F1|]. split; [reflexivity|].
  destruct (proj1 (proj2 (proj2 (proj2 pagination_stops))) defaultConfig
              "acme" "widgets" since until full F0 F1)
    as (commits & w' & Hrun & _ & _ & Hcalls & _ & Hlast).
  split; [exact Hlast|].
  rewrite Hrun. cbn [snd]. change (calls (print _ w')) with (calls w').
  rewrite Hcalls, length_app, length_fmap, length_seqZ. reflexivity.
Defined.

(** ** Cache keys *)

Lemma append_nil s : "" +:+ s = s.
Proof. reflexivity. Qed.

Lemma append_cons c a s : String c a +:+ s = String c (a +:+ s).
Proof. reflexivity. Qed.

Lemma colon_split a b x y :
  JSString.colon_free a = true → JSString.colon_free b = true →
  a +:+ ":" +:+ x = b +:+ ":" +:+ y → a = b ∧ x = y.
Proof.
  revert b. induction a as [|c a IH]; intros [|c' b] Ha Hb H;
    rewrite ?append_cons, ?append_nil in H; cbn in Ha, Hb.
  - by injection H as ->.
  - injection H as <- _. by destruct (decide (":"%char = ":"%char)).
  - injection H as -> _. by destruct (decide (":"%char = ":"%char)).
  - injection H as -> H.
    destruct (decide (c' = ":"%char)); [done|].
    destruct (IH b Ha Hb H) as [-> ->]. done.
Qed.

Lemma length_split a b x y :
  String.length a = String.length b → a +:+ x = b +:+ y → a = b ∧ x = y.
Proof.
  revert b. induction a as [|c a IH]; intros [|c' b] Hlen H;
    rewrite ?append_cons, ?append_nil in H; cbn in Hlen; try discriminate.
  - done.
  - injection H as -> H. injection Hlen as Hlen.
    destruct (IH b Hlen H) as [-> ->]. done.
Qed.

Lemma monthOrAll_inj month month' :
  plainMonth month → plainMonth month' →
  monthOrAll month = monthOrAll month' → month = month'.
Proof.
  destruct month as [[|c m]|], month' as [[|c' m']|]; cbn;
    intros H H' E; try done; try (by destruct H); try (by destruct H').
  by rewrite E.
Qed.

(** *** The timestamps of a window *)

Lemma append_length a b :
  String.length (a +:+ b) = (String.length a + String.length b)%nat.
Proof.
  induction a as [|c a IH]; rewrite ?append_nil, ?append_cons; cbn; [done|].
  by rewrite IH.
Qed.

Lemma padded_checked :
  padded 2 100 = true ∧ padded 3 1000 = true ∧ padded 4 10000 = true.
Proof. split; [|split]; vm_compute; reflexivity. Qed.

Lemma pad_length len bound n :
  padded len bound = true → 0 ≤ n < bound →
  String.length (JSDate.pad len n) = len.
Proof.
  intros H Hn.
  assert (Hin : In n (seqZ 0 bound)).
  { apply list_elem_of_In, elem_of_seqZ. lia. }
  pose proof (proj1 (forallb_forall _ _) H n Hin) as Hlen. cbv beta in Hlen.
  by apply bool_decide_eq_true in Hlen.
Qed.

(** The month and the day of a civil date are in range. *)
Lemma civil_from_days_range z :
  1 ≤ (JSDate.civil_from_days z).1.2 ≤ 12 ∧ 1 ≤ (JSDate.civil_from_days z).2 ≤ 31.
Proof.
  unfold JSDate.civil_from_days. cbn [fst snd].
  set (z' := z + 719468).
  set (era := z' / 146097).
  set (doe := z' - era * 146097).
  assert (Hdoe : 0 ≤ doe ≤ 146096).
  { subst doe era. pose proof (Z.mod_pos_bound z' 146097 ltac:(lia)) as H.
    rewrite Z.mod_eq in H by lia. lia. }
  clearbody doe. clear era z'.
  set (yoe := (doe - doe / 1460 + doe / 36524 - doe / 146096) / 365).
  set (doy := doe - (365 * yoe + yoe / 4 - yoe / 100)).
  assert (Hdoy : 0 ≤ doy ≤ 365).
  { subst doy yoe. Z.div_mod_to_equations. lia. }
  clearbody doy.
  set (mp := (5 * doy + 2) / 153).
  assert (Hmp : 0 ≤ mp ≤ 11) by (subst mp; Z.div_mod_to_equations; lia).
  assert (Hd : 1 ≤ doy - (153 * mp + 2) / 5 + 1 ≤ 31).
  { subst mp. Z.div_mod_to_equations. lia. }
  destruct (mp <? 10) eqn:E; [apply Z.ltb_lt in E | apply Z.ltb_ge in E]; lia.
Qed.

(** The hours, minutes, seconds and milliseconds of a time of day are in
    range. *)
Lemma time_of_day_range t :
  let tod := t mod 86400000 in
  0 ≤ tod / 3600000 < 100 ∧ 0 ≤ tod / 60000 mod 60 < 100
  ∧ 0 ≤ tod / 1000 mod 60 < 100 ∧ 0 ≤ tod mod 1000 < 1000.
Proof.
  intros tod.
  assert (Htod : 0 ≤ tod < 86400000) by (apply Z.mod_pos_bound; lia).
  clearbody tod. split_and!.
  - apply Z.div_pos; lia.
  - apply Z.div_lt_upper_bound; lia.
  - apply Z.mod_pos_bound. lia.
  - pose proof (Z.mod_pos_bound (tod / 60000) 60 ltac:(lia)). lia.
  - apply Z.mod_pos_bound. lia.
  - pose proof (Z.mod_pos_bound (tod / 1000) 60 ltac:(lia)). lia.
  - apply Z.mod_pos_bound. lia.
  - apply Z.mod_pos_bound. lia.
Qed.

(** The timestamp of a date with a four-digit year has 24 characters. *)
Lemma toISOString_length d :
  fourDigitYear d →
  ∃ s, JSDate.toISOString d = Some s ∧ String.length s = 24%nat.
Proof.
  intros (t & -> & Hy). unfold JSDate.toISOString. cbn [mbind option_bind].
  pose proof (civil_from_days_range (t / JSDate.msPerDay)) as [Hm Hd].
  destruct (JSDate.civil_from_days (t / JSDate.msPerDay)) as [[y m] dd].
  cbn [fst snd] in *.
  destruct ((0 <=? y) && (y <=? 9999)) eqn:E;
    [|apply andb_false_iff in E as [E|E]; zbool; lia].
  eexists. split; [reflexivity|].
  destruct padded_checked as (P2 & P3 & P4).
  destruct (time_of_day_range t) as (Hh & Hmi & Hs & Hms).
  unfold JSDate.msPerDay in *.
  pose proof (pad_length 4 10000 y P4 ltac:(lia)) as Ly.
  pose proof (pad_length 2 100 m P2 ltac:(lia)) as Lm.
  pose proof (pad_length 2 100 dd P2 ltac:(lia)) as Ld.
  pose proof (pad_length 2 100 _ P2 Hh) as Lh.
  pose proof (pad_length 2 100 _ P2 Hmi) as Lmi.
  pose proof (pad_length 2 100 _ P2 Hs) as Ls.
  pose proof (pad_length 3 1000 _ P3 Hms) as Lms.
  revert Ly Lm Ld Lh Lmi Ls Lms.
  generalize (JSDate.pad 4 y) (JSDate.pad 2 m) (JSDate.pad 2 dd)
    (JSDate.pad 2 (t mod 86400000 / 3600000))
    (JSDate.pad 2 (t mod 86400000 / 60000 mod 60))
    (JSDate.pad 2 (t mod 86400000 / 1000 mod 60))
    (JSDate.pad 3 (t mod 86400000 mod 1000)).
  intros sy sm sd sh smi ss sms Ly Lm Ld Lh Lmi Ls Lms.
  rewrite !append_length, Ly, Lm, Ld, Lh, Lmi, Ls, Lms. reflexivity.
Qed.

Lemma commitsKey_inj org repo since until page org' repo' since' until' page' :
  JSString.colon_free org = true → JSString.colon_free org' = true →
  JSString.colon_free repo = true → JSString.colon_free repo' = true →
  String.length since = String.length since' →
  String.length until = String.length until' →
  commitsKey org repo (Some since) (Some until) page
  = commitsKey org' repo' (Some since') (Some until') page' →
  org = org' ∧ repo = repo' ∧ since = since' ∧ until = until' ∧ page = page'.
Proof.
  intros Ho Ho' Hr Hr' Hs Hu H.
  unfold commitsKey in H.
  change (printed (Some since)) with since in H.
  change (printed (Some until)) with until in H.
  change (printed (Some since')) with since' in H.
  change (printed (Some until')) with until' in H.
  apply String.app_inj in H.
  apply colon_split in H as [-> H]; [|done..].
  apply colon_split in H as [-> H]; [|done..].
  apply length_split in H as [-> H]; [|done].
  apply String.app_inj in H.
  apply length_split in H as [-> H]; [|done].
  apply String.app_inj in H. by apply pretty_Z_inj in H as ->.
Qed.

(** The keys of the pages the analysis asks for, whose [since] and [until]
    are timestamps of dates with four-digit years, determine the page. *)
Lemma window_keys_injective org repo a b page org' repo' a' b' page' :
  JSString.colon_free org = true → JSString.colon_free org' = true →
  JSString.colon_free repo = true → JSString.colon_free repo' = true →
  fourDigitYear a → fourDigitYear b → fourDigitYear a' → fourDigitYear b' →
  commitsKey org repo (JSDate.toISOString a) (JSDate.toISOString b) page
  = commitsKey org' repo' (JSDate.toISOString a') (JSDate.toISOString b') page' →
  org = org' ∧ repo = repo'
  ∧ JSDate.toISOString a = JSDate.toISOString a'
  ∧ JSDate.toISOString b = JSDate.toISOString b'
  ∧ page = page'.
Proof.
  intros Ho Ho' Hr Hr' Ha Hb Ha' Hb' H.
  apply toISOString_length in Ha as (since & Ea & La).
  apply toISOString_length in Hb as (until & Eb & Lb).
  apply toISOString_length in Ha' as (since' & Ea' & La').
  apply toISOString_length in Hb' as (until' & Eb' & Lb').
  rewrite Ea, Eb, Ea', Eb' in *.
  apply commitsKey_inj in H as (-> & -> & -> & -> & ->); try done; congruence.
Qed.


Lemma split_apart a b x y :
  ¬ confusable a b → a +:+ ":" +:+ x = b +:+ ":" +:+ y → a = b ∧ x = y.
Proof.
  revert b. induction a as [|c a IH]; intros [|c' b] Hab H;
    rewrite ?append_cons, ?append_nil in H.
  - by injection H as ->.
  - injection H as <- ->. destruct Hab. exists b. left.
    by rewrite append_nil, append_cons, append_nil.
  - injection H as -> <-. destruct Hab. exists a. right.
    by rewrite append_nil, append_cons, append_nil.
  - injection H as -> H.
    destruct (IH b) as [-> ->]; [|done..].
    intros [rest [-> | ->]]; destruct Hab; exists rest; [left | right];
      by rewrite append_cons.
Qed.

Lemma colon_free_append a rest : JSString.colon_free (a +:+ ":" +:+ rest) = false.
Proof.
  induction a as [|c a IH]; rewrite ?append_nil, ?append_cons; cbn; [done|].
  by destruct (decide (c = ":"%char)).
Qed.

Lemma colon_free_apart a b :
  JSString.colon_free a = true → JSString.colon_free b = true → ¬ confusable a b.
Proof.
  intros Ha Hb [rest [-> | ->]]; by rewrite colon_free_append in *.
Qed.

Lemma same_length_apart a b :
  String.length a = String.length b → ¬ confusable a b.
Proof.
  intros H [rest [-> | ->]]; rewrite !append_length in H; cbn in H; lia.
Qed.

Lemma apart_refl a : ¬ confusable a a.
Proof. by apply same_length_apart. Qed.

Lemma printed_inj s s' : ¬ printedAlike s s' → printed s = printed s' → s = s'.
Proof.
  destruct s as [x|], s' as [x'|]; cbn; intros Halike E; subst; try done.
  - destruct Halike. by right.
  - destruct Halike. by left.
Qed.


Lemma commitsKey_apart org repo since until page org' repo' since' until' page' :
  ¬ confusable org org' → ¬ confusable repo repo' →
  ¬ confusable (printed since) (printed since') →
  ¬ confusable (printed until) (printed until') →
  ¬ printedAlike since since' → ¬ printedAlike until until' →
  commitsKey org repo since until page = commitsKey org' repo' since' until' page' →
  org = org' ∧ repo = repo' ∧ since = since' ∧ until = until' ∧ page = page'.
Proof.
  intros Ho Hr Hs Hu As Au H. unfold commitsKey in H.
  apply String.app_inj in H.
  apply split_apart in H as [-> H]; [|done].
  apply split_apart in H as [-> H]; [|done].
  apply split_apart in H as [Es H]; [|done].
  apply split_apart in H as [Eu H]; [|done].
  apply printed_inj in Es; [|done]. apply printed_inj in Eu; [|done].
  by apply pretty_Z_inj in H as ->.
Qed.




(** ** The period *)

Lemma exactInUTC_checked : forallb exactInUTC (seqZ 1970 230) = true.
Proof. vm_compute. reflexivity. Qed.

(** When the local time is UTC, the period of a month is that calendar
    month up to its last second and the period of a year is that year
    (checked for the years 1970 to 2199). *)
Lemma period_exact_in_UTC y :
  1970 ≤ y < 2200 →
  period defaultConfig (pretty y) None = yearBounds y
  ∧ ∀ m, 1 ≤ m ≤ 12 →
      period defaultConfig (pretty y) (Some (pretty m)) = monthBounds y m
      ∧ period defaultConfig (pretty y) (Some (JSDate.pad 2 m)) = monthBounds y m.
Proof.
  intros Hy.
  assert (Hin : In y (seqZ 1970 230)).
  { apply list_elem_of_In, elem_of_seqZ. lia. }
  pose proof (proj1 (forallb_forall exactInUTC (seqZ 1970 230))
                exactInUTC_checked y Hin) as H.
  unfold exactInUTC in H. apply andb_true_iff in H as [H1 H2].
  apply bool_decide_eq_true in H1. split; [exact H1|].
  intros m Hm.
  assert (Hm' : In m (seqZ 1 12)).
  { apply list_elem_of_In, elem_of_seqZ. lia. }
  pose proof (proj1 (forallb_forall _ _) H2 m Hm') as H3. cbv beta in H3.
  apply andb_true_iff in H3 as [H3 H4].
  by apply bool_decide_eq_true in H3, H4.
Qed.

(** The start is moved to the creation of the repository when it would lie
    before it, and is a valid date left alone otherwise. *)
Lemma clampStart_spec startDate repoCreatedAt :
  (JSDate.lt startDate repoCreatedAt = true →
   clampStart startDate repoCreatedAt = repoCreatedAt)
  ∧ (JSDate.lt startDate repoCreatedAt = false →
     clampStart startDate repoCreatedAt = startDate).
Proof. unfold clampStart. split; by intros ->. Qed.

(** C6 evaluated where it fails.  The start of the period is read as UTC
    but its end is built in local time from the local month of the start.
    Five hours behind UTC, the period of June 2021 ends on June 1st at
    04:59:59 UTC, five hours after it starts, and the period of the year 2021
    ends on January 1st 2022 at 04:59:59 UTC; five and a half hours ahead of
    UTC the period of June 2021 ends on June 30th at 18:29:59 UTC.  None of
    them is the calendar period, and the commits the service asks the
    platform for are those of the shifted window. *)
Theorem period_follows_local_zone :
  period bogota "2021" (Some "6")
  = (JSDate.readISO 0 "2021-06-01T00:00:00Z", JSDate.readISO 0 "2021-06-01T04:59:59Z")
  ∧ period bogota "2021" (Some "6") ≠ monthBounds 2021 6
  ∧ period bogota "2021" None
    = (JSDate.readISO 0 "2021-01-01T00:00:00Z", JSDate.readISO 0 "2022-01-01T04:59:59Z")
  ∧ period bogota "2021" None ≠ yearBounds 2021
  ∧ period kolkata "2021" (Some "6")
    = (JSDate.readISO 0 "2021-06-01T00:00:00Z", JSDate.readISO 0 "2021-06-30T18:29:59Z")
  ∧ period kolkata "2021" (Some "6") ≠ monthBounds 2021 6
  ∧ monthBounds 2021 6
    = (JSDate.readISO 0 "2021-06-01T00:00:00Z", JSDate.readISO 0 "2021-06-30T23:59:59Z")
  ∧ calls (getNewContributorsByMonth bogota "acme" "widgets" "2021" (Some "6")
             Scenario.juneWorld).2
    = [GetRepository "acme" "widgets";
       GetCommits "acme" "widgets" (Some "2020-01-01T00:00:00.000Z")
         (Some "2021-06-01T00:00:00.000Z") 1 100;
       GetCommits "acme" "widgets" (Some "2021-06-01T00:00:00.000Z")
         (Some "2021-06-01T04:59:59.000Z") 1 100].
Proof. split_and!; vm_compute; congruence. Qed.

(** * The service as a whole *)

(** ** Relations every operation keeps *)

Section Respects.
Context (R : World → World → Prop).
Hypothesis R_refl : ∀ w, R w w.
Hypothesis R_trans : ∀ w1 w2 w3, R w1 w2 → R w2 w3 → R w1 w3.

Lemma respects_ret {A} (a : A) : respects R (ret a).
Proof. intros w res w' [= <- <-]; auto. Qed.

Lemma respects_throw {A} e : respects R (@throw A e).
Proof. intros w res w' [= <- <-]; auto. Qed.

Lemma respects_gets {A} (f : World → A) : respects R (gets f).
Proof. intros w res w' [= <- <-]; auto. Qed.

Lemma respects_exec f : (∀ w, R w (f w)) → respects R (exec f).
Proof. intros H w res w' [= <- <-]; auto. Qed.

Lemma respects_bind {A B} (m : M A) (k : A → M B) :
  respects R m → (∀ a, respects R (k a)) → respects R (m ≫= k).
Proof.
  intros Hm Hk w res w'. unfold_monad.
  destruct (m w) as [[a | e] w1] eqn:E; intros H.
  - eapply R_trans; [eapply Hm, E | eapply Hk, H].
  - injection H as <- <-. eapply Hm, E.
Qed.

Lemma respects_try_catch {A} (m : M A) h :
  respects R m → (∀ e, respects R (h e)) → respects R (try_catch m h).
Proof.
  intros Hm Hh w res w'. unfold_monad.
  destruct (m w) as [[a | e] w1] eqn:E; intros H.
  - injection H as <- <-. eapply Hm, E.
  - eapply R_trans; [eapply Hm, E | eapply Hh, H].
Qed.

(** The steps the service is made of. *)
Variable cfg : Config.
Hypothesis R_delete : ∀ w key, R w (set_cache (delete key (cache w)) w).
Hypothesis R_store : ∀ w key value expiry,
  filed key value →
  R w (set_cache (<[key := {| v := value; t := expiry |}]> (cache w)) w).
Hypothesis R_print : ∀ w l, R w (print l w).
Hypothesis R_clock : ∀ w d, 0 ≤ d → R w (set_now (now w + d) w).
Hypothesis R_dispatched : ∀ w req rest, R w (dispatched req rest w).
Hypothesis R_reserve : respects R (requestInterceptor cfg).

Lemma respects_cache_get key : respects R (cache_get key).
Proof.
  intros w res w'. unfold cache_get.
  destruct (cache w !! key) as [e|]; [destruct (_ && _)|]; intros [= <- <-]; auto.
Qed.

Lemma respects_cache_set key value ttl :
  filed key value →
  respects R (cache_set (CACHE_TTL cfg) key value ttl).
Proof. intros H. apply respects_exec. intros w. apply R_store, H. Qed.

Lemma respects_sleep ms : respects R (sleep ms).
Proof.
  apply respects_exec. intros w. apply R_clock. destruct (_ && _) eqn:E; [|lia].
  apply andb_prop in E as [E _]. lia.
Qed.

Lemma respects_responseInterceptor remaining :
  respects R (responseInterceptor remaining).
Proof.
  unfold responseInterceptor. destruct remaining as [r|]; [|apply respects_ret].
  destruct (_ && _); [apply respects_exec; auto | apply respects_ret].
Qed.

Lemma respects_request {A} (ask : Responder → Reply A) req script :
  respects R (request cfg ask req script).
Proof.
  induction script as [|r rest IH]; intros w res w'; cbn [request].
  - destruct (requestInterceptor cfg w) as [[[] | e] w1] eqn:E.
    + intros [= <- <-]. eapply R_trans; [eapply R_reserve, E|].
      eapply R_trans; [apply (R_dispatched _ req [])|].
      apply (R_clock (dispatched req [] w1)). lia.
    + intros [= <- <-]. eapply R_reserve, E.
  - destruct (requestInterceptor cfg w) as [[[] | e] w1] eqn:E.
    2:{ intros [= <- <-]. eapply R_reserve, E. }
    intros H. eapply R_trans; [eapply R_reserve, E|].
    eapply R_trans; [apply (R_dispatched _ req rest)|].
    destruct (ask r) as [data remaining | error].
    + revert H. apply (respects_bind (responseInterceptor remaining) (λ _, ret data)).
      * apply respects_responseInterceptor.
      * intros _. apply respects_ret.
    + destruct (onRejected _ _) as [ms l|].
      * destruct ((exec (print l);; sleep ms) _) as [r0 w2] eqn:E2.
        eapply R_trans; [|eapply IH, H].
        revert E2. apply (respects_bind (exec (print l)) (λ _, sleep ms)).
        -- apply respects_exec. auto.
        -- intros _. apply respects_sleep.
      * injection H as <- <-. auto.
Qed.

Lemma respects_client_get {A} (ask : Responder → Reply A) req :
  respects R (client_get cfg ask req).
Proof. intros w res w'. unfold client_get. apply respects_request. Qed.

Lemma respects_fetchRepository org repo : respects R (fetchRepository cfg org repo).
Proof.
  apply respects_try_catch.
  - apply respects_bind; [apply respects_client_get|]. intros a.
    apply respects_bind; [apply respects_cache_set; cbn; eauto|].
    intros _. apply respects_ret.
  - intros e. destruct (bool_decide _); apply respects_throw.
Qed.

Lemma respects_getRepository org repo : respects R (getRepository cfg org repo).
Proof.
  apply respects_bind; [apply respects_cache_get|].
  intros [[]|]; try apply respects_fetchRepository. apply respects_ret.
Qed.

Lemma respects_fetchCommits org repo since until page :
  respects R (fetchCommits cfg org repo since until page).
Proof.
  apply respects_try_catch.
  - apply respects_bind; [apply respects_client_get|]. intros a.
    apply respects_bind; [apply respects_gets|]. intros n.
    apply respects_bind; [apply respects_cache_set; cbn; eauto 10|].
    intros _. apply respects_ret.
  - intros e. destruct (bool_decide _); [apply respects_throw|].
    destruct (bool_decide _); [apply respects_ret | apply respects_throw].
Qed.

Lemma respects_getCommits org repo since until page :
  respects R (getCommits cfg org repo since until page).
Proof.
  apply respects_bind; [apply respects_cache_get|].
  intros [[]|]; try apply respects_fetchCommits. apply respects_ret.
Qed.

Lemma respects_pages org repo since until :
  ∀ page allCommits, respects R (pages cfg org repo since until page allCommits).
Proof.
  intros page. pattern page. apply pages_induction. clear page.
  intros page IH allCommits w res w'. rewrite pages_round.
  destruct (getCommits _ _ _ _ _ _ w) as [[commits | e] w1] eqn:E.
  2:{ intros [= <- <-]. eapply respects_getCommits, E. }
  intros H. eapply R_trans; [eapply respects_getCommits, E|].
  destruct (decide (length commits = 0%nat)).
  - destruct (decide (page > 1000)); injection H as <- <-; auto.
  - destruct (decide (page + 1 > 1000)); [injection H as <- <-; auto|].
    destruct (negb _); [|injection H as <- <-; auto].
    eapply IH, H. lia.
Qed.

Lemma respects_getAllCommitsPaginated org repo since until :
  respects R (getAllCommitsPaginated cfg org repo since until).
Proof. apply respects_pages. Qed.

Lemma respects_toISOString d : respects R (toISOString d).
Proof.
  unfold toISOString. destruct (JSDate.toISOString d);
    [apply respects_ret | apply respects_throw].
Qed.

Lemma respects_contributorsBefore org repo repoCreatedAt startDate :
  respects R (contributorsBefore cfg org repo repoCreatedAt startDate).
Proof.
  unfold contributorsBefore. destruct (JSDate.gt _ _); [|apply respects_ret].
  apply respects_bind; [apply respects_toISOString|]. intros since.
  apply respects_bind; [apply respects_toISOString|]. intros until_.
  apply respects_bind; [apply respects_getAllCommitsPaginated|]. intros cs.
  apply respects_ret.
Qed.

Lemma respects_countNew org repo year month startDate endDate existing :
  respects R (countNew cfg org repo year month startDate endDate existing).
Proof.
  unfold countNew.
  apply respects_bind; [apply respects_toISOString|]. intros since.
  apply respects_bind; [apply respects_toISOString|]. intros until_.
  apply respects_bind; [apply respects_getAllCommitsPaginated|]. intros cs.
  destruct (foldl _ _ _).
  apply respects_bind; [apply respects_cache_set; cbn; eauto|].
  intros _. apply respects_ret.
Qed.

Lemma respects_analyze org repo year month :
  respects R (analyze cfg org repo year month).
Proof.
  unfold analyze.
  apply respects_bind; [apply respects_getRepository|]. intros repository.
  destruct (period _ _ _).
  apply respects_bind; [apply respects_contributorsBefore|]. intros existing.
  apply respects_countNew.
Qed.

Lemma respects_getNewContributorsByMonth org repo year month :
  respects R (getNewContributorsByMonth cfg org repo year month).
Proof.
  unfold getNewContributorsByMonth.
  apply respects_bind; [apply respects_cache_get|].
  assert (Hmiss : respects R
            (try_catch (analyze cfg org repo year month)
               (λ error, throw (JSError.Error
                  ("Failed to analyze contributors: " +:+ JSError.message error))))).
  { apply respects_try_catch; [apply respects_analyze|]. intros e. apply respects_throw. }
  intros [[]|]; try exact Hmiss. apply respects_ret.
Qed.

End Respects.

(** ** The rate governor through the service *)

Lemma requestInterceptor_clock cfg : respects (λ w w', now w ≤ now w') (requestInterceptor cfg).
Proof.
  intros w res w'. unfold requestInterceptor, checkRateLimit. unfold_monad. unfold sleep, exec.
  repeat case_match; intros; simplify_eq/=; zbool; try lia.
Qed.

Lemma requestInterceptor_paced cfg :
  0 < RATE_LIMIT_PER_HOUR cfg → respects (paced cfg) (requestInterceptor cfg).
Proof.
  intros Hlimit w res w' H. split; [eapply requestInterceptor_clock, H|].
  revert H. unfold requestInterceptor, checkRateLimit, governed. unfold_monad. unfold sleep, exec.
  repeat case_match; intros; simplify_eq/=; zbool; try lia.
Qed.

(** ** Transport *)

Section Transport.
Variable cfg : Config.
Context {A : Type} (ask : Responder → Reply A) (req : Request).

Lemma requestInterceptor_run w :
  ∃ w1, requestInterceptor cfg w = (Val tt, w1)
    ∧ cache w1 = cache w ∧ upstream w1 = upstream w ∧ calls w1 = calls w
    ∧ now w ≤ now w1 ∧ console w `prefix_of` console w1.
Proof.
  destruct (requestInterceptor_frame cfg w) as (w1 & E & Hc & Hu & Hk).
  exists w1. split_and!; auto.
  - eapply requestInterceptor_clock, E.
  - revert E. unfold requestInterceptor, checkRateLimit. unfold_monad. unfold sleep, exec.
    repeat case_match; intros; simplify_eq/=; try reflexivity.
    all: try (eexists; reflexivity).
Qed.

Lemma responseInterceptor_run remaining w :
  ∃ w1, responseInterceptor remaining w = (Val tt, w1)
    ∧ cache w1 = cache w ∧ upstream w1 = upstream w ∧ calls w1 = calls w
    ∧ now w1 = now w ∧ console w `prefix_of` console w1.
Proof.
  unfold responseInterceptor. destruct remaining as [r|].
  2:{ exists w. split_and!; auto. }
  destruct (_ && _); eexists; (split; [reflexivity|]); split_and!; auto.
  eexists; reflexivity.
Qed.

Lemma request_answered r rest data remaining w :
  ask r = Ok data remaining →
  ∃ w', request cfg ask req (r :: rest) w = (Val data, w')
    ∧ calls w' = calls w ++ [req] ∧ upstream w' = rest
    ∧ cache w' = cache w ∧ now w ≤ now w'
    ∧ console w `prefix_of` console w'.
Proof.
  intros Hr. cbn [request].
  destruct (requestInterceptor_run w) as (w1 & -> & Hc & Hu & Hk & Hn & Hp).
  rewrite Hr.
  destruct (responseInterceptor_run remaining (dispatched req rest w1))
    as (w2 & E2 & Hc2 & Hu2 & Hk2 & Hn2 & Hp2).
  exists w2. unfold_monad. rewrite E2. cbn in *.
  split_and!; auto; try congruence; try lia.
  etrans; eauto.
Qed.

Lemma request_timeout w :
  ∃ w', request cfg ask req [] w = (Exc JSError.timeout, w')
    ∧ calls w' = calls w ++ [req] ∧ upstream w' = []
    ∧ cache w' = cache w ∧ now w + 30000 ≤ now w'.
Proof.
  cbn [request].
  destruct (requestInterceptor_run w) as (w1 & -> & Hc & Hu & Hk & Hn & Hp).
  eexists. split; [reflexivity|]. cbn. split_and!; auto; try congruence; lia.
Qed.

Lemma onRejected_transient e now_ :
  transient e = true →
  onRejected e now_
  = WaitAndResend 1000 (LogRetrying (JSError.status e) (JSError.code e)).
Proof.
  unfold transient, onRejected. destruct (JSError.status e) as [s|] eqn:Es.
  - intros Hs. rewrite Hs. cbn [orb].
    rewrite (bool_decide_eq_false_2 (Some s = Some 403)); [reflexivity|].
    intros [= ->]. discriminate.
  - intros ->. rewrite orb_true_r. reflexivity.
Qed.

Lemma onRejected_permanent e now_ : permanent e = true → onRejected e now_ = Rethrow.
Proof.
  unfold permanent, onRejected. destruct (JSError.status e) as [s|] eqn:Es.
  - intros H. apply andb_prop in H as [H H3]. apply andb_prop in H as [H1 H2].
    apply negb_true_iff in H2, H3. rewrite H2.
    apply Z.ltb_lt in H1. rewrite (proj2 (Z.leb_gt 500 s)) by lia. cbn [orb].
    destruct (bool_decide (Some s = Some 403)) eqn:E403; [|reflexivity].
    apply bool_decide_eq_true in E403 as [= ->]. cbn in H3. rewrite H3. reflexivity.
  - intros H. apply negb_true_iff in H. rewrite H. reflexivity.
Qed.

Lemma request_retried r rest e w :
  ask r = Fail e → transient e = true →
  ∃ w1, request cfg ask req (r :: rest) w = request cfg ask req rest w1
    ∧ calls w1 = calls w ++ [req] ∧ cache w1 = cache w
    ∧ now w + 1000 ≤ now w1
    ∧ ∃ before, console w1
        = console w ++ before ++ [LogRetrying (JSError.status e) (JSError.code e)].
Proof.
  intros Hr He. cbn [request].
  destruct (requestInterceptor_run w) as (w1 & -> & Hc & Hu & Hk & Hn & [l Hp]).
  rewrite Hr, (onRejected_transient _ _ He).
  eexists. split; [reflexivity|]. cbn. split_and!; auto; try congruence; try lia.
  exists l. rewrite Hp, <- app_assoc. reflexivity.
Qed.

Lemma request_rethrown r rest e w :
  ask r = Fail e → permanent e = true →
  ∃ w', request cfg ask req (r :: rest) w = (Exc e, w')
    ∧ calls w' = calls w ++ [req] ∧ upstream w' = rest ∧ cache w' = cache w.
Proof.
  intros Hr He. cbn [request].
  destruct (requestInterceptor_run w) as (w1 & -> & Hc & Hu & Hk & Hn & Hp).
  rewrite Hr, (onRejected_permanent _ _ He).
  eexists. split; [reflexivity|]. cbn. split_and!; auto; congruence.
Qed.

Lemma request_retries fails :
  ∀ tail w,
    Forall (λ r, ∃ e, ask r = Fail e ∧ transient e = true) fails →
    ∃ w1, request cfg ask req (fails ++ tail) w = request cfg ask req tail w1
      ∧ calls w1 = calls w ++ replicate (length fails) req
      ∧ cache w1 = cache w
      ∧ now w + 1000 * Z.of_nat (length fails) ≤ now w1.
Proof.
  induction fails as [|r fails IH]; intros tail w Hf.
  - exists w. cbn. rewrite app_nil_r. split_and!; auto. lia.
  - apply Forall_cons in Hf as [(e & Hr & He) Hf].
    destruct (request_retried r (fails ++ tail) e w Hr He) as (w1 & E1 & Hk1 & Hc1 & Hn1 & _).
    destruct (IH tail w1 Hf) as (w2 & E2 & Hk2 & Hc2 & Hn2).
    exists w2. cbn [app]. rewrite E1, E2. split_and!; auto.
    + rewrite Hk2, Hk1, <- app_assoc. reflexivity.
    + congruence.
    + cbn [length]. lia.
Qed.

End Transport.

Lemma client_get_answered {A} cfg (ask : Responder → Reply A) req fails r rest
    data remaining w :
  Forall (λ r, ∃ e, ask r = Fail e ∧ transient e = true) fails →
  upstream w = fails ++ r :: rest → ask r = Ok data remaining →
  ∃ w', client_get cfg ask req w = (Val data, w')
    ∧ calls w' = calls w ++ replicate (S (length fails)) req
    ∧ upstream w' = rest
    ∧ cache w' = cache w
    ∧ now w + 1000 * Z.of_nat (length fails) ≤ now w'.
Proof.
  intros Hf Hu Hr. unfold client_get. rewrite Hu.
  destruct (request_retries cfg ask req fails (r :: rest) w Hf) as (w1 & -> & Hk & Hc & Hn).
  destruct (request_answered cfg ask req r rest data remaining w1 Hr)
    as (w2 & -> & Hk2 & Hu2 & Hc2 & Hn2 & _).
  exists w2. split_and!; auto; try congruence; try lia.
  rewrite Hk2, Hk, <- app_assoc. f_equal.
  change [req] with (replicate 1 req). rewrite <- replicate_add. f_equal. lia.
Qed.

Lemma client_get_unanswered {A} cfg (ask : Responder → Reply A) req w :
  Forall (λ r, ∃ e, ask r = Fail e ∧ transient e = true) (upstream w) →
  ∃ w', client_get cfg ask req w = (Exc JSError.timeout, w')
    ∧ calls w' = calls w ++ replicate (S (length (upstream w))) req
    ∧ upstream w' = []
    ∧ cache w' = cache w
    ∧ now w + 1000 * Z.of_nat (length (upstream w)) + 30000 ≤ now w'.
Proof.
  intros Hf. unfold client_get.
  destruct (request_retries cfg ask req (upstream w) [] w Hf) as (w1 & E & Hk & Hc & Hn).
  rewrite app_nil_r in E. rewrite E.
  destruct (request_timeout cfg ask req w1) as (w2 & -> & Hk2 & Hu2 & Hc2 & Hn2).
  exists w2. split_and!; auto; try congruence; try lia.
  rewrite Hk2, Hk, <- app_assoc. f_equal.
  change [req] with (replicate 1 req). rewrite <- replicate_add. f_equal. lia.
Qed.

Lemma client_get_rethrown {A} cfg (ask : Responder → Reply A) req r rest e w :
  upstream w = r :: rest → ask r = Fail e → permanent e = true →
  ∃ w', client_get cfg ask req w = (Exc e, w')
    ∧ calls w' = calls w ++ [req] ∧ upstream w' = rest ∧ cache w' = cache w.
Proof.
  intros Hu Hr He. unfold client_get. rewrite Hu. by apply request_rethrown.
Qed.

(** X3.  Failures that pass (a status of 500 or more, or a connection
    reset before any response) are retried: when the platform answers the
    request after [n] of them, the caller gets the data, [n + 1] requests
    have left, at least [n] seconds have gone by, and the cache is as it
    was; when no answer is left after them, the request ends with the
    timeout of the HTTP client, 30 seconds later. *)
Theorem passing_failures_retried {A} cfg (ask : Responder → Reply A) req fails w :
  Forall (λ r, ∃ e, ask r = Fail e ∧ transient e = true) fails →
  (∀ r rest data remaining,
     upstream w = fails ++ r :: rest → ask r = Ok data remaining →
     ∃ w', client_get cfg ask req w = (Val data, w')
       ∧ calls w' = calls w ++ replicate (S (length fails)) req
       ∧ upstream w' = rest
       ∧ cache w' = cache w
       ∧ now w + 1000 * Z.of_nat (length fails) ≤ now w')
  ∧ (upstream w = fails →
     ∃ w', client_get cfg ask req w = (Exc JSError.timeout, w')
       ∧ calls w' = calls w ++ replicate (S (length fails)) req
       ∧ upstream w' = []
       ∧ cache w' = cache w
       ∧ now w + 1000 * Z.of_nat (length fails) + 30000 ≤ now w').
Proof.
  intros Hf. split.
  - intros r rest data remaining Hu Hr. by eapply client_get_answered.
  - intros Hu. subst fails. by apply client_get_unanswered.
Qed.

Lemma passing_failures_retried_witness :
  let busy :=
    {| JSError.status := Some 503; JSError.ratelimit_remaining := None;
       JSError.ratelimit_reset := None; JSError.code := Some "ERR_BAD_RESPONSE";
       JSError.message := "Request failed with status code 503" |} in
  let failing := {| on_repository := λ _ _, Fail busy;
                    on_commits := λ _ _ _ _ _ _, Fail busy |} in
  let ask := λ r, on_repository r "acme" "widgets" in
  let w := Scenario.fresh [failing; failing; Scenario.answer []] in
  Forall (λ r, ∃ e, ask r = Fail e ∧ transient e = true) [failing; failing]
  ∧ ∃ w', client_get defaultConfig ask (GetRepository "acme" "widgets") w
          = (Val Scenario.widgets, w')
      ∧ calls w' = replicate 3 (GetRepository "acme" "widgets")
      ∧ now w + 2000 ≤ now w'.
Proof.
  intros busy failing ask w.
  assert (Hf : Forall (λ r, ∃ e, ask r = Fail e ∧ transient e = true) [failing; failing]).
  { repeat constructor; exists busy; split; reflexivity. }
  split; [exact Hf|].
  destruct (proj1 (passing_failures_retried defaultConfig ask
                     (GetRepository "acme" "widgets") [failing; failing] w Hf)
              (Scenario.answer []) [] Scenario.widgets None eq_refl eq_refl)
    as (w' & E & Hk & _ & _ & Hn).
  exists w'. split_and!; [exact E | exact Hk | exact Hn].
Defined.

Section RateLimit.
Variable cfg : Config.
Context {A : Type} (ask : Responder → Reply A) (req : Request).

Lemma requestInterceptor_room w :
  hasRoom cfg w → requestInterceptor cfg w = (Val tt, counted w).
Proof.
  intros [H1 H2]. unfold requestInterceptor, checkRateLimit. unfold_monad.
  rewrite (proj2 (Z.leb_gt 3600000 (now w - lastResetTime w))) by lia.
  rewrite (proj2 (Z.leb_gt _ _) H2). reflexivity.
Qed.






Lemma client_get_rethrown_at_once r rest e w :
  hasRoom cfg w → upstream w = r :: rest → ask r = Fail e → permanent e = true →
  client_get cfg ask req w = (Exc e, dispatched req rest (counted w)).
Proof.
  intros Hroom Hu Hr He. unfold client_get. rewrite Hu. cbn [request].
  rewrite (requestInterceptor_room w Hroom), Hr.
  by rewrite (onRejected_permanent e _ He).
Qed.

End RateLimit.

(** X4.  A failure that stays (a response below 500 that is not a rate
    limit with nothing remaining, on a connection that was not reset) is
    thrown to the caller as it is, after exactly one request and without
    touching the cache; when the governor had room this happens at once:
    the clock has not moved, the count has grown by one and nothing was
    written on the console. *)
Theorem permanent_failure_rethrown {A} cfg (ask : Responder → Reply A) req r rest e w :
  upstream w = r :: rest → ask r = Fail e → permanent e = true →
  ∃ w', client_get cfg ask req w = (Exc e, w')
    ∧ calls w' = calls w ++ [req] ∧ upstream w' = rest ∧ cache w' = cache w
    ∧ (hasRoom cfg w →
       now w' = now w ∧ requestCount w' = requestCount w + 1
       ∧ console w' = console w).
Proof.
  intros Hu Hr He.
  destruct (client_get_rethrown cfg ask req r rest e w Hu Hr He)
    as (w' & E & Hk & Hrest & Hc).
  exists w'. split_and!; try done.
  intros Hroom.
  rewrite (client_get_rethrown_at_once cfg ask req r rest e w Hroom Hu Hr He) in E.
  by injection E as <-.
Qed.

Lemma permanent_failure_rethrown_witness :
  let w := Scenario.fresh [notFound] in
  let ask := λ r, on_repository r "acme" "widgets" in
  let e := {| JSError.status := Some 404; JSError.ratelimit_remaining := None;
              JSError.ratelimit_reset := None; JSError.code := Some "ERR_BAD_REQUEST";
              JSError.message := "Request failed with status code 404" |} in
  upstream w = [notFound] ∧ ask notFound = Fail e ∧ permanent e = true
  ∧ ∃ w', client_get defaultConfig ask (GetRepository "acme" "widgets") w = (Exc e, w')
          ∧ calls w' = [GetRepository "acme" "widgets"].
Proof.
  intros w ask e.
  assert (H1 : upstream w = [notFound]) by reflexivity.
  assert (H2 : ask notFound = Fail e) by reflexivity.
  assert (H3 : permanent e = true) by reflexivity.
  split; [exact H1|]. split; [exact H2|]. split; [exact H3|].
  destruct (permanent_failure_rethrown defaultConfig ask (GetRepository "acme" "widgets")
              notFound [] e w H1 H2 H3)
    as (w' & E & Hk & _).
  exists w'. split; [exact E | exact Hk].
Defined.



(** ** Lookups and their entries *)

Section Lookup.
Variable cfg : Config.

Lemma cache_get_expired key w e :
  cache w !! key = Some e → t e ≠ 0 → t e < now w →
  cache_get key w = (Val None, set_cache (delete key (cache w)) w).
Proof.
  intros H H0 Hn. unfold cache_get. rewrite H.
  rewrite (proj2 (Z.eqb_neq _ _) H0), (proj2 (Z.ltb_lt _ _) Hn). reflexivity.
Qed.

Lemma fetchRepository_val org repo w repository w1 :
  client_get cfg (λ r, on_repository r org repo) (GetRepository org repo) w
  = (Val repository, w1) →
  fetchRepository cfg org repo w
  = (Val repository,
     stored (repoKey org repo) (VRepository repository)
       (if CACHE_TTL cfg =? 0 then 0 else now w1 + CACHE_TTL cfg * 1000) w1).
Proof. intros H. unfold fetchRepository. unfold_monad. rewrite H. reflexivity. Qed.

Lemma fetchRepository_exc org repo w e w1 :
  client_get cfg (λ r, on_repository r org repo) (GetRepository org repo) w
  = (Exc e, w1) →
  fetchRepository cfg org repo w = (Exc (repositoryFailure org repo e), w1).
Proof.
  intros H. unfold fetchRepository, repositoryFailure. unfold_monad. rewrite H.
  by destruct (bool_decide _).
Qed.

Lemma fetchRepository_calls org repo w :
  ∃ n, calls (fetchRepository cfg org repo w).2
       = calls w ++ replicate (S n) (GetRepository org repo).
Proof.
  unfold fetchRepository, client_get. unfold_monad.
  destruct (request_frame cfg (λ r, on_repository r org repo)
              (GetRepository org repo) (upstream w) w)
    as (r & w2 & n & -> & _ & _ & Hl).
  exists n. destruct r as [repository|error]; [done|].
  by destruct (bool_decide _).
Qed.

Lemma getRepository_absent org repo w :
  cache w !! repoKey org repo = None →
  getRepository cfg org repo w = fetchRepository cfg org repo w.
Proof.
  intros H. unfold getRepository.
  by rewrite (bind_run_val _ _ _ _ _ (cache_get_absent _ _ H)).
Qed.

Lemma getRepository_expired org repo w e :
  cache w !! repoKey org repo = Some e → t e ≠ 0 → t e < now w →
  ∃ n, calls (getRepository cfg org repo w).2
       = calls w ++ replicate (S n) (GetRepository org repo).
Proof.
  intros H H0 Hn. unfold getRepository.
  rewrite (bind_run_val _ _ _ _ _ (cache_get_expired _ _ _ H H0 Hn)).
  apply (fetchRepository_calls org repo (set_cache _ w)).
Qed.

Lemma getRepository_fresh org repo w e repository :
  cache w !! repoKey org repo = Some e → v e = VRepository repository →
  t e = 0 ∨ now w ≤ t e →
  getRepository cfg org repo w = (Val repository, w).
Proof.
  intros H Hv Ht. unfold getRepository.
  rewrite (bind_run_val _ _ _ _ _ (cache_get_hit _ _ _ H Ht)). by rewrite Hv.
Qed.

Lemma fetchCommits_val org repo since until page w commits w1 :
  client_get cfg (λ r, on_commits r org repo (param since) (param until) page 100)
    (pageRequest org repo since until page) w = (Val commits, w1) →
  fetchCommits cfg org repo since until page w
  = (Val commits,
     stored (commitsKey org repo since until page) (VCommits commits)
       (now w1 + cacheTime cfg since (now w1) * 1000) w1).
Proof.
  intros H. unfold fetchCommits, pageRequest in *. unfold_monad. rewrite H.
  unfold cache_set, exec, stored. cbn [default].
  assert (E : (cacheTime cfg since (now w1) =? 0) = false).
  { unfold cacheTime. repeat case_match; reflexivity. }
  unfold id. rewrite E. reflexivity.
Qed.

Lemma fetchCommits_exc org repo since until page w e w1 :
  client_get cfg (λ r, on_commits r org repo (param since) (param until) page 100)
    (pageRequest org repo since until page) w = (Exc e, w1) →
  JSError.status e ≠ Some 409 →
  fetchCommits cfg org repo since until page w = (Exc (commitsFailure org repo e), w1).
Proof.
  intros H H409. unfold fetchCommits, commitsFailure, pageRequest in *.
  unfold_monad. rewrite H.
  destruct (bool_decide (JSError.status e = Some 404)); [done|].
  by rewrite (bool_decide_eq_false_2 _ H409).
Qed.

Lemma getCommits_absent org repo since until page w :
  cache w !! commitsKey org repo since until page = None →
  getCommits cfg org repo since until page w
  = fetchCommits cfg org repo since until page w.
Proof.
  intros H. unfold getCommits.
  by rewrite (bind_run_val _ _ _ _ _ (cache_get_absent _ _ H)).
Qed.

Lemma getCommits_expired org repo since until page w e :
  cache w !! commitsKey org repo since until page = Some e →
  t e ≠ 0 → t e < now w →
  ∃ n, calls (getCommits cfg org repo since until page w).2
       = calls w ++ replicate (S n) (pageRequest org repo since until page).
Proof.
  intros H H0 Hn. unfold getCommits.
  rewrite (bind_run_val _ _ _ _ _ (cache_get_expired _ _ _ H H0 Hn)).
  apply (fetchCommits_calls cfg org repo since until page (set_cache _ w)).
Qed.

Lemma getCommits_fresh org repo since until page w e commits :
  cache w !! commitsKey org repo since until page = Some e →
  v e = VCommits commits → t e = 0 ∨ now w ≤ t e →
  getCommits cfg org repo since until page w = (Val commits, w).
Proof.
  intros H Hv Ht. unfold getCommits.
  rewrite (bind_run_val _ _ _ _ _ (cache_get_hit _ _ _ H Ht)). by rewrite Hv.
Qed.

Lemma cacheTime_cases since now_ :
  (cacheTime cfg since now_ = 300 ∨ cacheTime cfg since now_ = 3600)
  ∧ (param since = None → cacheTime cfg since now_ = 3600).
Proof.
  unfold cacheTime. split; [repeat case_match; auto|]. by intros ->.
Qed.

End Lookup.

(** X6.  With a time to live that is not negative and a clock after the
    epoch, a repository that is not in the cache and that the platform
    serves is fetched with one request and returned; from then on, as long
    as its entry is there, [getRepository] returns it without any request
    up to [CACHE_TTL] seconds after the fetch (for ever when [CACHE_TTL] is
    0), and sends a request again once that time is over. *)
Theorem repository_kept_for_ttl cfg org repo w r rest repository remaining :
  0 ≤ CACHE_TTL cfg → 0 < now w →
  cache w !! repoKey org repo = None →
  upstream w = r :: rest →
  on_repository r org repo = Ok repository remaining →
  ∃ w', getRepository cfg org repo w = (Val repository, w')
    ∧ calls w' = calls w ++ [GetRepository org repo]
    ∧ ∀ w2, cache w2 !! repoKey org repo = cache w' !! repoKey org repo →
        (CACHE_TTL cfg = 0 ∨ now w2 ≤ now w' + CACHE_TTL cfg * 1000 →
         getRepository cfg org repo w2 = (Val repository, w2))
        ∧ (CACHE_TTL cfg ≠ 0 → now w' + CACHE_TTL cfg * 1000 < now w2 →
           ∃ n, calls (getRepository cfg org repo w2).2
                = calls w2 ++ replicate (S n) (GetRepository org repo)).
Proof.
  intros Httl Hnow Hcold Hu Hr.
  destruct (client_get_answered cfg (λ r, on_repository r org repo)
              (GetRepository org repo) [] r rest repository remaining w
              (Forall_nil_2 _) Hu Hr)
    as (w1 & E & Hk & _ & _ & Hn1).
  rewrite (getRepository_absent cfg org repo w Hcold),
    (fetchRepository_val cfg org repo w repository w1 E).
  eexists. split; [reflexivity|]. split; [exact Hk|].
  intros w2. unfold stored. cbn. rewrite lookup_insert_eq. intros H2. split.
  - intros Ht. eapply getRepository_fresh; [exact H2 | reflexivity |]. cbn.
    destruct Ht as [-> | Ht]; [by left|].
    destruct (CACHE_TTL cfg =? 0); [by left | by right].
  - intros H0 Hn. eapply getRepository_expired; [exact H2 | |]; cbn;
      rewrite (proj2 (Z.eqb_neq _ _) H0).
    + lia.
    + exact Hn.
Qed.

Lemma repository_kept_for_ttl_witness :
  let w := Scenario.fresh [Scenario.answer []] in
  let run := getRepository defaultConfig "acme" "widgets" w in
  0 ≤ CACHE_TTL defaultConfig ∧ 0 < now w
  ∧ cache w !! repoKey "acme" "widgets" = None
  ∧ run.1 = Val Scenario.widgets
  ∧ getRepository defaultConfig "acme" "widgets" (set_now (now w + 86400000) run.2)
    = (Val Scenario.widgets, set_now (now w + 86400000) run.2)
  ∧ ∃ n, calls (getRepository defaultConfig "acme" "widgets"
                  (set_now (now w + 86400001) run.2)).2
         = calls run.2 ++ replicate (S n) (GetRepository "acme" "widgets").
Proof.
  intros w run.
  assert (H1 : 0 ≤ CACHE_TTL defaultConfig) by (vm_compute; discriminate).
  assert (H2 : 0 < now w) by reflexivity.
  assert (H3 : cache w !! repoKey "acme" "widgets" = None) by reflexivity.
  destruct (repository_kept_for_ttl defaultConfig "acme" "widgets" w
              (Scenario.answer []) [] Scenario.widgets None H1 H2 H3 eq_refl eq_refl)
    as (w' & E & Hk & Hlater).
  assert (Hw : run.2 = w') by (unfold run; rewrite E; reflexivity).
  split_and!; [exact H1 | exact H2 | exact H3 | unfold run; rewrite E; reflexivity | |].
  - rewrite Hw. apply (Hlater (set_now (now w + 86400000) w')); [reflexivity|].
    right. rewrite <- Hw. vm_compute. discriminate.
  - rewrite Hw. apply (Hlater (set_now (now w + 86400001) w')); [reflexivity| |].
    + vm_compute. discriminate.
    + rewrite <- Hw. vm_compute. reflexivity.
Defined.

(** X7.  When the repository is not in the cache and the platform answers
    with a failure that stays, [getRepository] throws ["Repository
    org/repo not found"] for status 404 and ["Failed to fetch repository:
    "] followed by the message of the failure otherwise; when the platform
    does not answer it throws ["Failed to fetch repository: timeout of
    30000ms exceeded"].  In both cases one request has left and the cache
    is as it was. *)
Theorem repository_failure_reported cfg org repo w :
  cache w !! repoKey org repo = None →
  (∀ r rest e,
     upstream w = r :: rest → on_repository r org repo = Fail e →
     permanent e = true →
     ∃ w', getRepository cfg org repo w = (Exc (repositoryFailure org repo e), w')
       ∧ calls w' = calls w ++ [GetRepository org repo]
       ∧ cache w' = cache w)
  ∧ (upstream w = [] →
     ∃ w', getRepository cfg org repo w
           = (Exc (JSError.Error
                     "Failed to fetch repository: timeout of 30000ms exceeded"), w')
       ∧ calls w' = calls w ++ [GetRepository org repo]
       ∧ cache w' = cache w).
Proof.
  intros Hcold. rewrite (getRepository_absent cfg org repo w Hcold). split.
  - intros r rest e Hu Hr He.
    destruct (client_get_rethrown cfg (λ r, on_repository r org repo)
                (GetRepository org repo) r rest e w Hu Hr He)
      as (w1 & E & Hk & _ & Hc).
    exists w1. by rewrite (fetchRepository_exc cfg org repo w e w1 E).
  - intros Hu.
    destruct (client_get_unanswered cfg (λ r, on_repository r org repo)
                (GetRepository org repo) w)
      as (w1 & E & Hk & _ & Hc & _).
    { rewrite Hu. constructor. }
    exists w1. rewrite (fetchRepository_exc cfg org repo w _ w1 E).
    rewrite Hu in Hk. done.
Qed.

Lemma repository_failure_reported_witness :
  let w := Scenario.fresh [notFound] in
  cache w !! repoKey "acme" "widgets" = None
  ∧ ∃ w', getRepository defaultConfig "acme" "widgets" w
          = (Exc (JSError.Error "Repository acme/widgets not found"), w')
          ∧ calls w' = [GetRepository "acme" "widgets"]
          ∧ cache w' = ∅.
Proof.
  intros w.
  assert (H : cache w !! repoKey "acme" "widgets" = None) by reflexivity.
  split; [exact H|].
  destruct (proj1 (repository_failure_reported defaultConfig "acme" "widgets" w H)
              notFound []
              {| JSError.status := Some 404; JSError.ratelimit_remaining := None;
                 JSError.ratelimit_reset := None;
                 JSError.code := Some "ERR_BAD_REQUEST";
                 JSError.message := "Request failed with status code 404" |}
              eq_refl eq_refl eq_refl)
    as (w' & E & Hk & Hc).
  exists w'. split; [exact E|]. split; [exact Hk | exact Hc].
Defined.

(** X8.  With a clock after the epoch, a page of commits that is not in
    the cache and that the platform serves is stored with an expiry time five minutes or one hour after
    the fetch, one hour when no [since] is given.  While its entry is
    there, the page is returned without a request during the first five
    minutes, and is requested again once an hour is over: a page never
    stays for ever. *)
Theorem page_kept_for_its_time cfg org repo since until page w r rest commits remaining :
  0 < now w →
  cache w !! commitsKey org repo since until page = None →
  upstream w = r :: rest →
  on_commits r org repo (param since) (param until) page 100 = Ok commits remaining →
  ∃ w' e,
    getCommits cfg org repo since until page w = (Val commits, w')
    ∧ cache w' !! commitsKey org repo since until page = Some e
    ∧ (t e = now w' + 300000 ∨ t e = now w' + 3600000)
    ∧ (param since = None → t e = now w' + 3600000)
    ∧ ∀ w2, cache w2 !! commitsKey org repo since until page = Some e →
        (now w2 ≤ now w' + 300000 →
         getCommits cfg org repo since until page w2 = (Val commits, w2))
        ∧ (now w' + 3600000 < now w2 →
           ∃ n, calls (getCommits cfg org repo since until page w2).2
                = calls w2 ++ replicate (S n) (pageRequest org repo since until page)).
Proof.
  intros Hnow Hcold Hu Hr.
  destruct (client_get_answered cfg
              (λ r, on_commits r org repo (param since) (param until) page 100)
              (pageRequest org repo since until page) [] r rest commits remaining w
              (Forall_nil_2 _) Hu Hr)
    as (w1 & E & Hk & _ & _ & Hn1).
  rewrite (getCommits_absent cfg org repo since until page w Hcold),
    (fetchCommits_val cfg org repo since until page w commits w1 E).
  destruct (cacheTime_cases cfg since (now w1)) as [Hcases Hnone].
  eexists _, _. split; [reflexivity|]. unfold stored. cbn.
  split; [apply lookup_insert_eq|]. cbn in *. split_and!.
  - destruct Hcases as [-> | ->]; [left | right]; lia.
  - intros Hs. rewrite (Hnone Hs). lia.
  - intros w2 H2. split.
    + intros Ht. eapply getCommits_fresh; [exact H2 | reflexivity |]. cbn.
      right. destruct Hcases as [-> | ->]; lia.
    + intros Hn. eapply getCommits_expired; [exact H2 | |]; cbn;
        destruct Hcases as [-> | ->]; lia.
Qed.

Lemma page_kept_for_its_time_witness :
  let since := Some "2021-06-01T00:00:00.000Z" in
  let until := Some "2021-06-30T23:59:59.000Z" in
  let w := Scenario.fresh [Scenario.answer [Scenario.commitBy (Some "A")]] in
  0 < now w
  ∧ cache w !! commitsKey "acme" "widgets" since until 1 = None
  ∧ ∃ w' e,
      getCommits defaultConfig "acme" "widgets" since until 1 w
      = (Val [Scenario.commitBy (Some "A")], w')
      ∧ cache w' !! commitsKey "acme" "widgets" since until 1 = Some e
      ∧ (t e = now w' + 300000 ∨ t e = now w' + 3600000).
Proof.
  intros since until w.
  assert (H1 : 0 < now w) by reflexivity.
  assert (H2 : cache w !! commitsKey "acme" "widgets" since until 1 = None)
    by reflexivity.
  split; [exact H1|]. split; [exact H2|].
  destruct (page_kept_for_its_time defaultConfig "acme" "widgets" since until 1 w
              (Scenario.answer [Scenario.commitBy (Some "A")]) []
              [Scenario.commitBy (Some "A")] None H1 H2 eq_refl eq_refl)
    as (w' & e & E & He & Ht & _).
  exists w', e. split; [exact E|]. split; [exact He | exact Ht].
Defined.

(** X9.  When a page is not in the cache and the platform answers with a
    failure that stays, other than 409, [getCommits] throws ["Repository
    org/repo not found"] for status 404 and ["Failed to fetch commits: "]
    followed by the message of the failure otherwise; when the platform
    does not answer it throws ["Failed to fetch commits: timeout of
    30000ms exceeded"].  In both cases one request has left and the cache
    is as it was. *)
Theorem page_failure_reported cfg org repo since until page w :
  cache w !! commitsKey org repo since until page = None →
  (∀ r rest e,
     upstream w = r :: rest →
     on_commits r org repo (param since) (param until) page 100 = Fail e →
     permanent e = true → JSError.status e ≠ Some 409 →
     ∃ w', getCommits cfg org repo since until page w
           = (Exc (commitsFailure org repo e), w')
       ∧ calls w' = calls w ++ [pageRequest org repo since until page]
       ∧ cache w' = cache w)
  ∧ (upstream w = [] →
     ∃ w', getCommits cfg org repo since until page w
           = (Exc (JSError.Error
                     "Failed to fetch commits: timeout of 30000ms exceeded"), w')
       ∧ calls w' = calls w ++ [pageRequest org repo since until page]
       ∧ cache w' = cache w).
Proof.
  intros Hcold. rewrite (getCommits_absent cfg org repo since until page w Hcold). split.
  - intros r rest e Hu Hr He H409.
    destruct (client_get_rethrown cfg
                (λ r, on_commits r org repo (param since) (param until) page 100)
                (pageRequest org repo since until page) r rest e w Hu Hr He)
      as (w1 & E & Hk & _ & Hc).
    exists w1. by rewrite (fetchCommits_exc cfg org repo since until page w e w1 E H409).
  - intros Hu.
    destruct (client_get_unanswered cfg
                (λ r, on_commits r org repo (param since) (param until) page 100)
                (pageRequest org repo since until page) w)
      as (w1 & E & Hk & _ & Hc & _).
    { rewrite Hu. constructor. }
    exists w1. rewrite (fetchCommits_exc cfg org repo since until page w _ w1 E) by done.
    rewrite Hu in Hk. done.
Qed.

Lemma page_failure_reported_witness :
  let since := Some "2021-06-01T00:00:00.000Z" in
  let until := Some "2021-06-30T23:59:59.000Z" in
  let w := Scenario.fresh [] in
  cache w !! commitsKey "acme" "widgets" since until 1 = None
  ∧ upstream w = []
  ∧ ∃ w', getCommits defaultConfig "acme" "widgets" since until 1 w
          = (Exc (JSError.Error "Failed to fetch commits: timeout of 30000ms exceeded"),
             w')
          ∧ calls w' = [pageRequest "acme" "widgets" since until 1].
Proof.
  intros since until w.
  assert (H : cache w !! commitsKey "acme" "widgets" since until 1 = None)
    by reflexivity.
  split; [exact H|]. split; [reflexivity|].
  destruct (proj2 (page_failure_reported defaultConfig "acme" "widgets" since until 1
                     w H) eq_refl)
    as (w' & E & Hk & _).
  exists w'. split; [exact E | exact Hk].
Defined.

(** ** Timestamps *)

Lemma readBack_checked :
  readBack 2 100 = true ∧ readBack 3 1000 = true ∧ readBack 4 10000 = true.
Proof. split; [|split]; vm_compute; reflexivity. Qed.

Lemma pad_readBack len bound n :
  readBack len bound = true → 0 ≤ n < bound →
  JSString.digits len 0 (JSDate.pad len n) = Some (n, "").
Proof.
  intros H Hn.
  assert (Hin : In n (seqZ 0 bound)).
  { apply list_elem_of_In, elem_of_seqZ. lia. }
  pose proof (proj1 (forallb_forall _ _) H n Hin) as Hlen. cbv beta in Hlen.
  by apply bool_decide_eq_true in Hlen.
Qed.

Lemma digits_append n : ∀ acc a v rest,
  JSString.digits n acc a = Some (v, "") →
  JSString.digits n acc (a +:+ rest) = Some (v, rest).
Proof.
  induction n as [|n IH]; intros acc a v rest; cbn [JSString.digits].
  - intros [= -> ->]. by rewrite append_nil.
  - destruct a as [|c a]; [done|]. rewrite append_cons.
    destruct (JSString.digit c); [apply IH | done].
Qed.

Lemma parseYear_append a v rest :
  JSString.digits 4 0 a = Some (v, "") →
  JSDate.parseYear (a +:+ rest) = Some (v, rest).
Proof.
  intros H. unfold JSDate.parseYear. by apply digits_append.
Qed.

Lemma expect_append c rest : JSString.expect c (String c "" +:+ rest) = Some rest.
Proof.
  rewrite append_cons, append_nil. unfold JSString.expect.
  by rewrite decide_True.
Qed.

Lemma civil_year_range z :
  0 ≤ z < 84006 → 1600 ≤ (JSDate.civil_from_days z).1.1 ≤ 2400.
Proof.
  intros Hz. unfold JSDate.civil_from_days. cbn [fst snd].
  set (z' := z + 719468).
  set (era := z' / 146097).
  assert (Hera : 4 ≤ era ≤ 5) by (subst era z'; Z.div_mod_to_equations; lia).
  set (doe := z' - era * 146097).
  assert (Hdoe : 0 ≤ doe ≤ 146096).
  { subst doe era. pose proof (Z.mod_pos_bound z' 146097 ltac:(lia)) as H.
    rewrite Z.mod_eq in H by lia. lia. }
  clearbody doe. clearbody era. clear z' Hz.
  set (yoe := (doe - doe / 1460 + doe / 36524 - doe / 146096) / 365).
  assert (Hyoe : 0 ≤ yoe ≤ 399) by (subst yoe; Z.div_mod_to_equations; lia).
  clearbody yoe. destruct (_ <=? 2); lia.
Qed.

Lemma time_of_day_sum tod :
  0 ≤ tod < 86400000 →
  JSDate.MakeTime (tod / 3600000) (tod / 60000 mod 60) (tod / 1000 mod 60)
    (tod mod 1000) = tod
  ∧ tod / 3600000 ≤ 23.
Proof.
  intros H. unfold JSDate.MakeTime. Z.div_mod_to_equations. lia.
Qed.

Lemma parse_timestamp tz engine sy sm sd sh smi ss sms y m d h mi s ms :
  JSString.digits 4 0 sy = Some (y, "") →
  JSString.digits 2 0 sm = Some (m, "") →
  JSString.digits 2 0 sd = Some (d, "") →
  JSString.digits 2 0 sh = Some (h, "") →
  JSString.digits 2 0 smi = Some (mi, "") →
  JSString.digits 2 0 ss = Some (s, "") →
  JSString.digits 3 0 sms = Some (ms, "") →
  1 ≤ m ≤ 12 → 1 ≤ d ≤ 31 → h ≤ 23 → mi ≤ 59 → s ≤ 59 →
  JSDate.parse tz engine
    (sy +:+ "-" +:+ sm +:+ "-" +:+ sd +:+ "T" +:+ sh +:+ ":" +:+ smi +:+ ":"
     +:+ ss +:+ "." +:+ sms +:+ "Z")
  = Some (JSDate.days_from_civil y m d * JSDate.msPerDay + JSDate.MakeTime h mi s ms).
Proof.
  intros Hy Hm Hd Hh Hmi Hs Hms Rm Rd Rh Rmi Rs.
  unfold JSDate.parse, JSDate.readISO.
  rewrite (parseYear_append _ _ _ Hy). cbn [mbind option_bind].
  rewrite expect_append. cbn [mbind option_bind].
  rewrite (digits_append _ _ _ _ _ Hm). cbn [mbind option_bind].
  rewrite expect_append. cbn [mbind option_bind].
  rewrite (digits_append _ _ _ _ _ Hd). cbn [mbind option_bind].
  rewrite (proj2 (Z.leb_le 1 m)), (proj2 (Z.leb_le m 12)),
    (proj2 (Z.leb_le 1 d)), (proj2 (Z.leb_le d 31)) by lia.
  cbn [andb]. rewrite append_cons, append_nil.
  unfold JSDate.parseTime.
  rewrite (digits_append _ _ _ _ _ Hh). cbn [mbind option_bind].
  rewrite expect_append. cbn [mbind option_bind].
  rewrite (digits_append _ _ _ _ _ Hmi). cbn [mbind option_bind].
  rewrite expect_append. cbn [mbind option_bind].
  rewrite (digits_append _ _ _ _ _ Hs). cbn [mbind option_bind].
  rewrite append_cons, append_nil.
  rewrite (digits_append _ _ _ _ _ Hms). cbn [mbind option_bind].
  rewrite (proj2 (Z.leb_le h 23)), (proj2 (Z.leb_le mi 59)),
    (proj2 (Z.leb_le s 59)) by lia.
  reflexivity.
Qed.

Lemma timestamp_read_back tz engine t :
  supported t →
  ∃ s, JSDate.toISOString (Some t) = Some s ∧ JSDate.parse tz engine s = Some t.
Proof.
  intros Ht. unfold supported, JSDate.msPerDay in Ht.
  unfold JSDate.toISOString. cbn [mbind option_bind].
  assert (Hz : 0 ≤ t / JSDate.msPerDay < 84006).
  { unfold JSDate.msPerDay. split; [apply Z.div_pos; lia|].
    apply Z.div_lt_upper_bound; lia. }
  pose proof (civil_dates_agree _ Hz) as Hagree.
  pose proof (civil_year_range _ Hz) as Hyear.
  destruct (JSDate.civil_from_days (t / JSDate.msPerDay)) as [[y m] dd].
  cbn [fst snd] in *. destruct Hagree as (Hday & Hm & Hd).
  rewrite (proj2 (Z.leb_le 0 y)), (proj2 (Z.leb_le y 9999)) by lia. cbn [andb].
  eexists. split; [reflexivity|].
  destruct readBack_checked as (P2 & P3 & P4).
  destruct (time_of_day_range t) as (Hh & Hmi & Hs & Hms).
  assert (Htod : 0 ≤ t mod 86400000 < 86400000) by (apply Z.mod_pos_bound; lia).
  destruct (time_of_day_sum _ Htod) as [Hsum Hh23].
  assert (Hmi59 : t mod 86400000 / 60000 mod 60 ≤ 59).
  { pose proof (Z.mod_pos_bound (t mod 86400000 / 60000) 60 ltac:(lia)). lia. }
  assert (Hs59 : t mod 86400000 / 1000 mod 60 ≤ 59).
  { pose proof (Z.mod_pos_bound (t mod 86400000 / 1000) 60 ltac:(lia)). lia. }
  unfold JSDate.msPerDay in *.
  rewrite (parse_timestamp tz engine _ _ _ _ _ _ _ _ _ _ _ _ _ _
             (pad_readBack 4 10000 y P4 ltac:(lia))
             (pad_readBack 2 100 m P2 ltac:(lia))
             (pad_readBack 2 100 dd P2 ltac:(lia))
             (pad_readBack 2 100 _ P2 Hh)
             (pad_readBack 2 100 _ P2 Hmi)
             (pad_readBack 2 100 _ P2 Hs)
             (pad_readBack 3 1000 _ P3 Hms) Hm Hd Hh23 Hmi59 Hs59).
  rewrite Hday, Hsum. unfold JSDate.msPerDay. f_equal.
  pose proof (Z.div_mod t 86400000 ltac:(lia)). lia.
Qed.

(** X10.  For every instant from 1970 to the end of 2199, the timestamp
    [toISOString] writes is read back by [new Date] as the same instant, in
    every time zone; so two such instants with the same timestamp are the
    same. *)
Theorem timestamp_round_trip :
  (∀ tz engine t, supported t →
     ∃ s, JSDate.toISOString (Some t) = Some s
          ∧ JSDate.parse tz engine s = Some t)
  ∧ (∀ a b, supported a → supported b →
       JSDate.toISOString (Some a) = JSDate.toISOString (Some b) → a = b).
Proof.
  split; [apply timestamp_read_back|].
  intros a b Ha Hb Heq.
  destruct (timestamp_read_back 0 JSDate.strict a Ha) as (sa & Ea & Pa).
  destruct (timestamp_read_back 0 JSDate.strict b Hb) as (sb & Eb & Pb).
  rewrite Ea, Eb in Heq. injection Heq as ->. congruence.
Qed.

Lemma timestamp_round_trip_witness :
  supported 1622505600000
  ∧ JSDate.toISOString (Some 1622505600000) = Some "2021-06-01T00:00:00.000Z"
  ∧ JSDate.parse (-300) JSDate.strict "2021-06-01T00:00:00.000Z"
    = Some 1622505600000.
Proof.
  assert (H : supported 1622505600000) by (vm_compute; split; [discriminate | reflexivity]).
  split; [exact H|].
  destruct (proj1 timestamp_round_trip (-300) JSDate.strict 1622505600000 H)
    as (s & Es & Ps).
  assert (Hs : s = "2021-06-01T00:00:00.000Z").
  { assert (E : JSDate.toISOString (Some 1622505600000)
                = Some "2021-06-01T00:00:00.000Z") by reflexivity.
    rewrite E in Es. by injection Es. }
  subst s. split; [exact Es | exact Ps].
Defined.

Lemma cacheTime_timestamp cfg start since now_ :
  supported start → JSDate.toISOString (Some start) = Some since →
  cacheTime cfg (Some since) now_ = if now_ - 86400000 <? start then 300 else 3600.
Proof.
  intros Ht Hs.
  destruct (timestamp_read_back (timeZone cfg) (otherDates cfg) start Ht)
    as (s & Es & Ps).
  rewrite Hs in Es. injection Es as <-.
  assert (Hlength : String.length since = 24%nat).
  { destruct (toISOString_length (Some start)) as (s' & E' & L').
    - exists start. split; [done|].
      assert (Hz : 0 ≤ start / JSDate.msPerDay < 84006).
      { unfold supported, JSDate.msPerDay in *. split; [apply Z.div_pos; lia|].
        apply Z.div_lt_upper_bound; lia. }
      pose proof (civil_year_range _ Hz). lia.
    - rewrite Hs in E'. by injection E' as <-. }
  unfold cacheTime. destruct since as [|c since]; [discriminate Hlength|].
  cbn [param JSString.truthy]. rewrite Ps. reflexivity.
Qed.

(** X11.  The pages of a window whose start, written as a timestamp, is
    less than 24 hours before the fetch are stored for five minutes, the
    pages of every other window for one hour. *)
Theorem recent_window_short_lived cfg org repo start since until page w r rest
    commits remaining :
  supported start → JSDate.toISOString (Some start) = Some since →
  cache w !! commitsKey org repo (Some since) until page = None →
  upstream w = r :: rest →
  on_commits r org repo (param (Some since)) (param until) page 100
  = Ok commits remaining →
  ∃ w' e,
    getCommits cfg org repo (Some since) until page w = (Val commits, w')
    ∧ cache w' !! commitsKey org repo (Some since) until page = Some e
    ∧ v e = VCommits commits
    ∧ t e = now w' + (if now w' - 86400000 <? start then 300000 else 3600000).
Proof.
  intros Ht Hs Hcold Hu Hr.
  destruct (client_get_answered cfg
              (λ r, on_commits r org repo (param (Some since)) (param until) page 100)
              (pageRequest org repo (Some since) until page) [] r rest commits
              remaining w (Forall_nil_2 _) Hu Hr)
    as (w1 & E & _).
  rewrite (getCommits_absent cfg org repo (Some since) until page w Hcold),
    (fetchCommits_val cfg org repo (Some since) until page w commits w1 E).
  eexists _, _. split; [reflexivity|]. unfold stored. cbn.
  split; [apply lookup_insert_eq|]. cbn. split; [reflexivity|].
  rewrite (cacheTime_timestamp cfg start since (now w1) Ht Hs).
  by destruct (_ <? _).
Qed.

Lemma recent_window_short_lived_witness :
  let start := 1699999000000 in
  let since := "2023-11-14T21:56:40.000Z" in
  let until := Some "2023-11-30T23:59:59.000Z" in
  let w := Scenario.fresh [Scenario.answer []] in
  supported start
  ∧ JSDate.toISOString (Some start) = Some since
  ∧ cache w !! commitsKey "acme" "widgets" (Some since) until 1 = None
  ∧ ∃ w' e,
      getCommits defaultConfig "acme" "widgets" (Some since) until 1 w = (Val [], w')
      ∧ cache w' !! commitsKey "acme" "widgets" (Some since) until 1 = Some e
      ∧ t e = now w' + 300000.
Proof.
  intros start since until w.
  assert (H1 : supported start) by (vm_compute; split; [discriminate | reflexivity]).
  assert (H2 : JSDate.toISOString (Some start) = Some since) by reflexivity.
  assert (H3 : cache w !! commitsKey "acme" "widgets" (Some since) until 1 = None)
    by reflexivity.
  split; [exact H1|]. split; [exact H2|]. split; [exact H3|].
  destruct (recent_window_short_lived defaultConfig "acme" "widgets" start since until
              1 w (Scenario.answer []) [] [] None H1 H2 H3 eq_refl eq_refl)
    as (w' & e & E & He & _ & Ht).
  exists w', e. split; [exact E|]. split; [exact He|].
  rewrite Ht. f_equal.
  assert (Hw : w' = (getCommits defaultConfig "acme" "widgets" (Some since) until 1 w).2)
    by (rewrite E; reflexivity).
  rewrite Hw. reflexivity.
Defined.

(** ** The governor and the cache through the service *)

Lemma paced_refl cfg w : paced cfg w w.
Proof. split; [lia | auto]. Qed.

Lemma paced_trans cfg w1 w2 w3 : paced cfg w1 w2 → paced cfg w2 w3 → paced cfg w1 w3.
Proof. intros [H1 G1] [H2 G2]. split; [lia | auto]. Qed.

Section Paced.
Variable cfg : Config.
Hypothesis limit_positive : 0 < RATE_LIMIT_PER_HOUR cfg.

Lemma paced_service org repo since until page year month :
  respects (paced cfg) (getRepository cfg org repo)
  ∧ respects (paced cfg) (getCommits cfg org repo since until page)
  ∧ respects (paced cfg) (getNewContributorsByMonth cfg org repo year month).
Proof.
  assert (Hdelete : ∀ w key, paced cfg w (set_cache (delete key (cache w)) w)).
  { intros. split; [cbn; lia | unfold governed; cbn; tauto]. }
  assert (Hstore : ∀ w key value expiry, filed key value →
            paced cfg w (set_cache (<[key := {| v := value; t := expiry |}]> (cache w)) w)).
  { intros. split; [cbn; lia | unfold governed; cbn; tauto]. }
  assert (Hprint : ∀ w l, paced cfg w (print l w)).
  { intros. split; [cbn; lia | unfold governed; cbn; tauto]. }
  assert (Hclock : ∀ w d, 0 ≤ d → paced cfg w (set_now (now w + d) w)).
  { intros w d Hd. split; cbn; [lia|]. unfold governed. cbn. lia. }
  assert (Hdisp : ∀ w req rest, paced cfg w (dispatched req rest w)).
  { intros. split; [cbn; lia | unfold governed; cbn; tauto]. }
  pose proof (requestInterceptor_paced cfg limit_positive) as Hreserve.
  split_and!.
  - apply (respects_getRepository _ (paced_refl cfg) (paced_trans cfg) cfg); assumption.
  - apply (respects_getCommits _ (paced_refl cfg) (paced_trans cfg) cfg); assumption.
  - apply (respects_getNewContributorsByMonth _ (paced_refl cfg) (paced_trans cfg) cfg);
      assumption.
Qed.

End Paced.

(** X1.  With a positive hourly limit, no call of [getRepository], [getCommits]
    or [getNewContributorsByMonth] sets the clock back, and each leaves the
    counters of the rate governor in order when it found them so: the
    window did not start in the future and the count is between 0 and the
    limit, whatever the platform answers and however many requests leave. *)
Theorem governor_stays_in_order cfg :
  0 < RATE_LIMIT_PER_HOUR cfg →
  (∀ org repo w res w',
     getRepository cfg org repo w = (res, w') →
     now w ≤ now w' ∧ (governed cfg w → governed cfg w'))
  ∧ (∀ org repo since until page w res w',
       getCommits cfg org repo since until page w = (res, w') →
       now w ≤ now w' ∧ (governed cfg w → governed cfg w'))
  ∧ (∀ org repo year month w res w',
       getNewContributorsByMonth cfg org repo year month w = (res, w') →
       now w ≤ now w' ∧ (governed cfg w → governed cfg w')).
Proof.
  intros Hlimit. split_and!.
  - intros org repo w res w' H.
    by apply (proj1 (paced_service cfg Hlimit org repo None None 0 "" None) w res w').
  - intros org repo since until page w res w' H.
    by apply (proj1 (proj2 (paced_service cfg Hlimit org repo since until page "" None))
                w res w').
  - intros org repo year month w res w' H.
    by apply (proj2 (proj2 (paced_service cfg Hlimit org repo None None 0 year month))
                w res w').
Qed.

Lemma governor_stays_in_order_witness :
  let run :=
    getNewContributorsByMonth defaultConfig "acme" "widgets" "2021" (Some "6")
      Scenario.juneWorld in
  0 < RATE_LIMIT_PER_HOUR defaultConfig
  ∧ governed defaultConfig Scenario.juneWorld
  ∧ now Scenario.juneWorld ≤ now run.2
  ∧ governed defaultConfig run.2.
Proof.
  intros run.
  assert (H : 0 < RATE_LIMIT_PER_HOUR defaultConfig) by reflexivity.
  assert (G : governed defaultConfig Scenario.juneWorld).
  { unfold governed. cbn. lia. }
  destruct (proj2 (proj2 (governor_stays_in_order defaultConfig H))
              "acme" "widgets" "2021" (Some "6") Scenario.juneWorld run.1 run.2)
    as [Hn Hg].
  { unfold run. by destruct (getNewContributorsByMonth _ _ _ _ _ _). }
  split_and!; [exact H | exact G | exact Hn | exact (Hg G)].
Defined.

(** ** Entries and their keys *)

Lemma filed_service cfg org repo since until page year month :
  respects filedAfter (getRepository cfg org repo)
  ∧ respects filedAfter (getCommits cfg org repo since until page)
  ∧ respects filedAfter (getNewContributorsByMonth cfg org repo year month).
Proof.
  assert (Hrefl : ∀ w, filedAfter w w) by (intros w H; exact H).
  assert (Htrans : ∀ w1 w2 w3, filedAfter w1 w2 → filedAfter w2 w3 → filedAfter w1 w3).
  { intros w1 w2 w3 H1 H2 H. auto. }
  assert (Hdelete : ∀ w key, filedAfter w (set_cache (delete key (cache w)) w)).
  { intros w key H k e. cbn. intros Hk. apply lookup_delete_Some in Hk as [_ Hk].
    by apply H. }
  assert (Hstore : ∀ w key value expiry, filed key value →
            filedAfter w (set_cache (<[key := {| v := value; t := expiry |}]> (cache w)) w)).
  { intros w key value expiry Hf H k e. cbn. intros Hk.
    apply lookup_insert_Some in Hk as [[<- <-] | [_ Hk]]; [exact Hf | by apply H]. }
  assert (Hprint : ∀ w l, filedAfter w (print l w)) by (intros w l H; exact H).
  assert (Hclock : ∀ w d, 0 ≤ d → filedAfter w (set_now (now w + d) w)).
  { intros w d _ H; exact H. }
  assert (Hdisp : ∀ w req rest, filedAfter w (dispatched req rest w)).
  { intros w req rest H; exact H. }
  assert (Hreserve : respects filedAfter (requestInterceptor cfg)).
  { intros w res w' E H k e.
    destruct (requestInterceptor_frame cfg w) as (w1 & E1 & Hc & _).
    rewrite E1 in E. injection E as _ <-. rewrite Hc. apply H. }
  split_and!.
  - apply (respects_getRepository _ Hrefl Htrans cfg); assumption.
  - apply (respects_getCommits _ Hrefl Htrans cfg); assumption.
  - apply (respects_getNewContributorsByMonth _ Hrefl Htrans cfg); assumption.
Qed.

Lemma wellFiled_kinds w :
  wellFiled w →
  (∀ org repo e, cache w !! repoKey org repo = Some e → ∃ r, v e = VRepository r)
  ∧ (∀ org repo since until page e,
       cache w !! commitsKey org repo since until page = Some e →
       ∃ commits, v e = VCommits commits)
  ∧ (∀ org repo year month e,
       cache w !! contributorsKey org repo year month = Some e →
       ∃ d, v e = VContributors d).
Proof.
  intros H. split_and!.
  - intros org repo e He. specialize (H _ _ He). destruct (v e) as [r|cs|d]; cbn in H.
    + eauto.
    + destruct H as (o & r & s & u & p & Hk). by apply repoKey_not_commitsKey in Hk.
    + destruct H as (m & Hk & _). by apply repoKey_not_contributorsKey in Hk.
  - intros org repo since until page e He. specialize (H _ _ He).
    destruct (v e) as [r|cs|d]; cbn in H.
    + destruct H as (o & r' & Hk). symmetry in Hk. by apply repoKey_not_commitsKey in Hk.
    + eauto.
    + destruct H as (m & Hk & _). by apply commitsKey_not_contributorsKey in Hk.
  - intros org repo year month e He. specialize (H _ _ He).
    destruct (v e) as [r|cs|d]; cbn in H.
    + destruct H as (o & r' & Hk). symmetry in Hk.
      by apply repoKey_not_contributorsKey in Hk.
    + destruct H as (o & r & s & u & p & Hk). symmetry in Hk.
      by apply commitsKey_not_contributorsKey in Hk.
    + eauto.
Qed.

(** X2.  The cache of a fresh process is well filed, and [getRepository],
    [getCommits] and [getNewContributorsByMonth] keep it so: every entry
    holds a value of the kind of its key.  In a well-filed cache a lookup
    under the key of a repository finds a repository, under the key of a
    page a list of commits, under the key of a query a result: the value
    read is always of the type the reader takes it for. *)
Theorem entries_filed_by_kind cfg :
  wellFiled (Scenario.fresh [])
  ∧ (∀ org repo w res w',
       getRepository cfg org repo w = (res, w') → wellFiled w → wellFiled w')
  ∧ (∀ org repo since until page w res w',
       getCommits cfg org repo since until page w = (res, w') →
       wellFiled w → wellFiled w')
  ∧ (∀ org repo year month w res w',
       getNewContributorsByMonth cfg org repo year month w = (res, w') →
       wellFiled w → wellFiled w')
  ∧ (∀ w, wellFiled w →
       (∀ org repo e, cache w !! repoKey org repo = Some e → ∃ r, v e = VRepository r)
       ∧ (∀ org repo since until page e,
            cache w !! commitsKey org repo since until page = Some e →
            ∃ commits, v e = VCommits commits)
       ∧ (∀ org repo year month e,
            cache w !! contributorsKey org repo year month = Some e →
            ∃ d, v e = VContributors d)).
Proof.
  split_and!.
  - intros k e. cbn. by rewrite lookup_empty.
  - intros org repo w res w' H.
    by apply (proj1 (filed_service cfg org repo None None 0 "" None) w res w').
  - intros org repo since until page w res w' H.
    by apply (proj1 (proj2 (filed_service cfg org repo since until page "" None)) w res w').
  - intros org repo year month w res w' H.
    by apply (proj2 (proj2 (filed_service cfg org repo None None 0 year month)) w res w').
  - apply wellFiled_kinds.
Qed.

Lemma entries_filed_by_kind_witness :
  let run :=
    getNewContributorsByMonth defaultConfig "acme" "widgets" "2021" (Some "6")
      Scenario.juneWorld in
  wellFiled Scenario.juneWorld
  ∧ wellFiled run.2
  ∧ ∀ e, cache run.2 !! contributorsKey "acme" "widgets" "2021" (Some "6") = Some e →
         ∃ d, v e = VContributors d.
Proof.
  intros run.
  assert (H0 : wellFiled Scenario.juneWorld).
  { intros k e. cbn. by rewrite lookup_empty. }
  destruct (entries_filed_by_kind defaultConfig) as (_ & _ & _ & Hrun & Hkinds).
  assert (H1 : wellFiled run.2).
  { apply (Hrun "acme" "widgets" "2021" (Some "6") Scenario.juneWorld run.1 run.2);
      [|exact H0].
    unfold run. by destruct (getNewContributorsByMonth _ _ _ _ _ _). }
  split_and!; [exact H0 | exact H1 |].
  intros e He. exact (proj2 (proj2 (Hkinds run.2 H1)) _ _ _ _ e He).
Defined.

(** ** Dates that cannot be read *)

Lemma lt_invalid_l d : JSDate.lt None d = false.
Proof. reflexivity. Qed.

Lemma lt_invalid_r d : JSDate.lt d None = false.
Proof. by destruct d. Qed.

Lemma analyze_invalid_start cfg org repo year month w repository w1 :
  getRepository cfg org repo w = (Val repository, w1) →
  (period cfg year month).1 = None →
  analyze cfg org repo year month w = (Exc JSError.invalidTime, w1).
Proof.
  intros Hrepo Hstart. unfold analyze.
  rewrite (bind_run_val _ _ _ _ _ Hrepo).
  destruct (period cfg year month) as [startDate endDate]. cbn in Hstart. subst startDate.
  unfold clampStart. rewrite lt_invalid_l.
  unfold contributorsBefore, JSDate.gt. rewrite lt_invalid_r.
  unfold countNew, toISOString. reflexivity.
Qed.

Lemma analyze_invalid_creation cfg org repo year month w repository w1 :
  getRepository cfg org repo w = (Val repository, w1) →
  JSDate.parse (timeZone cfg) (otherDates cfg) (Repository.created_at repository) = None →
  analyze cfg org repo year month w
  = countNew cfg org repo year month (period cfg year month).1
      (period cfg year month).2 ∅ w1.
Proof.
  intros Hrepo Hcreated. unfold analyze.
  rewrite (bind_run_val _ _ _ _ _ Hrepo), Hcreated.
  destruct (period cfg year month) as [startDate endDate]. cbn [fst snd].
  unfold clampStart. rewrite lt_invalid_r.
  unfold contributorsBefore, JSDate.gt. rewrite lt_invalid_l. reflexivity.
Qed.

(** X12.  When the result is not in the cache and the repository is
    found: if the start of the period, as the engine reads it, is the
    invalid date, the analysis
    fails with ["Failed to analyze contributors: Invalid time value"] in
    the state the repository lookup left, so without any request for
    commits and with nothing stored; if the creation date of the
    repository is the invalid date, the start is not moved, the baseline
    is not fetched and the commits of the period are counted against no
    earlier contributor. *)
Theorem unreadable_dates cfg org repo year month w w0 repository w1 :
  cache_get (contributorsKey org repo year month) w = (Val None, w0) →
  getRepository cfg org repo w0 = (Val repository, w1) →
  ((period cfg year month).1 = None →
   getNewContributorsByMonth cfg org repo year month w
   = (Exc (wrapped JSError.invalidTime), w1))
  ∧ (JSDate.parse (timeZone cfg) (otherDates cfg) (Repository.created_at repository) = None →
     getNewContributorsByMonth cfg org repo year month w
     = match countNew cfg org repo year month (period cfg year month).1
               (period cfg year month).2 ∅ w1 with
       | (Val d, w') => (Val d, w')
       | (Exc cause, w') => (Exc (wrapped cause), w')
       end).
Proof.
  intros Hmiss Hrepo. rewrite (getNewContributorsByMonth_miss _ _ _ _ _ _ _ Hmiss). split.
  - intros Hstart.
    by rewrite (analyze_invalid_start cfg org repo year month w0 repository w1 Hrepo Hstart).
  - intros Hcreated.
    by rewrite (analyze_invalid_creation cfg org repo year month w0 repository w1
                  Hrepo Hcreated).
Qed.

Lemma unreadable_dates_witness :
  let w := Scenario.juneWorld in
  let w1 := (getRepository defaultConfig "acme" "widgets" w).2 in
  cache_get (contributorsKey "acme" "widgets" "2021" (Some "13")) w = (Val None, w)
  ∧ getRepository defaultConfig "acme" "widgets" w = (Val Scenario.widgets, w1)
  ∧ (period defaultConfig "2021" (Some "13")).1 = None
  ∧ getNewContributorsByMonth defaultConfig "acme" "widgets" "2021" (Some "13") w
    = (Exc (JSError.Error "Failed to analyze contributors: Invalid time value"), w1)
  ∧ calls w1 = [GetRepository "acme" "widgets"].
Proof.
  intros w w1.
  assert (H1 : cache_get (contributorsKey "acme" "widgets" "2021" (Some "13")) w
               = (Val None, w)) by reflexivity.
  assert (H2 : getRepository defaultConfig "acme" "widgets" w = (Val Scenario.widgets, w1))
    by reflexivity.
  assert (H3 : (period defaultConfig "2021" (Some "13")).1 = None) by reflexivity.
  split_and!; [exact H1 | exact H2 | exact H3 | | reflexivity].
  exact (proj1 (unreadable_dates defaultConfig "acme" "widgets" "2021" (Some "13")
                  w w Scenario.widgets w1 H1 H2) H3).
Defined.

(** ** The shape of a result *)

Lemma size_list_to_set_le (l : list string) :
  (size (list_to_set (C := gset string) l) ≤ length l)%nat.
Proof.
  induction l as [|x l IH]; cbn; [by rewrite size_empty|].
  rewrite size_union_alt, size_singleton.
  pose proof (subseteq_size (list_to_set (C := gset string) l ∖ {[x]}) (list_to_set l)
                ltac:(set_solver)).
  lia.
Qed.

Lemma length_omap_le {A B} (f : A → option B) (l : list A) :
  (length (omap f l) ≤ length l)%nat.
Proof. induction l as [|x l IH]; cbn; [lia|]. destruct (f x); cbn; lia. Qed.

Lemma size_contributors_le commits existing :
  (size (contributors commits ∖ existing) ≤ length commits)%nat.
Proof.
  pose proof (subseteq_size (contributors commits ∖ existing) (contributors commits)
                ltac:(set_solver)) as H1.
  pose proof (size_list_to_set_le (omap contributor commits)) as H2.
  pose proof (length_omap_le contributor commits) as H3.
  unfold contributors in *. lia.
Qed.

Lemma analyze_shape cfg org repo year month w d w' :
  analyze cfg org repo year month w = (Val d, w') →
  ContributorData.org d = org ∧ ContributorData.repository d = repo
  ∧ ContributorData.year d = year ∧ ContributorData.month d = param month.
Proof.
  unfold analyze. intros H.
  apply bind_val in H as (repository & w1 & _ & H).
  destruct (period cfg year month) as [startDate endDate].
  apply bind_val in H as (existing & w2 & _ & H).
  apply countNew_val in H as (commits & w3 & _ & -> & _). done.
Qed.

(** X13.  A result computed on a miss carries the organisation, the
    repository and the year of its query, and its month when one was given
    and is not empty; its count is at most the number of commits fetched
    for the period, and is 0 when every contributor of the period is among
    those of the baseline. *)
Theorem result_answers_query cfg org repo year month w w0 d w' :
  cache_get (contributorsKey org repo year month) w = (Val None, w0) →
  getNewContributorsByMonth cfg org repo year month w = (Val d, w') →
  ContributorData.org d = org ∧ ContributorData.repository d = repo
  ∧ ContributorData.year d = year ∧ ContributorData.month d = param month
  ∧ ∃ repository w1 baseline w2 target w3,
      getRepository cfg org repo w0 = (Val repository, w1)
      ∧ (let repoCreatedAt :=
           JSDate.parse (timeZone cfg) (otherDates cfg) (Repository.created_at repository) in
         let startDate := clampStart (period cfg year month).1 repoCreatedAt in
         fetchedBefore cfg org repo repoCreatedAt startDate w1 baseline w2
         ∧ fetchedWindow cfg org repo startDate (period cfg year month).2 w2 target w3)
      ∧ (ContributorData.newContributors d ≤ length target)%nat
      ∧ (contributors target ⊆ contributors baseline →
         ContributorData.newContributors d = 0%nat).
Proof.
  intros Hmiss Hrun.
  rewrite (getNewContributorsByMonth_miss _ _ _ _ _ _ _ Hmiss) in Hrun.
  destruct (analyze cfg org repo year month w0) as [[d'|e] w''] eqn:E; [|done].
  injection Hrun as -> ->.
  destruct (analyze_shape _ _ _ _ _ _ _ _ E) as (H1 & H2 & H3 & H4).
  apply analyze_val in E
    as (repository & w1 & baseline & w2 & target & w3 & Hrepo & Hb & Ht & Hn & _).
  split_and!; try done.
  exists repository, w1, baseline, w2, target, w3.
  split_and!; try done.
  - rewrite Hn. apply size_contributors_le.
  - intros Hsub. rewrite Hn.
    replace (contributors target ∖ contributors baseline) with (∅ : gset string)
      by set_solver.
    apply size_empty.
Qed.

Lemma result_answers_query_witness :
  let run :=
    getNewContributorsByMonth defaultConfig "acme" "widgets" "2021" (Some "6")
      Scenario.juneWorld in
  let d := Scenario.result "acme" "widgets" "2021" (Some "6") 2 in
  cache_get (contributorsKey "acme" "widgets" "2021" (Some "6")) Scenario.juneWorld
  = (Val None, Scenario.juneWorld)
  ∧ run = (Val d, run.2)
  ∧ ContributorData.org d = "acme" ∧ ContributorData.repository d = "widgets"
  ∧ ContributorData.year d = "2021" ∧ ContributorData.month d = Some "6".
Proof.
  intros run d.
  assert (H1 : cache_get (contributorsKey "acme" "widgets" "2021" (Some "6"))
                 Scenario.juneWorld = (Val None, Scenario.juneWorld)) by reflexivity.
  assert (H2 : run = (Val d, run.2)) by (vm_compute; reflexivity).
  destruct (result_answers_query defaultConfig "acme" "widgets" "2021" (Some "6")
              Scenario.juneWorld Scenario.juneWorld d run.2 H1 H2)
    as (Ho & Hr & Hy & Hm & _).
  split_and!; [exact H1 | exact H2 | exact Ho | exact Hr | exact Hy | exact Hm].
Defined.

(** ** The period in a time zone *)

Lemma calendar_checked : forallb calendarChecked (seqZ 1970 230) = true.
Proof. vm_compute. reflexivity. Qed.

Lemma parse_date tz engine sy sm sd y m d :
  JSString.digits 4 0 sy = Some (y, "") →
  JSString.digits 2 0 sm = Some (m, "") →
  JSString.digits 2 0 sd = Some (d, "") →
  1 ≤ m ≤ 12 → 1 ≤ d ≤ 31 →
  JSDate.parse tz engine (sy +:+ "-" +:+ sm +:+ "-" +:+ sd)
  = Some (JSDate.days_from_civil y m d * JSDate.msPerDay).
Proof.
  intros Hy Hm Hd Rm Rd. unfold JSDate.parse, JSDate.readISO.
  rewrite (parseYear_append _ _ _ Hy). cbn [mbind option_bind].
  rewrite expect_append. cbn [mbind option_bind].
  rewrite (digits_append _ _ _ _ _ Hm). cbn [mbind option_bind].
  rewrite expect_append. cbn [mbind option_bind].
  rewrite Hd. cbn [mbind option_bind].
  rewrite (proj2 (Z.leb_le 1 m)), (proj2 (Z.leb_le m 12)),
    (proj2 (Z.leb_le 1 d)), (proj2 (Z.leb_le d 31)) by lia.
  reflexivity.
Qed.

Lemma parse_end_of_year tz engine sy y :
  JSString.digits 4 0 sy = Some (y, "") →
  JSDate.parse tz engine (sy +:+ "-12-31T23:59:59")
  = Some (JSDate.days_from_civil y 12 31 * JSDate.msPerDay + 86399000 - tz * 60000).
Proof.
  intros Hy. unfold JSDate.parse, JSDate.readISO.
  rewrite (parseYear_append _ _ _ Hy). reflexivity.
Qed.

Lemma local_day_east first tz :
  0 ≤ tz < 1440 →
  (first * JSDate.msPerDay + JSDate.LocalTZA tz) / JSDate.msPerDay = first.
Proof.
  intros H. unfold JSDate.msPerDay, JSDate.LocalTZA.
  symmetry. apply (Z.div_unique _ _ _ (tz * 60000)); lia.
Qed.

Lemma local_day_west first tz :
  -1440 ≤ tz < 0 →
  (first * JSDate.msPerDay + JSDate.LocalTZA tz) / JSDate.msPerDay = first - 1.
Proof.
  intros H. unfold JSDate.msPerDay, JSDate.LocalTZA.
  symmetry. apply (Z.div_unique _ _ _ (86400000 + tz * 60000)); lia.
Qed.

Lemma ofLocalFields_run tz y m date h mi s :
  (0 <=? y) && (y <=? 99) = false →
  JSDate.ofLocalFields tz (Some y) (Some m) date h mi s
  = Some (JSDate.MakeDay y m date * JSDate.msPerDay + JSDate.MakeTime h mi s 0
          - tz * 60000).
Proof. intros H. unfold JSDate.ofLocalFields. by rewrite H. Qed.

Section AnyZone.
Variable cfg : Config.
Variable y : Z.
Hypothesis year_supported : 1970 ≤ y < 2200.
Hypothesis zone_supported : -1440 ≤ timeZone cfg < 1440.

Lemma calendar_of_year : calendarChecked y = true.
Proof.
  assert (Hin : In y (seqZ 1970 230)).
  { apply list_elem_of_In, elem_of_seqZ. lia. }
  exact (proj1 (forallb_forall _ _) calendar_checked y Hin).
Qed.

Lemma period_of_year : period cfg (pretty y) None = yearPeriodIn (timeZone cfg) y.
Proof.
  pose proof calendar_of_year as H. unfold calendarChecked in H.
  apply andb_prop in H as [H _]. apply andb_prop in H as [Hy Hlast].
  apply bool_decide_eq_true in Hy. apply Z.eqb_eq in Hlast.
  unfold period, yearPeriodIn, yearBounds. cbn [param].
  change "-01-01" with ("-" +:+ "01" +:+ "-" +:+ "01").
  rewrite (parse_date (timeZone cfg) (otherDates cfg) (pretty y) "01" "01" y 1 1 Hy eq_refl eq_refl)
    by lia.
  rewrite (parse_end_of_year (timeZone cfg) (otherDates cfg) (pretty y) y Hy).
  cbn [fmap option_fmap option_map]. unfold JSDate.msPerDay. do 2 f_equal. lia.
Qed.

Lemma period_of_month mstr m :
  1 ≤ m ≤ 12 → mstr = pretty m ∨ mstr = JSDate.pad 2 m →
  period cfg (pretty y) (Some mstr) = monthPeriodIn (timeZone cfg) y m.
Proof.
  intros Hm Hstr.
  pose proof calendar_of_year as H. unfold calendarChecked in H.
  apply andb_prop in H as [H Hmonths]. apply andb_prop in H as [Hy _].
  apply bool_decide_eq_true in Hy.
  assert (Hin : In m (seqZ 1 12)).
  { apply list_elem_of_In, elem_of_seqZ. lia. }
  pose proof (proj1 (forallb_forall _ _) Hmonths m Hin) as Hc. cbv beta zeta in Hc.
  apply andb_prop in Hc as [Hc Ht2]. apply andb_prop in Hc as [Hc Ht1].
  apply andb_prop in Hc as [Hc Hpad]. apply andb_prop in Hc as [Hc Hnext].
  apply andb_prop in Hc as [Hc Hprev]. apply andb_prop in Hc as [Hfirst _].
  apply bool_decide_eq_true in Hfirst, Hpad. apply Z.eqb_eq in Hnext.
  assert (Hparam : param (Some mstr) = Some mstr).
  { unfold param. destruct Hstr as [-> | ->]; [by rewrite Ht1 | by rewrite Ht2]. }
  assert (Hpadded : JSString.padStart 2 "0" mstr = JSDate.pad 2 m).
  { destruct Hstr as [-> | ->]; [reflexivity | exact Hpad]. }
  destruct readBack_checked as (P2 & _ & _).
  unfold period. rewrite Hparam, Hpadded.
  change "-01" with ("-" +:+ "01").
  rewrite (parse_date (timeZone cfg) (otherDates cfg) (pretty y) (JSDate.pad 2 m) "01" y m 1 Hy
             (pad_readBack 2 100 m P2 ltac:(lia)) eq_refl) by lia.
  unfold monthPeriodIn, monthBounds.
  set (first := JSDate.days_from_civil y m 1) in *.
  set (next := JSDate.days_from_civil (if m =? 12 then y + 1 else y)
                 (if m =? 12 then 1 else m + 1) 1) in *.
  f_equal. unfold JSDate.getFullYear, JSDate.getMonth. cbn [mbind option_bind].
  destruct (0 <=? timeZone cfg) eqn:Ez; zbool.
  - rewrite (local_day_east first (timeZone cfg)) by lia. rewrite Hfirst.
    cbn [fst snd fmap option_fmap option_map].
    rewrite ofLocalFields_run.
    2:{ apply andb_false_iff. right. apply Z.leb_gt. lia. }
    rewrite Hnext. unfold JSDate.MakeTime, JSDate.msPerDay. f_equal. lia.
  - rewrite (local_day_west first (timeZone cfg)) by lia.
    destruct (JSDate.civil_from_days (first - 1)) as [[py pm] pd].
    apply andb_prop in Hprev as [Hpy Hprev]. apply negb_true_iff in Hpy.
    apply Z.eqb_eq in Hprev.
    cbn [fst snd fmap option_fmap option_map].
    rewrite (ofLocalFields_run _ _ _ _ _ _ _ Hpy), Hprev.
    unfold JSDate.MakeTime, JSDate.msPerDay. f_equal. lia.
Qed.

End AnyZone.

(** X14.  For the years 1970 to 2199 and a local time less than a day
    away from UTC, the period of a year starts with the year in UTC and
    ends with the year in local time; the period of a month, written with
    or without a leading zero, starts with the month in UTC and ends, east
    of UTC, as many minutes before the month does as the zone is ahead,
    and, west of UTC, one second short of as many minutes after its start
    as the zone is behind.  Away from UTC, then, no period is the calendar
    year or the calendar month of UTC. *)
Theorem period_in_any_zone cfg y :
  1970 ≤ y < 2200 → -1440 < timeZone cfg < 1440 →
  period cfg (pretty y) None = yearPeriodIn (timeZone cfg) y
  ∧ (∀ m, 1 ≤ m ≤ 12 →
       period cfg (pretty y) (Some (pretty m)) = monthPeriodIn (timeZone cfg) y m
       ∧ period cfg (pretty y) (Some (JSDate.pad 2 m))
         = monthPeriodIn (timeZone cfg) y m)
  ∧ (timeZone cfg ≠ 0 →
     period cfg (pretty y) None ≠ yearBounds y
     ∧ ∀ m, 1 ≤ m ≤ 12 → period cfg (pretty y) (Some (pretty m)) ≠ monthBounds y m).
Proof.
  intros Hy Hz'.
  assert (Hz : -1440 ≤ timeZone cfg < 1440) by lia.
  split_and!.
  - by apply period_of_year.
  - intros m Hm. split; apply period_of_month; auto.
  - intros Hnz. split.
    + rewrite period_of_year by done. unfold yearPeriodIn, yearBounds.
      cbn [fmap option_fmap option_map]. intros [= H]. lia.
    + intros m Hm. rewrite (period_of_month cfg y Hy Hz (pretty m) m Hm) by auto.
      unfold monthPeriodIn, monthBounds.
      assert (Hlen : JSDate.days_from_civil y m 1
                     < JSDate.days_from_civil (if m =? 12 then y + 1 else y)
                         (if m =? 12 then 1 else m + 1) 1).
      { pose proof (calendar_of_year y Hy) as H. unfold calendarChecked in H.
        apply andb_prop in H as [_ Hmonths].
        assert (Hin : In m (seqZ 1 12)).
        { apply list_elem_of_In, elem_of_seqZ. lia. }
        pose proof (proj1 (forallb_forall _ _) Hmonths m Hin) as Hc. cbv beta zeta in Hc.
        do 5 (apply andb_prop in Hc as [Hc _]).
        apply andb_prop in Hc as [_ Hc]. by apply Z.ltb_lt in Hc. }
      destruct (0 <=? timeZone cfg) eqn:Ez; zbool;
        cbn [fmap option_fmap option_map]; unfold JSDate.msPerDay; intros [= H]; lia.
Qed.

Lemma period_in_any_zone_witness :
  1970 ≤ 2021 < 2200 ∧ -1440 < timeZone bogota < 1440
  ∧ period bogota "2021" (Some "6")
    = (Some 1622505600000, Some (1622505600000 + 300 * 60000 - 1000))
  ∧ period kolkata "2021" (Some "06")
    = (Some 1622505600000, Some (1625097599000 - 330 * 60000)).
Proof.
  assert (Hy : 1970 ≤ 2021 < 2200) by lia.
  assert (Hb : -1440 < timeZone bogota < 1440) by (cbn; lia).
  assert (Hk : -1440 < timeZone kolkata < 1440) by (cbn; lia).
  split; [exact Hy|]. split; [exact Hb|]. split.
  - exact (proj1 (proj1 (proj2 (period_in_any_zone bogota 2021 Hy Hb)) 6 ltac:(lia))).
  - exact (proj2 (proj1 (proj2 (period_in_any_zone kolkata 2021 Hy Hk)) 6 ltac:(lia))).
Defined.

(** * The routes *)

(** ** Validation *)

Lemma truthy_length s : JSString.truthy s = true ↔ (1 ≤ String.length s)%nat.
Proof. destruct s; cbn; split; (done || lia). Qed.

Lemma validateNames_None org repo :
  validateNames org repo = None
  ↔ JSText.githubNamePattern org = true ∧ JSText.githubNamePattern repo = true.
Proof.
  unfold validateNames, refuse.
  destruct (JSText.githubNamePattern org), (JSText.githubNamePattern repo); cbn;
    split; (done || intros [? ?]; done).
Qed.

Lemma targetDate_future tz y m now_ :
  2008 ≤ y →
  JSDate.gt (JSDate.ofLocalFields tz (Some y) (Some (m - 1)) 1 0 0 0) (Some now_) = false
  ↔ monthStartIn tz y m ≤ now_.
Proof.
  intros Hy. unfold JSDate.ofLocalFields.
  rewrite (proj2 (andb_false_iff _ _)) by (right; apply Z.leb_gt; lia).
  unfold JSDate.gt, JSDate.lt, monthStartIn, JSDate.MakeTime, JSDate.LocalTZA.
  rewrite Z.ltb_ge. lia.
Qed.

Lemma validateParams_acceptable tz now_ params :
  validateParams tz now_ params = None ↔ acceptable tz now_ params.
Proof.
  unfold validateParams, acceptable, refuse.
  destruct params as [org repo year month]. cbn [Params.org Params.repo Params.year Params.month].
  pose proof (truthy_length org) as Torg. pose proof (truthy_length repo) as Trepo.
  destruct (negb (JSString.truthy org) || (String.length org <? 1)%nat
            || (39 <? String.length org)%nat) eqn:Eorg.
  { split; [done|]. intros (Ho & _).
    apply orb_true_iff in Eorg as [Eorg|Eorg];
      [apply orb_true_iff in Eorg as [Eorg|Eorg]|].
    - apply negb_true_iff in Eorg. destruct (JSString.truthy org); [done|].
      destruct Torg as [_ Torg]. specialize (Torg ltac:(lia)). done.
    - apply Nat.ltb_lt in Eorg. lia.
    - apply Nat.ltb_lt in Eorg. lia. }
  apply orb_false_iff in Eorg as [Eorg Eorg3]. apply orb_false_iff in Eorg as [Eorg1 Eorg2].
  apply negb_false_iff in Eorg1. apply Nat.ltb_ge in Eorg2, Eorg3.
  destruct (negb (JSString.truthy repo) || (String.length repo <? 1)%nat
            || (100 <? String.length repo)%nat) eqn:Erepo.
  { split; [done|]. intros (_ & Hr & _).
    apply orb_true_iff in Erepo as [Erepo|Erepo];
      [apply orb_true_iff in Erepo as [Erepo|Erepo]|].
    - apply negb_true_iff in Erepo. destruct (JSString.truthy repo); [done|].
      destruct Trepo as [_ Trepo]. specialize (Trepo ltac:(lia)). done.
    - apply Nat.ltb_lt in Erepo. lia.
    - apply Nat.ltb_lt in Erepo. lia. }
  apply orb_false_iff in Erepo as [Erepo Erepo3].
  apply orb_false_iff in Erepo as [Erepo1 Erepo2].
  apply negb_false_iff in Erepo1. apply Nat.ltb_ge in Erepo2, Erepo3.
  assert (Hnames : validateNames org repo = None
                   ↔ JSText.allNameChars org = true ∧ JSText.allNameChars repo = true).
  { rewrite validateNames_None. unfold JSText.githubNamePattern.
    rewrite Eorg1, Erepo1. done. }
  destruct (JSString.parseInt year) as [y|] eqn:Eyear.
  2:{ split; [done|]. intros (_ & _ & _ & _ & y & Hy & _). done. }
  destruct ((y <? 2008) || (currentYear tz now_ <? y)) eqn:Erange.
  { split; [done|]. intros (_ & _ & _ & _ & y' & [= <-] & Hy & _).
    apply orb_true_iff in Erange as [E|E]; apply Z.ltb_lt in E; lia. }
  apply orb_false_iff in Erange as [E1 E2]. apply Z.ltb_ge in E1, E2.
  destruct (param month) as [m|] eqn:Emonth.
  2:{ rewrite Hnames. split.
      - intros [? ?]. split_and!; try done; try lia. exists y. split_and!; done || lia.
      - intros (_ & _ & ? & ? & _). done. }
  destruct (JSString.parseInt m) as [n|] eqn:En.
  2:{ split; [done|]. intros (_ & _ & _ & _ & y' & _ & _ & n & Hn & _). done. }
  destruct ((n <? 1) || (12 <? n)) eqn:Emrange.
  { split; [done|]. intros (_ & _ & _ & _ & y' & _ & _ & n' & [= <-] & Hn & _).
    apply orb_true_iff in Emrange as [E|E]; apply Z.ltb_lt in E; lia. }
  apply orb_false_iff in Emrange as [E3 E4]. apply Z.ltb_ge in E3, E4.
  pose proof (targetDate_future tz y n now_ E1) as Hfuture.
  destruct (JSDate.gt _ _).
  { split; [done|]. intros (_ & _ & _ & _ & y' & [= <-] & _ & n' & [= <-] & _ & Hn).
    destruct Hfuture as [_ Hfuture]. specialize (Hfuture Hn). done. }
  rewrite Hnames. split.
  - intros [? ?]. split_and!; try done; try lia. exists y. split_and!; try done; try lia.
    exists n. split_and!; first [done | lia | by apply Hfuture].
  - intros (_ & _ & ? & ? & _). done.
Qed.

Lemma validateParams_status tz now_ params response :
  validateParams tz now_ params = Some response → status response = 400.
Proof.
  unfold validateParams, validateNames, refuse.
  repeat case_match; intros Hsent; try discriminate Hsent;
    injection Hsent as <-; reflexivity.
Qed.

(** X15.  [validateParams] calls [next] exactly for the acceptable
    parameters: an organisation of 1 to 39 and a repository of 1 to 100
    characters among letters, digits, dots, underscores and hyphens; a year
    that [parseInt] reads as a number from 2008 to the current local year;
    and, when a month is given and not empty, a month that [parseInt] reads
    as a number from 1 to 12 and whose first local instant is not in the
    future.  Every other request is answered with status 400. *)
Theorem validation_lets_through tz now_ params :
  (validateParams tz now_ params = None ↔ acceptable tz now_ params)
  ∧ (∀ response, validateParams tz now_ params = Some response →
       status response = 400).
Proof.
  split; [apply validateParams_acceptable | apply validateParams_status].
Qed.

Lemma validation_lets_through_witness :
  let params := {| Params.org := "acme"; Params.repo := "widgets";
                   Params.year := "2021"; Params.month := Some "6" |} in
  validateParams 0 1700000000000 params = None
  ∧ acceptable 0 1700000000000 params.
Proof.
  intros params.
  assert (H : validateParams 0 1700000000000 params = None) by reflexivity.
  split; [exact H|].
  exact (proj1 (proj1 (validation_lets_through 0 1700000000000 params)) H).
Defined.

Lemma isNameChar_not_colon c : JSText.isNameChar c = true → c ≠ ":"%char.
Proof. intros H ->. discriminate H. Qed.

Lemma allNameChars_colon_free s :
  JSText.allNameChars s = true → JSString.colon_free s = true.
Proof.
  induction s as [|c s IH]; cbn; [done|].
  intros H. apply andb_prop in H as [Hc Hs].
  rewrite decide_False by (by apply isNameChar_not_colon). auto.
Qed.

Lemma validateParams_colon_free tz now_ params :
  validateParams tz now_ params = None →
  JSString.colon_free (Params.org params) = true
  ∧ JSString.colon_free (Params.repo params) = true.
Proof.
  intros H. apply validateParams_acceptable in H as (_ & _ & Ho & Hr & _).
  split; by apply allNameChars_colon_free.
Qed.

(** X16.  Two requests that pass validation have the same repository key
    only when they name the same organisation and the same repository, and
    the same page key, for timestamps of equal lengths and for the listing
    without window, only when organisation, repository, window and page are
    the same. *)
Theorem validated_names_keep_keys_apart tz now_ p p' :
  validateParams tz now_ p = None → validateParams tz now_ p' = None →
  (repoKey (Params.org p) (Params.repo p) = repoKey (Params.org p') (Params.repo p') →
   Params.org p = Params.org p' ∧ Params.repo p = Params.repo p')
  ∧ (∀ since until page since' until' page',
       String.length since = String.length since' →
       String.length until = String.length until' →
       commitsKey (Params.org p) (Params.repo p) (Some since) (Some until) page
       = commitsKey (Params.org p') (Params.repo p') (Some since') (Some until') page' →
       Params.org p = Params.org p' ∧ Params.repo p = Params.repo p'
       ∧ since = since' ∧ until = until' ∧ page = page')
  ∧ (∀ page page',
       commitsKey (Params.org p) (Params.repo p) None None page
       = commitsKey (Params.org p') (Params.repo p') None None page' →
       Params.org p = Params.org p' ∧ Params.repo p = Params.repo p'
       ∧ page = page').
Proof.
  intros H H'.
  apply validateParams_colon_free in H as [Ho Hr].
  apply validateParams_colon_free in H' as [Ho' Hr'].
  split_and!.
  - intros Hk. unfold repoKey in Hk. apply String.app_inj in Hk.
    by apply colon_split in Hk.
  - intros. by apply commitsKey_inj.
  - intros page page' Hk.
    apply commitsKey_apart in Hk as (-> & -> & _ & _ & ->);
      [done | by apply colon_free_apart | by apply colon_free_apart
       | apply apart_refl | apply apart_refl | |];
      intros [[_ E] | [E _]]; discriminate E.
Qed.

Lemma validated_names_keep_keys_apart_witness :
  let p := {| Params.org := "acme"; Params.repo := "widgets";
              Params.year := "2021"; Params.month := None |} in
  let p' := {| Params.org := "acme"; Params.repo := "gadgets";
               Params.year := "2022"; Params.month := Some "3" |} in
  let since := "2021-06-01T00:00:00.000Z" in
  let until := "2021-06-30T23:59:59.000Z" in
  validateParams 0 1700000000000 p = None
  ∧ validateParams 0 1700000000000 p' = None
  ∧ repoKey "acme" "widgets" ≠ repoKey "acme" "gadgets"
  ∧ commitsKey "acme" "widgets" (Some since) (Some until) 1
    ≠ commitsKey "acme" "gadgets" (Some since) (Some until) 1
  ∧ commitsKey "acme" "widgets" (Some since) (Some until) 1
    ≠ commitsKey "acme" "widgets" (Some since) (Some until) 2
  ∧ commitsKey "acme" "widgets" None None 1 ≠ commitsKey "acme" "gadgets" None None 1.
Proof.
  intros p p' since until.
  assert (H : validateParams 0 1700000000000 p = None) by reflexivity.
  assert (H' : validateParams 0 1700000000000 p' = None) by reflexivity.
  split; [exact H|]. split; [exact H'|].
  destruct (validated_names_keep_keys_apart 0 1700000000000 p p' H H')
    as (Hrepo & Hpage & Hlisting).
  destruct (validated_names_keep_keys_apart 0 1700000000000 p p H H)
    as (_ & Hsame & _).
  split_and!.
  - intros E. destruct (Hrepo E) as [_ E']. discriminate E'.
  - intros E. destruct (Hpage since until 1 since until 1 eq_refl eq_refl E)
      as (_ & E' & _). discriminate E'.
  - intros E. destruct (Hsame since until 1 since until 2 eq_refl eq_refl E)
      as (_ & _ & _ & _ & E'). discriminate E'.
  - intros E. destruct (Hlisting 1 1 E) as (_ & E' & _). discriminate E'.
Defined.

(** ** The routes *)

Section RouteRuns.
Variable cfg : Config.
Variable env : string → option string.
Variable stackOf : JSError.t → string.



Lemma route_failed line params month url method w e w' :
  validateParams (timeZone cfg) (now w) params = None →
  getNewContributorsByMonth cfg (Params.org params) (Params.repo params)
    (Params.year params) month w = (Exc e, w') →
  route cfg env stackOf line params month url method w
  = (((errorHandler env (now w') (thrown stackOf e) url method).2,
      [line; (errorHandler env (now w') (thrown stackOf e) url method).1]), w').
Proof.
  intros H E. unfold route. rewrite H, E.
  by destruct (errorHandler _ _ _ _ _).
Qed.

End RouteRuns.

Lemma includes_app_r sub a b :
  JSText.includes sub b = true → JSText.includes sub (a +:+ b) = true.
Proof.
  intros H. induction a as [|c a IH]; [by rewrite append_nil|].
  rewrite append_cons. cbn [JSText.includes]. rewrite IH. apply orb_true_r.
Qed.










Section EndToEnd.
Variable cfg : Config.
Variable env : string → option string.
Variable stackOf : JSError.t → string.

Lemma analysis_without_repository org repo year month w e w' :
  cache w !! contributorsKey org repo year month = None →
  getRepository cfg org repo w = (Exc e, w') →
  getNewContributorsByMonth cfg org repo year month w = (Exc (wrapped e), w').
Proof.
  intros Hmiss Hrepo.
  rewrite (getNewContributorsByMonth_miss cfg org repo year month w w
             (cache_get_absent _ _ Hmiss)).
  unfold analyze. by rewrite (bind_run_exc _ _ _ _ _ Hrepo).
Qed.

Lemma errorHandler_not_found now_ error url method :
  JSText.includes "not found" (AppError.message error) = true →
  errorHandler env now_ error url method
  = (ErrorOccurred (AppError.message error) (AppError.stack error) url method
       (timestamp now_),
     {| status := 404;
        body := Failure "Bad Request" (AppError.message error) (timestamp now_) url
                  (if bool_decide (env "NODE_ENV" = Some "development")
                   then Some (AppError.stack error) else None) |}).
Proof. intros H. unfold errorHandler. by rewrite H. Qed.

Lemma repositoryFailure_not_found org repo e :
  JSError.status e = Some 404 →
  wrapped (repositoryFailure org repo e)
  = JSError.Error ("Failed to analyze contributors: Repository " +:+ org +:+ "/"
                   +:+ repo +:+ " not found")
  ∧ JSText.includes "not found"
      ("Failed to analyze contributors: Repository " +:+ org +:+ "/" +:+ repo
       +:+ " not found") = true.
Proof.
  intros H. unfold wrapped, repositoryFailure. rewrite H.
  rewrite bool_decide_eq_true_2 by reflexivity. split; [reflexivity|].
  change ("Failed to analyze contributors: Repository " +:+ org +:+ "/" +:+ repo
          +:+ " not found")
    with ("Failed to analyze contributors: Repository "
          +:+ (org +:+ ("/" +:+ (repo +:+ " not found")))).
  do 4 apply includes_app_r. reflexivity.
Qed.

Lemma status_404_permanent e :
  JSError.status e = Some 404 → JSError.code e ≠ Some "ECONNRESET" →
  permanent e = true.
Proof.
  intros Hs Hc. unfold permanent. rewrite Hs, (bool_decide_eq_false_2 _ Hc).
  reflexivity.
Qed.

End EndToEnd.

(** X18.  A request that passes validation for a repository the platform
    does not know (status 404 on the repository lookup, nothing in the
    cache) is answered 404, with the message ["Failed to analyze
    contributors: Repository org/repo not found"], after one request to
    the platform and with the cache as it was. *)
Theorem unknown_repository_answered_404 cfg env stackOf line params month url method
    w r rest e :
  validateParams (timeZone cfg) (now w) params = None →
  cache w !! contributorsKey (Params.org params) (Params.repo params)
               (Params.year params) month = None →
  cache w !! repoKey (Params.org params) (Params.repo params) = None →
  upstream w = r :: rest →
  on_repository r (Params.org params) (Params.repo params) = Fail e →
  JSError.status e = Some 404 → JSError.code e ≠ Some "ECONNRESET" →
  ∃ response lines w',
    route cfg env stackOf line params month url method w = ((response, lines), w')
    ∧ status response = 404
    ∧ (∃ stack,
         body response
         = Failure "Bad Request"
             ("Failed to analyze contributors: Repository " +:+ Params.org params
              +:+ "/" +:+ Params.repo params +:+ " not found")
             (timestamp (now w')) url stack)
    ∧ calls w' = calls w ++ [GetRepository (Params.org params) (Params.repo params)]
    ∧ cache w' = cache w.
Proof.
  intros Hv Hmiss Hcold Hu Hr Hs Hc.
  destruct (client_get_rethrown cfg
              (λ r, on_repository r (Params.org params) (Params.repo params))
              (GetRepository (Params.org params) (Params.repo params))
              r rest e w Hu Hr (status_404_permanent e Hs Hc))
    as (w1 & E & Hk & _ & Hcache).
  pose proof (fetchRepository_exc cfg _ _ w e w1 E) as Hfetch.
  rewrite <- (getRepository_absent cfg _ _ w Hcold) in Hfetch.
  pose proof (analysis_without_repository cfg _ _ _ month w _ w1 Hmiss Hfetch) as Hrun.
  destruct (repositoryFailure_not_found (Params.org params) (Params.repo params) e Hs)
    as [Hmsg Hinc].
  rewrite Hmsg in Hrun.
  rewrite (route_failed cfg env stackOf line params month url method w _ w1 Hv Hrun).
  rewrite errorHandler_not_found by exact Hinc.
  eexists _, _, _. split; [reflexivity|]. cbn.
  split_and!; try done. eexists. reflexivity.
Qed.

Lemma unknown_repository_answered_404_witness :
  let w := Scenario.fresh [notFound] in
  let run :=
    getMonth defaultConfig (λ _, None) (λ _, "") "acme" "widgets" "2021" "6"
      "/acme/widgets/2021/6" "GET" w in
  validateParams 0 (now w)
    {| Params.org := "acme"; Params.repo := "widgets"; Params.year := "2021";
       Params.month := Some "6" |} = None
  ∧ status run.1.1 = 404
  ∧ calls run.2 = [GetRepository "acme" "widgets"].
Proof.
  intros w run.
  assert (Hv : validateParams 0 (now w)
                 {| Params.org := "acme"; Params.repo := "widgets";
                    Params.year := "2021"; Params.month := Some "6" |} = None)
    by reflexivity.
  split; [exact Hv|].
  destruct (unknown_repository_answered_404 defaultConfig (λ _, None) (λ _, "")
              (LogFetchingMonthly "acme" "widgets" "2021" "6")
              {| Params.org := "acme"; Params.repo := "widgets";
                 Params.year := "2021"; Params.month := Some "6" |}
              (Some "6") "/acme/widgets/2021/6" "GET" w notFound []
              {| JSError.status := Some 404; JSError.ratelimit_remaining := None;
                 JSError.ratelimit_reset := None;
                 JSError.code := Some "ERR_BAD_REQUEST";
                 JSError.message := "Request failed with status code 404" |}
              Hv eq_refl eq_refl eq_refl eq_refl eq_refl ltac:(discriminate))
    as (response & lines & w' & E & Hs & _ & Hk & _).
  assert (Hrun : run = ((response, lines), w')) by exact E.
  rewrite Hrun. split; [exact Hs | exact Hk].
Defined.

(** X19.  A request that passes validation while the platform does not
    answer (nothing in the cache) is answered 504 with the message
    ["GitHub API request timeout. Please try again later."], 30 seconds or
    more later, after one request and with the cache as it was. *)
Theorem silent_platform_answered_504 cfg env stackOf line params month url method w :
  validateParams (timeZone cfg) (now w) params = None →
  cache w !! contributorsKey (Params.org params) (Params.repo params)
               (Params.year params) month = None →
  cache w !! repoKey (Params.org params) (Params.repo params) = None →
  upstream w = [] →
  ∃ response lines w',
    route cfg env stackOf line params month url method w = ((response, lines), w')
    ∧ status response = 504
    ∧ (∃ stack,
         body response
         = Failure "Internal Server Error"
             "GitHub API request timeout. Please try again later."
             (timestamp (now w')) url stack)
    ∧ calls w' = calls w ++ [GetRepository (Params.org params) (Params.repo params)]
    ∧ now w + 30000 ≤ now w'
    ∧ cache w' = cache w.
Proof.
  intros Hv Hmiss Hcold Hu.
  destruct (client_get_unanswered cfg
              (λ r, on_repository r (Params.org params) (Params.repo params))
              (GetRepository (Params.org params) (Params.repo params)) w)
    as (w1 & E & Hk & _ & Hcache & Hn).
  { rewrite Hu. constructor. }
  rewrite Hu in Hk, Hn. cbn in Hk, Hn.
  pose proof (fetchRepository_exc cfg _ _ w _ w1 E) as Hfetch.
  rewrite <- (getRepository_absent cfg _ _ w Hcold) in Hfetch.
  pose proof (analysis_without_repository cfg _ _ _ month w _ w1 Hmiss Hfetch) as Hrun.
  rewrite (route_failed cfg env stackOf line params month url method w _ w1 Hv Hrun).
  eexists _, _, _. split; [reflexivity|]. cbn.
  split_and!; try done; [eexists; reflexivity | lia].
Qed.

Lemma silent_platform_answered_504_witness :
  let w := Scenario.fresh [] in
  let run :=
    getYear defaultConfig (λ _, None) (λ _, "") "acme" "widgets" "2021"
      "/acme/widgets/2021" "GET" w in
  validateParams 0 (now w)
    {| Params.org := "acme"; Params.repo := "widgets"; Params.year := "2021";
       Params.month := None |} = None
  ∧ status run.1.1 = 504
  ∧ now w + 30000 ≤ now run.2.
Proof.
  intros w run.
  assert (Hv : validateParams 0 (now w)
                 {| Params.org := "acme"; Params.repo := "widgets";
                    Params.year := "2021"; Params.month := None |} = None)
    by reflexivity.
  split; [exact Hv|].
  destruct (silent_platform_answered_504 defaultConfig (λ _, None) (λ _, "")
              (LogFetchingYearly "acme" "widgets" "2021")
              {| Params.org := "acme"; Params.repo := "widgets";
                 Params.year := "2021"; Params.month := None |}
              None "/acme/widgets/2021" "GET" w Hv eq_refl eq_refl eq_refl)
    as (response & lines & w' & E & Hs & _ & _ & Hn & _).
  assert (Hrun : run = ((response, lines), w')) by exact E.
  rewrite Hrun. split; [exact Hs | exact Hn].
Defined.

(** X20.  A request that passes validation and whose period starts, as
    the engine reads it, with the invalid date is answered 500
    ["Internal server error"] once
    the repository is found, in the state the repository lookup left:
    validation reads the year and the month with [parseInt], which accepts
    what the service cannot read as a date. *)
Theorem unreadable_period_answered_500 cfg env stackOf line params month url method
    w repository w1 :
  validateParams (timeZone cfg) (now w) params = None →
  cache w !! contributorsKey (Params.org params) (Params.repo params)
               (Params.year params) month = None →
  getRepository cfg (Params.org params) (Params.repo params) w = (Val repository, w1) →
  (period cfg (Params.year params) month).1 = None →
  ∃ response lines,
    route cfg env stackOf line params month url method w = ((response, lines), w1)
    ∧ status response = 500
    ∧ ∃ stack,
        body response
        = Failure "Internal Server Error" "Internal server error"
            (timestamp (now w1)) url stack.
Proof.
  intros Hv Hmiss Hrepo Hperiod.
  pose proof (getNewContributorsByMonth_miss cfg _ _ _ month w w
                (cache_get_absent _ _ Hmiss)) as Hrun.
  rewrite (analyze_invalid_start cfg _ _ _ month w repository w1 Hrepo Hperiod) in Hrun.
  rewrite (route_failed cfg env stackOf line params month url method w _ w1 Hv Hrun).
  eexists _, _. split; [reflexivity|]. cbn. split; [done|]. eexists. reflexivity.
Qed.

Lemma unreadable_period_answered_500_witness :
  let w := Scenario.juneWorld in
  let params := {| Params.org := "acme"; Params.repo := "widgets";
                   Params.year := "2021"; Params.month := Some "6abc" |} in
  let run :=
    getMonth defaultConfig (λ _, None) (λ _, "") "acme" "widgets" "2021" "6abc"
      "/acme/widgets/2021/6abc" "GET" w in
  validateParams 0 (now w) params = None
  ∧ (period defaultConfig "2021" (Some "6abc")).1 = None
  ∧ status run.1.1 = 500
  ∧ calls run.2 = [GetRepository "acme" "widgets"].
Proof.
  intros w params run.
  assert (Hv : validateParams 0 (now w) params = None) by reflexivity.
  assert (Hp : (period defaultConfig "2021" (Some "6abc")).1 = None) by reflexivity.
  split; [exact Hv|]. split; [exact Hp|].
  destruct (unreadable_period_answered_500 defaultConfig (λ _, None) (λ _, "")
              (LogFetchingMonthly "acme" "widgets" "2021" "6abc") params
              (Some "6abc") "/acme/widgets/2021/6abc" "GET" w Scenario.widgets
              (getRepository defaultConfig "acme" "widgets" w).2
              Hv eq_refl eq_refl Hp)
    as (response & lines & E & Hs & _).
  assert (Hrun : run = ((response, lines),
                        (getRepository defaultConfig "acme" "widgets" w).2))
    by exact E.
  rewrite Hrun. split; [exact Hs | reflexivity].
Defined.

(** ** The health check *)

(** X21.  When [CACHE_TTL] is unset or empty, the health check reports a
    time to live of ["3600 (default)"] and of one hour, while the service
    keeps its entries for 86400 seconds. *)
Theorem health_reports_another_default env now_ tz dates :
  envOr (env "CACHE_TTL") "" = "" →
  Health.ttl (health env now_) = "3600 (default)"
  ∧ Health.ttlHours (health env now_) = Some 1
  ∧ ∀ c, fromEnv env tz dates = Some c → CACHE_TTL c = 86400.
Proof.
  intros H.
  assert (Hor : ∀ fallback, envOr (env "CACHE_TTL") fallback = fallback).
  { intros fallback. unfold envOr in *. destruct (env "CACHE_TTL") as [x|]; [|done].
    destruct x; cbn in *; [done | discriminate H]. }
  unfold health. cbn [Health.ttl Health.ttlHours]. rewrite !Hor.
  split; [reflexivity|]. split; [reflexivity|].
  intros c. unfold fromEnv. rewrite Hor. intros Hc.
  destruct (JSString.parseInt (envOr (env "GITHUB_REQUESTS_PER_HOUR") "5000"))
    as [limit|]; [|discriminate Hc].
  change (JSString.parseInt "86400") with (Some 86400) in Hc. cbn in Hc.
  by injection Hc as <-.
Qed.

Lemma health_reports_another_default_witness :
  envOr ((λ _ : string, @None string) "CACHE_TTL") "" = ""
  ∧ Health.ttlHours (health (λ _, None) 1700000000000) = Some 1
  ∧ CACHE_TTL defaultConfig = 86400.
Proof.
  assert (H : envOr ((λ _ : string, @None string) "CACHE_TTL") "" = "") by reflexivity.
  destruct (health_reports_another_default (λ _, None) 1700000000000 0 JSDate.strict H)
    as (_ & H2 & H3).
  split; [exact H|]. split; [exact H2|]. exact (H3 defaultConfig eq_refl).
Defined.
